(** * The train / identify / review flow (course/week3/conflearn_project/flow.py)

    A shallow embedding of the Metaflow class [TrainIdentifyReview]: its
    eight steps, the data they pass along, and the numpy / pandas operations
    they perform on it.  The collaborators the flow calls but does not define
    (configuration loader, data module, classifier system, trainer, the
    flagging rule of the label-issue detector) are the fields of the class
    [Collaborators]. *)

From Stdlib Require Import ZArith Lia Floats.SpecFloat.
From stdpp Require Import base tactics option list strings pretty.

Open Scope Z_scope.
Open Scope nat_scope.

(** ** numpy float64 *)

(** A float64 is a [spec_float] at precision 53 with infinities at exponent
    1024; arithmetic is the IEEE 754 one (round to nearest, ties to even). *)
Module Float64.
Definition prec : Z := 53.
Definition emax : Z := 1024.

Definition zero : spec_float := S754_zero false.
Definition one : spec_float := S754_finite false 4503599627370496 (-52).

Definition add : spec_float → spec_float → spec_float := SFadd prec emax.
Definition sub : spec_float → spec_float → spec_float := SFsub prec emax.
Definition leb : spec_float → spec_float → bool := SFleb.
Definition valid : spec_float → bool := valid_binary prec emax.

(** [0 <= p <= 1] for a float64 in canonical form. *)
Definition is_probability (p : spec_float) : bool :=
  valid p && leb zero p && leb p one.
End Float64.

Abbreviation float := spec_float.

(** ** numpy int64 *)

Definition wrap64 (z : Z) : Z := ((z + 2 ^ 63) mod 2 ^ 64 - 2 ^ 63)%Z.

(** ** pandas rows and frames *)

Module Row.
Record t := mk { review : string; label : Z; prob : option float }.
Definition set_label (r : t) (l : Z) : t := mk (review r) l (prob r).
Definition set_prob (r : t) (p : float) : t := mk (review r) (label r) (Some p).
End Row.

(** A frame is the sequence of its rows, each with its index label. *)
Abbreviation DataFrame := (list (Z * Row.t)).

Module pd.
(** [pd.concat]: rows in order, index labels kept as they were. *)
Definition concat (dfs : list DataFrame) : DataFrame := mjoin dfs.

(** [df.reset_index(drop=True)]: labels become the positions 0..n-1. *)
Definition reset_index (df : DataFrame) : DataFrame :=
  imap (λ i ir, (Z.of_nat i, ir.2)) df.

Definition index (df : DataFrame) : list Z := fst <$> df.

(** [df['prob'] = values]: the lengths must agree. *)
Definition set_prob_column (df : DataFrame) (values : list float)
  : option DataFrame :=
  if decide (length values = length df)
  then Some (zip_with (λ ir p, (ir.1, Row.set_prob ir.2 p)) df values)
  else None.

(** [np.asarray(df.prob)] and [np.asarray(df.label)]. *)
Definition prob_column (df : DataFrame) : option (list float) :=
  mapM (λ ir, Row.prob ir.2) df.
Definition label_column (df : DataFrame) : list Z :=
  (λ ir, Row.label ir.2) <$> df.

(** [df.loc[index]] selects by index label.  A label no row carries is a
  KeyError; the flow only uses [loc] on frames whose labels are unique,
  and a label carried by several rows is outside this model. *)
Definition loc (df : DataFrame) (index : Z) : option Row.t :=
  match filter (λ ir, ir.1 = index) df with
  | [ir] => Some ir.2
  | _ => None
  end.

(** [df.loc[index, 'label'] = l]. *)
Definition loc_set_label (df : DataFrame) (index : Z) (l : Z) : DataFrame :=
  (λ ir, if decide (ir.1 = index) then (ir.1, Row.set_label ir.2 l) else ir)
    <$> df.

(** [df.iloc[i]] selects by position; a negative position counts from the
  end, anything else out of range is an IndexError. *)
Definition iloc (df : DataFrame) (i : Z) : option Row.t :=
  let n := Z.of_nat (length df) in
  if decide (0 ≤ i < n)%Z then snd <$> df !! Z.to_nat i
  else if decide (- n ≤ i < 0)%Z then snd <$> df !! Z.to_nat (n + i)
  else None.

(** [df.iloc[lo:hi]] and [df.iloc[lo:]] for bounds that are lengths. *)
Definition iloc_slice (df : DataFrame) (lo hi : nat) : DataFrame :=
  take (hi - lo) (drop lo df).
Definition iloc_from (df : DataFrame) (lo : nat) : DataFrame :=
  drop lo df.
End pd.

(** ** numpy arrays indexed by integer arrays *)

Module np.
(** [a[idx]]: one element per index, IndexError out of range. *)
Definition take_idx {A} (a : list A) (idx : list nat) : option (list A) :=
  mapM (λ i, a !! i) idx.

(** Broadcasting a one-dimensional value to length [n]: the same length,
  or length one repeated. *)
Definition broadcast_to {A} (n : nat) (v : list A) : option (list A) :=
  if decide (length v = n) then Some v
  else match v with
       | [x] => Some (replicate n x)
       | _ => None
       end.
End np.

(** The probability array of [crossval], with a ghost counter per cell that
  records how many times the cell has been assigned. *)
Record Probs := { values : list float; writes : list nat }.

(** [np.zeros(n)] *)
Definition zeros (n : nat) : Probs :=
  {| values := replicate n Float64.zero; writes := replicate n 0 |}.

Definition write_cell (a : Probs) (iv : nat * float) : Probs :=
  {| values := <[iv.1 := iv.2]> (values a);
     writes := alter S iv.1 (writes a) |}.

(** [a[idx] = v] *)
Definition setitem (a : Probs) (idx : list nat) (v : list float)
  : option Probs :=
  v' ← np.broadcast_to (length idx) v;
  if decide (Forall (λ i, i < length (values a)) idx)
  then Some (foldl write_cell a (zip idx v'))
  else None.

(** ** sklearn's KFold without shuffling *)

(** Modelled from the spec: [KFold] is sklearn's and not under src/.  Section
  4.1 has the row indices partitioned into k disjoint contiguous blocks,
  each the test set of one fold, the other blocks together its training
  set.  The sizes of the blocks, the first [n mod k] of them one longer,
  and the ValueError for fewer samples than splits or fewer than two
  splits, are those of the library's documentation. *)
Module KFold.
Definition fold_sizes (n_splits n_samples : nat) : list nat :=
  imap (λ j sz, if decide (j < n_samples mod n_splits) then S sz else sz)
       (replicate n_splits (n_samples / n_splits)).

Fixpoint iter_test_indices (sizes : list nat) (current : nat)
  : list (list nat) :=
  match sizes with
  | [] => []
  | fold_size :: rest =>
      seq current fold_size :: iter_test_indices rest (current + fold_size)
  end.

Definition train_of (n_samples : nat) (test_index : list nat) : list nat :=
  filter (λ i, i ∉ test_index) (seq 0 n_samples).

Definition split (n_splits n_samples : nat)
  : option (list (list nat * list nat)) :=
  if decide (n_splits < 2) then None
  else if decide (n_samples < n_splits) then None
  else Some ((λ test_index, (train_of n_samples test_index, test_index))
               <$> iter_test_indices (fold_sizes n_splits n_samples) 0).
End KFold.

(** ** The label-issue detector *)

(** Modelled from the spec: [find_label_issues] is cleanlab's and not under
    src/.  Section 4.2 has it take the labels and the rows-by-2 probability
    matrix and return a sequence of row indices, those it flags, ordered by
    self-confidence (the probability the matrix gives to the row's own
    label), lowest first.  Which rows are flagged is left to the collaborator
    [issue_mask], a boolean per row.  The library's checks of its input (it
    raises on labels of a single class and on probabilities outside the unit
    interval) are not part of this: the definition gives what is returned
    when the detector returns, and is not used to conclude that it does. *)
Module cleanlab.
Fixpoint insert_by_score (x : nat * float) (l : list (nat * float))
  : list (nat * float) :=
  match l with
  | [] => [x]
  | h :: t =>
      if Float64.leb x.2 h.2 then x :: h :: t else h :: insert_by_score x t
  end.

(** [np.argsort]: the positions of [scores], by increasing score.  The order
    numpy gives to equal scores is not relied on. *)
Definition argsort (scores : list float) : list nat :=
  fst <$> foldr insert_by_score [] (imap pair scores).

Definition self_confidence (labels : list Z) (pred_probs : list (list float))
    (i : nat) : option float :=
  l ← labels !! i;
  row ← pred_probs !! i;
  if decide (0 ≤ l)%Z then row !! Z.to_nat l else None.

Definition order_label_issues (label_issues_mask : list bool)
    (labels : list Z) (pred_probs : list (list float)) : option (list nat) :=
  let label_issues_idx :=
    filter (λ i, label_issues_mask !! i = Some true) (seq 0 (length labels)) in
  scores ← mapM (self_confidence labels pred_probs) label_issues_idx;
  np.take_idx label_issues_idx (argsort scores).

Definition find_label_issues
    (issue_mask : list Z → list (list float) → list bool)
    (labels : list Z) (pred_probs : list (list float)) : option (list Z) :=
  if decide (length pred_probs = length labels) then
    match
      order_label_issues (issue_mask labels pred_probs) labels pred_probs
    with
    | Some ranked => Some (Z.of_nat <$> ranked)
    | None => None
    end
  else None.
End cleanlab.

(** ** LabelStudio pre-annotation records *)

Module LS.
Record Result := {
  choices : list string;   (* 'value': {'choices': [...]} *)
  id : string;
  from_name : string;
  to_name : string;
  type : string }.
Record Prediction := { result : list Result }.
Record Output := {
  text : string;           (* 'data': {'text': ...} *)
  predictions : list Prediction }.
End LS.

(** ** Configuration, datasets, trainer *)

(** The configuration type is declared outside the flow; these are the fields
    the flow reads. *)
Module Cfg.
Record optimizer_t := { batch_size : nat; max_epochs : nat }.
Record train_t := { ckpt_dir : string; optimizer : optimizer_t }.
Record review_t := { save_dir : string }.
Record t := { train : train_t; review : review_t }.
End Cfg.

Abbreviation Emb := (list float).

Record Dataset := { embedding : list Emb; data : DataFrame }.

Definition set_data (ds : Dataset) (df : DataFrame) : Dataset :=
  {| embedding := embedding ds; data := df |}.

Record DataModule := {
  train_dataset : Dataset;
  dev_dataset : Dataset;
  test_dataset : Dataset }.

Record ModelCheckpoint := {
  dirpath : string;
  monitor : string;
  mode : string;
  save_top_k : nat;
  verbose : bool }.

Record Trainer := {
  max_epochs : nat;
  callbacks : list ModelCheckpoint }.

Record DataLoader := {
  dataset : list (Emb * Z);    (* TensorDataset(X, y) *)
  batch_size : nat;
  shuffle : bool }.

Inductive RngLib := py_random | np_random | torch_rng.

(** What the flow imports from the rest of the repository and from its
    libraries.  [fit] and [test] return the system they have updated, or
    nothing when they raise; [predict] is the concatenated, squeezed output
    of [trainer.predict]. *)
Class Collaborators := {
  System : Type;
  Results : Type;
  load_config : string → option Cfg.t;
  ReviewDataModule : Cfg.t → DataModule;
  dataset_len : Dataset → nat;
  SentimentClassifierSystem : Cfg.t → System;
  test_results : System → Results;
  fit : Trainer → System → DataModule → option System;
  fit_loader : Trainer → System → DataLoader → option System;
  test : Trainer → System → DataModule → string → option System;
  predict : Trainer → System → DataLoader → list float;
  issue_mask : list Z → list (list float) → list bool;
  DATA_DIR : string;
  project_dir : string;    (* Path(__file__).resolve().parent.parent *)
  join : list string → string;
  dirname : string → string }.

(** ** The flow *)

Module Step.
Inductive t :=
  | start | init_system | train_test | crossval
  | inspect | review | retrain_retest | end_.
End Step.

(** A loop whose body may raise. *)
Fixpoint for_each {A S : Type} (body : S → A → option S) (s : S) (l : list A)
  : option S :=
  match l with
  | [] => Some s
  | x :: rest =>
      match body s x with
      | Some s' => for_each body s' rest
      | None => None
      end
  end.

Module TrainIdentifyReview.
Section Flow.
Context `{C : Collaborators}.

(** The artifacts a step saves on [self] for the steps after it. *)
Record FlowState := {
  config_path : string;
  dm : option DataModule;
  system : option System;
  trainer : option Trainer;
  config : option Cfg.t;
  all_df : option DataFrame;
  issues : option (list Z) }.

(** What a step does to the world outside its artifacts. *)
Inductive Event :=
  | Seed (lib : RngLib) (seed : Z)
  | LoadConfig (path : string)
  | Pprint (results : Results)
  | Print (line : string)
  | Makedirs (dir : string)
  | ResultsToJson (results : Results) (file : string)
  | OutputsToJson (outputs : list LS.Output) (file : string)
  | ToCsv (df : DataFrame) (file : string).

(** A step that does not raise leaves the artifacts, the events it caused,
    and the step it named in [self.next] (none for [end]). *)
Abbreviation StepResult := (option (FlowState * list Event * option Step.t)).

Definition start (self : FlowState) : StepResult :=
  Some (self,
        [Seed py_random 42; Seed np_random 42; Seed torch_rng 42],
        Some Step.init_system).

Definition init_system (self : FlowState) : StepResult :=
  config ← load_config (config_path self);
  let dm := ReviewDataModule config in
  let system := SentimentClassifierSystem config in
  let checkpoint_callback :=
    {| dirpath := Cfg.ckpt_dir (Cfg.train config);
       monitor := "dev_loss";
       mode := "min";
       save_top_k := 1;
       verbose := true |} in
  let trainer :=
    {| max_epochs := Cfg.max_epochs (Cfg.optimizer (Cfg.train config));
       callbacks := [checkpoint_callback] |} in
  Some ({| config_path := config_path self;
           dm := Some dm;
           system := Some system;
           trainer := Some trainer;
           config := Some config;
           all_df := all_df self;
           issues := issues self |},
        [LoadConfig (config_path self)],
        Some Step.train_test).

Definition train_test (self : FlowState) : StepResult :=
  trainer_ ← trainer self;
  system0 ← system self;
  dm_ ← dm self;
  system1 ← fit trainer_ system0 dm_;
  system2 ← test trainer_ system1 dm_ "best";
  let results := test_results system2 in
  let log_file := join [project_dir; "logs"; "pre-results.json"] in
  Some ({| config_path := config_path self;
           dm := dm self;
           system := Some system2;
           trainer := trainer self;
           config := config self;
           all_df := all_df self;
           issues := issues self |},
        [Pprint results; Makedirs (dirname log_file);
         ResultsToJson results log_file],
        Some Step.crossval).

(** One pass of the loop of [crossval], up to the predictions for the
    held-out rows.  The casts to torch tensors are left to the trainer. *)
Definition crossval_predict (cfg : Cfg.t) (X : list Emb) (y : list Z)
    (fold : list nat * list nat) : option (list float) :=
  let '(train_index, test_index) := fold in
  X_train ← np.take_idx X train_index;
  X_test ← np.take_idx X test_index;
  y_train ← np.take_idx y train_index;
  y_test ← np.take_idx y test_index;
  let ds_train := zip X_train y_train in
  let ds_test := zip X_test y_test in
  let dl_train :=
    {| dataset := ds_train;
       batch_size := Cfg.batch_size (Cfg.optimizer (Cfg.train cfg));
       shuffle := true |} in
  let dl_test :=
    {| dataset := ds_test;
       batch_size := Cfg.batch_size (Cfg.optimizer (Cfg.train cfg));
       shuffle := false |} in
  let system := SentimentClassifierSystem cfg in
  let trainer :=
    {| max_epochs := Cfg.max_epochs (Cfg.optimizer (Cfg.train cfg));
       callbacks := [] |} in
  system' ← fit_loader trainer system dl_train;
  Some (predict trainer system' dl_test).

Definition crossval_fold (cfg : Cfg.t) (X : list Emb) (y : list Z)
    (probs : Probs) (fold : list nat * list nat) : option Probs :=
  probs_ ← crossval_predict cfg X y fold;
  setitem probs fold.2 probs_.

(** Lines 129 to 158: the array of out-of-sample probabilities. *)
Definition crossval_probs (cfg : Cfg.t) (X : list Emb) (y : list Z)
  : option Probs :=
  folds ← KFold.split 3 (length X);
  for_each (crossval_fold cfg X y) (zeros (length X)) folds.

Definition crossval (self : FlowState) : StepResult :=
  dm_ ← dm self;
  let X := embedding (train_dataset dm_) ++ embedding (dev_dataset dm_)
           ++ embedding (test_dataset dm_) in
  let y := pd.label_column (data (train_dataset dm_))
           ++ pd.label_column (data (dev_dataset dm_))
           ++ pd.label_column (data (test_dataset dm_)) in
  cfg ← config self;
  probs ← crossval_probs cfg X y;
  let all_df0 := pd.reset_index (pd.concat [data (train_dataset dm_);
                                            data (dev_dataset dm_);
                                            data (test_dataset dm_)]) in
  all_df1 ← pd.set_prob_column all_df0 (values probs);
  Some ({| config_path := config_path self;
           dm := dm self;
           system := system self;
           trainer := trainer self;
           config := config self;
           all_df := Some all_df1;
           issues := issues self |},
        [ToCsv all_df1 (join [DATA_DIR; "prob.csv"])],
        Some Step.inspect).

(** [np.stack([1 - prob, prob]).T] *)
Definition prob_matrix (prob : list float) : list (list float) :=
  (λ p, [Float64.sub Float64.one p; p]) <$> prob.

(** One pass of the loop that overwrites the labels: lines 194 and 195. *)
Definition flip_label (df : DataFrame) (index : Z) : option DataFrame :=
  row ← pd.loc df index;
  Some (pd.loc_set_label df index (wrap64 (1 - Row.label row))).

Definition inspect (self : FlowState) : StepResult :=
  all_df0 ← all_df self;
  prob ← pd.prob_column all_df0;
  let prob := prob_matrix prob in
  ranked_label_issues ←
    cleanlab.find_label_issues issue_mask (pd.label_column all_df0) prob;
  all_df1 ← for_each flip_label all_df0 ranked_label_issues;
  Some ({| config_path := config_path self;
           dm := dm self;
           system := system self;
           trainer := trainer self;
           config := config self;
           all_df := Some all_df1;
           issues := Some ranked_label_issues |},
        [Print (pretty (length ranked_label_issues) +:+ " label issues found.")],
        Some Step.review).

(** The record [review] builds for one issue index. *)
Definition review_output (df : DataFrame) (index : Z) : option LS.Output :=
  row ← pd.iloc df index;
  Some {| LS.text := Row.review row;
          LS.predictions :=
            [ {| LS.result :=
                   [ {| LS.choices :=
                          [if decide (Row.label row = 1%Z)
                           then "Positive" else "Negative"];
                        LS.id := "data-" +:+ pretty index;
                        LS.from_name := "sentiment";
                        LS.to_name := "text";
                        LS.type := "choices" |} ] |} ] |}.

Definition review_outputs (self : FlowState) (issues : list Z)
  : option (list LS.Output) :=
  mapM (λ index, df ← all_df self; review_output df index) issues.

Definition review (self : FlowState) : StepResult :=
  issues_ ← issues self;
  outputs ← review_outputs self issues_;
  cfg ← config self;
  let preanno_path :=
    join [Cfg.save_dir (Cfg.review cfg); "pre-annotations.json"] in
  Some (self, [OutputsToJson outputs preanno_path], Some Step.retrain_retest).

(** Lines 261 to 267: the data module [retrain_retest] trains on. *)
Definition retrain_datamodule (cfg : Cfg.t) (df : DataFrame) : DataModule :=
  let dm := ReviewDataModule cfg in
  let train_size := dataset_len (train_dataset dm) in
  let dev_size := dataset_len (dev_dataset dm) in
  {| train_dataset :=
       set_data (train_dataset dm) (pd.iloc_slice df 0 train_size);
     dev_dataset :=
       set_data (dev_dataset dm)
                (pd.iloc_slice df train_size (train_size + dev_size));
     test_dataset :=
       set_data (test_dataset dm) (pd.iloc_from df (train_size + dev_size)) |}.

Definition retrain_retest (self : FlowState) : StepResult :=
  cfg ← config self;
  df ← all_df self;
  let dm := retrain_datamodule cfg df in
  let system := SentimentClassifierSystem cfg in
  let trainer :=
    {| max_epochs := Cfg.max_epochs (Cfg.optimizer (Cfg.train cfg));
       callbacks := [] |} in
  system1 ← fit trainer system dm;
  system2 ← test trainer system1 dm "best";
  let results := test_results system2 in
  let log_file := join [project_dir; "logs"; "post-results.json"] in
  Some (self,
        [Pprint results; Makedirs (dirname log_file);
         ResultsToJson results log_file],
        Some Step.end_).

Definition end_ (self : FlowState) : StepResult :=
  Some (self, [Print "done! great work!"], None).

(** ** The driver *)

Definition body (s : Step.t) : FlowState → StepResult :=
  match s with
  | Step.start => start
  | Step.init_system => init_system
  | Step.train_test => train_test
  | Step.crossval => crossval
  | Step.inspect => inspect
  | Step.review => review
  | Step.retrain_retest => retrain_retest
  | Step.end_ => end_
  end.

Inductive Outcome :=
  | Finished (final : FlowState) (steps : list Step.t) (events : list Event)
  | Raised (at_step : Step.t) (steps : list Step.t) (events : list Event)
  | OutOfFuel.

(** Runs step [s] to its end, then the step it named, and so on. [steps] and
    [events] are those of the steps already completed. *)
Fixpoint run_from (fuel : nat) (s : Step.t) (self : FlowState)
    (steps : list Step.t) (events : list Event) : Outcome :=
  match fuel with
  | 0 => OutOfFuel
  | S fuel' =>
      match body s self with
      | None => Raised s steps events
      | Some (self', evs, Some s') =>
          run_from fuel' s' self' (steps ++ [s]) (events ++ evs)
      | Some (self', evs, None) =>
          Finished self' (steps ++ [s]) (events ++ evs)
      end
  end.

Definition initial (path : string) : FlowState :=
  {| config_path := path; dm := None; system := None; trainer := None;
     config := None; all_df := None; issues := None |}.

Definition run (fuel : nat) (path : string) : Outcome :=
  run_from fuel Step.start (initial path) [] [].

End Flow.
End TrainIdentifyReview.

(** [X] and [y] as [crossval] builds them from the data module. *)
Definition combined_X (dm_ : DataModule) : list Emb :=
  embedding (train_dataset dm_) ++ embedding (dev_dataset dm_)
  ++ embedding (test_dataset dm_).

Definition combined_y (dm_ : DataModule) : list Z :=
  pd.label_column (data (train_dataset dm_))
  ++ pd.label_column (data (dev_dataset dm_))
  ++ pd.label_column (data (test_dataset dm_)).

(** * Specification side *)

(** The order of section 4.4 of the specification, to compare the steps'
    [self.next] calls with. *)
Definition linear_order : list Step.t :=
  [Step.start; Step.init_system; Step.train_test; Step.crossval;
   Step.inspect; Step.review; Step.retrain_retest; Step.end_].

Definition position (s : Step.t) : nat :=
  match s with
  | Step.start => 0 | Step.init_system => 1 | Step.train_test => 2
  | Step.crossval => 3 | Step.inspect => 4 | Step.review => 5
  | Step.retrain_retest => 6 | Step.end_ => 7
  end.

Definition linear_successor (s : Step.t) : option Step.t :=
  match s with
  | Step.start => Some Step.init_system
  | Step.init_system => Some Step.train_test
  | Step.train_test => Some Step.crossval
  | Step.crossval => Some Step.inspect
  | Step.inspect => Some Step.review
  | Step.review => Some Step.retrain_retest
  | Step.retrain_retest => Some Step.end_
  | Step.end_ => None
  end.

Section Observations.
Context `{C : Collaborators}.
Import TrainIdentifyReview.

(** [v] is what the model of the fold that holds row [i] out predicted for
    it. *)
Definition prediction_for (cfg : Cfg.t) (X : list Emb) (y : list Z)
    (folds : list (list nat * list nat)) (i : nat) (v : float) : Prop :=
  ∃ f k preds preds',
    f ∈ folds ∧ f.2 !! k = Some i ∧
    crossval_predict cfg X y f = Some preds ∧
    np.broadcast_to (length f.2) preds = Some preds' ∧
    preds' !! k = Some v.

Definition is_load (e : Event) : Prop :=
  match e with LoadConfig _ => True | _ => False end.

#[global] Instance is_load_dec e : Decision (is_load e).
Proof. destruct e; simpl; apply _. Defined.

Definition is_seed (e : Event) : Prop :=
  match e with Seed _ _ => True | _ => False end.

End Observations.

(** [np.sum] along a row: the entries added from the left. *)
Definition row_sum (row : list float) : float :=
  match row with
  | [] => Float64.zero
  | x :: rest => foldl Float64.add x rest
  end.

(** Round to nearest, ties to even, of [m / 2 ^ k]. *)
Definition rne (m k : Z) : Z :=
  (let q := m / 2 ^ k in
   let rem := m mod 2 ^ k in
   let half := 2 ^ (k - 1) in
   if rem <? half then q
   else if half <? rem then q + 1
   else if Z.even q then q else q + 1)%Z.

(** ** A small instance

    Six reviews with labels 1, 0, 1, 0, 1, 0, split three, two and one; rows
    1 and 4 are given a probability far from their label. *)
Module Toy.
Definition p_7_8 : float := S754_finite false 7881299347898368 (-53).
Definition p_3_4 : float := S754_finite false 6755399441055744 (-53).
Definition p_1_4 : float := S754_finite false 4503599627370496 (-54).
Definition p_1_16 : float := S754_finite false 4503599627370496 (-56).

Definition row (text : string) (l : Z) : Row.t := Row.mk text l None.

Definition cfg : Cfg.t :=
  {| Cfg.train := {| Cfg.ckpt_dir := "ckpt";
                     Cfg.optimizer :=
                       {| Cfg.batch_size := 2; Cfg.max_epochs := 1 |} |};
     Cfg.review := {| Cfg.save_dir := "review" |} |}.

Definition data_module : DataModule :=
  {| train_dataset :=
       {| embedding := [[p_7_8]; [p_7_8]; [p_3_4]];
          data := [(0%Z, row "a" 1); (1%Z, row "b" 0); (2%Z, row "c" 1)] |};
     dev_dataset :=
       {| embedding := [[p_1_4]; [p_1_16]];
          data := [(0%Z, row "d" 0); (1%Z, row "e" 1)] |};
     test_dataset :=
       {| embedding := [[p_1_16]];
          data := [(0%Z, row "f" 0)] |} |}.

(** A model that reads the probability off the embedding, and a detector
    that flags a row when its own label gets less than the other one. *)
Definition collaborators : Collaborators :=
  {| System := unit;
     Results := unit;
     load_config := λ _, Some cfg;
     ReviewDataModule := λ _, data_module;
     dataset_len := λ ds, length (data ds);
     SentimentClassifierSystem := λ _, ();
     test_results := λ _, ();
     fit := λ _ s _, Some s;
     fit_loader := λ _ s _, Some s;
     test := λ _ s _ _, Some s;
     predict := λ _ _ dl,
       (λ xy, default Float64.zero (head xy.1)) <$> dataset dl;
     issue_mask := λ labels pred_probs,
       zip_with (λ (l : Z) (r : list float),
                   match r !! Z.to_nat l, r !! Z.to_nat (1 - l) with
                   | Some own, Some other => SFltb own other
                   | _, _ => false
                   end) labels pred_probs;
     DATA_DIR := "data";
     project_dir := ".";
     join := String.concat "/";
     dirname := λ f, f |}.
End Toy.

Module ToyRun.
Import TrainIdentifyReview.

Definition path : string := "./config.json".

Definition X : list Emb :=
  embedding (train_dataset Toy.data_module)
  ++ embedding (dev_dataset Toy.data_module)
  ++ embedding (test_dataset Toy.data_module).

Definition y : list Z := [1; 0; 1; 0; 1; 0]%Z.

(** The artifacts after the given steps, run one after the other. *)
Definition through (steps : list Step.t)
  : @FlowState Toy.collaborators :=
  default (initial path)
    (foldl (λ st s, self ← st; r ← body s self; Some r.1.1)
           (Some (initial path)) steps).

Definition before_crossval : @FlowState Toy.collaborators :=
  Eval vm_compute in
    through [Step.start; Step.init_system; Step.train_test].

Definition before_inspect : @FlowState Toy.collaborators :=
  Eval vm_compute in
    through [Step.start; Step.init_system; Step.train_test; Step.crossval].

Definition before_review : @FlowState Toy.collaborators :=
  Eval vm_compute in
    through [Step.start; Step.init_system; Step.train_test; Step.crossval;
             Step.inspect].

Definition combined : DataFrame :=
  Eval vm_compute in default [] (all_df before_review).

Definition outcome : @Outcome Toy.collaborators :=
  Eval vm_compute in run 8 path.

Definition final : @FlowState Toy.collaborators :=
  Eval vm_compute in
    match outcome with
    | Finished final _ _ => final
    | _ => initial path
    end.
End ToyRun.

(** ** Observations on frames and records *)

(** The review texts of a frame, row by row. *)
Definition review_column (df : DataFrame) : list string :=
  (λ ir, Row.review ir.2) <$> df.

(** The [id] fields of the results the records carry, in order. *)
Definition record_ids (outputs : list LS.Output) : list string :=
  o ← outputs; p ← LS.predictions o; LS.id <$> LS.result p.

(** ** Instances on which a step raises *)

Module ToyFailures.
(** Four embeddings for three labelled rows. *)
Definition misaligned_data_module : DataModule :=
  {| train_dataset :=
       {| embedding := [[Toy.p_7_8]; [Toy.p_3_4]];
          data := [(0%Z, Toy.row "a" 1); (1%Z, Toy.row "b" 0)] |};
     dev_dataset :=
       {| embedding := [[Toy.p_1_4]];
          data := [(0%Z, Toy.row "c" 0)] |};
     test_dataset :=
       {| embedding := [[Toy.p_1_16]];
          data := [] |} |}.

(** The small instance, with a configuration file that cannot be read and
    a detector that flags no row. *)
Definition collaborators_without_config : Collaborators :=
  {| System := unit;
     Results := unit;
     load_config := λ _, None;
     ReviewDataModule := λ _, Toy.data_module;
     dataset_len := λ ds, length (data ds);
     SentimentClassifierSystem := λ _, ();
     test_results := λ _, ();
     fit := λ _ s _, Some s;
     fit_loader := λ _ s _, Some s;
     test := λ _ s _ _, Some s;
     predict := λ _ _ dl,
       (λ xy, default Float64.zero (head xy.1)) <$> dataset dl;
     issue_mask := λ labels _, (λ _, false) <$> labels;
     DATA_DIR := "data";
     project_dir := ".";
     join := String.concat "/";
     dirname := λ f, f |}.
End ToyFailures.

(** ** Instances with a trainer that predicts a constant *)

Module ToyConstant.
(** The small instance, with [p] predicted for every row. *)
Definition collaborators (p : float) : Collaborators :=
  {| System := unit;
     Results := unit;
     load_config := λ _, Some Toy.cfg;
     ReviewDataModule := λ _, Toy.data_module;
     dataset_len := λ ds, length (data ds);
     SentimentClassifierSystem := λ _, ();
     test_results := λ _, ();
     fit := λ _ s _, Some s;
     fit_loader := λ _ s _, Some s;
     test := λ _ s _ _, Some s;
     predict := λ _ _ dl, (λ _, p) <$> dataset dl;
     issue_mask := λ labels _, (λ _, false) <$> labels;
     DATA_DIR := "data";
     project_dir := ".";
     join := String.concat "/";
     dirname := λ f, f |}.

(** The artifacts [crossval] starts from. *)
Definition before_crossval (p : float)
  : @TrainIdentifyReview.FlowState (collaborators p) :=
  {| TrainIdentifyReview.config_path := "./config.json";
     TrainIdentifyReview.dm := Some Toy.data_module;
     TrainIdentifyReview.system := None;
     TrainIdentifyReview.trainer := None;
     TrainIdentifyReview.config := Some Toy.cfg;
     TrainIdentifyReview.all_df := None;
     TrainIdentifyReview.issues := None |}.
End ToyConstant.

(** * K-fold partitions and the cross-validation loop *)

Lemma sum_fold_sizes_aux (k q r : nat) :
  sum_list (imap (λ j sz, if decide (j < r) then S sz else sz) (replicate k q))
  = k * q + min r k.
Proof.
  revert r. induction k as [|k IH]; intros r; simpl.
  - lia.
  - destruct r as [|r].
    + rewrite (imap_ext _ (λ j sz, if decide (j < 0) then S sz else sz)).
      2:{ intros i x _. simpl. repeat case_decide; lia. }
      rewrite IH. case_decide; lia.
    + rewrite (imap_ext _ (λ j sz, if decide (j < r) then S sz else sz)).
      2:{ intros i x _. simpl. repeat case_decide; lia. }
      rewrite IH. case_decide; lia.
Qed.

Lemma sum_fold_sizes (k n : nat) : 0 < k → sum_list (KFold.fold_sizes k n) = n.
Proof.
  intros Hk. unfold KFold.fold_sizes. rewrite sum_fold_sizes_aux.
  pose proof (Nat.mod_upper_bound n k ltac:(lia)).
  pose proof (Nat.div_mod_eq n k). lia.
Qed.

Lemma length_fold_sizes (k n : nat) : length (KFold.fold_sizes k n) = k.
Proof. unfold KFold.fold_sizes. by rewrite length_imap, length_replicate. Qed.

Lemma join_iter_test_indices (sizes : list nat) (cur : nat) :
  mjoin (KFold.iter_test_indices sizes cur) = seq cur (sum_list sizes).
Proof.
  revert cur. induction sizes as [|s sizes IH]; intros cur; simpl; [done|].
  by rewrite IH, seq_app.
Qed.

Lemma length_iter_test_indices (sizes : list nat) (cur : nat) :
  length (KFold.iter_test_indices sizes cur) = length sizes.
Proof. revert cur. induction sizes; intros; simpl; auto. Qed.


Lemma filter_none {A} (P : A → Prop) `{∀ x, Decision (P x)} (l : list A) :
  (∀ x, x ∈ l → ¬ P x) → filter P l = [].
Proof.
  induction l as [|x l IH]; intros Hl; [done|].
  rewrite filter_cons_False by (apply Hl; left).
  apply IH. intros y Hy. apply Hl. by right.
Qed.

Lemma length_filter_split {A} (P : A → Prop) `{∀ x, Decision (P x)}
    (l : list A) :
  length (filter P l) + length (filter (λ x, ¬ P x) l) = length l.
Proof.
  induction l as [|x l IH]; [done|].
  rewrite !filter_cons. destruct (decide (P x)), (decide (¬ P x)); simpl; try lia.
  - done.
  - exfalso; auto.
Qed.

Lemma filter_ext_in {A} (P Q : A → Prop) `{∀ x, Decision (P x)}
    `{∀ x, Decision (Q x)} (l : list A) :
  (∀ x, x ∈ l → (P x ↔ Q x)) → filter P l = filter Q l.
Proof.
  induction l as [|x l IH]; intros Hl; [done|].
  assert (P x ↔ Q x) as Hx by (apply Hl; left).
  rewrite !filter_cons. rewrite IH by (intros y Hy; apply Hl; by right).
  destruct (decide (P x)), (decide (Q x)); tauto.
Qed.

Lemma length_filter_fmap {A B} (f : A → B) (P : B → Prop)
    `{∀ y, Decision (P y)} (l : list A) :
  length (filter P (f <$> l)) = length (filter (λ x, P (f x)) l).
Proof.
  induction l as [|x l IH]; [done|].
  rewrite fmap_cons, !filter_cons. destruct (decide (P (f x))); simpl; lia.
Qed.

(** In a list of lists whose concatenation has no duplicates, an element of
    the concatenation belongs to exactly one of the lists. *)
Lemma count_member_join (L : list (list nat)) (i : nat) :
  NoDup (mjoin L) → i ∈ mjoin L → length (filter (λ t, i ∈ t) L) = 1.
Proof.
  induction L as [|t L IH]; simpl; intros Hnd Hi.
  - by apply elem_of_nil in Hi.
  - apply NoDup_app in Hnd as (Ht & Hdisj & HL).
    destruct (decide (i ∈ t)) as [Hit|Hit].
    + rewrite filter_cons_True by done. simpl. f_equal.
      rewrite filter_none; [done|].
      intros t' Ht' Hit'. apply (Hdisj i Hit).
      apply list_elem_of_join. eauto.
    + rewrite filter_cons_False by done. apply IH; [done|].
      apply elem_of_app in Hi as [?|?]; done.
Qed.

Lemma disjoint_members_join (L : list (list nat)) (a b : nat) (ta tb : list nat) :
  NoDup (mjoin L) → a ≠ b → L !! a = Some ta → L !! b = Some tb →
  ∀ i, i ∈ ta → i ∉ tb.
Proof.
  revert a b. induction L as [|t L IH]; intros a b Hnd Hab Ha Hb i Hia Hib.
  - done.
  - simpl in Hnd. apply NoDup_app in Hnd as (Ht & Hdisj & HL).
    destruct a as [|a], b as [|b]; simplify_eq/=.
    + apply (Hdisj i Hia). apply list_elem_of_join.
      exists tb. split; [done|]. by eapply list_elem_of_lookup_2.
    + apply (Hdisj i Hib). apply list_elem_of_join.
      exists ta. split; [done|]. by eapply list_elem_of_lookup_2.
    + eapply (IH a b); eauto.
Qed.

Lemma elem_of_train_of (n : nat) (test_index : list nat) (i : nat) :
  i ∈ KFold.train_of n test_index ↔ i < n ∧ i ∉ test_index.
Proof.
  unfold KFold.train_of. rewrite list_elem_of_filter, elem_of_seq. 
  split; intros; destruct_and?; repeat split; auto; lia.
Qed.

Lemma KFold_split_spec (n_splits n : nat) :
  2 ≤ n_splits ≤ n →
  ∃ folds,
    KFold.split n_splits n = Some folds ∧
    length folds = n_splits ∧
    mjoin (snd <$> folds) = seq 0 n ∧
    (∀ i, i < n ↔ ∃ f, f ∈ folds ∧ i ∈ f.2) ∧
    (∀ a b fa fb, a ≠ b → folds !! a = Some fa → folds !! b = Some fb →
                  ∀ i, i ∈ fa.2 → i ∉ fb.2) ∧
    (∀ f i, f ∈ folds → (i ∈ f.1 ↔ i < n ∧ i ∉ f.2)) ∧
    (∀ i, i < n →
          length (filter (λ f, i ∈ f.2) folds) = 1 ∧
          length (filter (λ f, i ∈ f.1) folds) = n_splits - 1).
Proof.
  intros [Hk Hn]. eexists. split.
  { unfold KFold.split. rewrite !decide_False by lia. reflexivity. }
  set (tests := KFold.iter_test_indices (KFold.fold_sizes n_splits n) 0).
  set (folds := (λ t, (KFold.train_of n t, t)) <$> tests).
  assert (Hsnd : snd <$> folds = tests).
  { unfold folds. rewrite <- list_fmap_compose. apply list_fmap_id. }
  assert (Hjoin : mjoin tests = seq 0 n).
  { unfold tests. rewrite join_iter_test_indices, sum_fold_sizes by lia. done. }
  assert (Hlen : length folds = n_splits).
  { unfold folds, tests.
    by rewrite length_fmap, length_iter_test_indices, length_fold_sizes. }
  assert (Hnd : NoDup (mjoin tests)) by (rewrite Hjoin; apply NoDup_seq).
  assert (Htrain : ∀ f i, f ∈ folds → (i ∈ f.1 ↔ i < n ∧ i ∉ f.2)).
  { intros f i Hf. apply list_elem_of_fmap in Hf as (t & -> & _). simpl.
    apply elem_of_train_of. }
  assert (Htest1 : ∀ i, i < n → length (filter (λ f, i ∈ f.2) folds) = 1).
  { intros i Hi.
    rewrite <- (length_filter_fmap snd (λ t, i ∈ t)), Hsnd.
    apply count_member_join; [done|].
    rewrite Hjoin. apply elem_of_seq. lia. }
  split_and!; try done.
  - by rewrite Hsnd.
  - intros i. split.
    + intros Hi.
      assert (i ∈ mjoin tests) as Hin by (rewrite Hjoin; apply elem_of_seq; lia).
      apply list_elem_of_join in Hin as (t & Hit & Ht).
      exists (KFold.train_of n t, t). split; [|done].
      unfold folds. by apply list_elem_of_fmap_2' with t.
    + intros (f & Hf & Hi).
      assert (i ∈ mjoin tests) as Hin.
      { apply list_elem_of_join. exists f.2. split; [done|].
        rewrite <- Hsnd. by apply list_elem_of_fmap_2. }
      rewrite Hjoin in Hin. apply elem_of_seq in Hin. lia.
  - intros a b fa fb Hab Ha Hb.
    apply (disjoint_members_join tests a b); try done.
    + rewrite <- Hsnd, list_lookup_fmap, Ha. done.
    + rewrite <- Hsnd, list_lookup_fmap, Hb. done.
  - intros i Hi. split; [by apply Htest1|].
    pose proof (length_filter_split (λ f : list nat * list nat, i ∈ f.2) folds)
      as Hs.
    rewrite Htest1, Hlen in Hs by done.
    rewrite (filter_ext_in _ (λ f : list nat * list nat, ¬ i ∈ f.2)).
    + lia.
    + intros f Hf. rewrite (Htrain f i Hf). tauto.
Qed.

Lemma length_values_foldl_write (ivs : list (nat * float)) (a : Probs) :
  length (values (foldl write_cell a ivs)) = length (values a).
Proof.
  revert a. induction ivs as [|iv ivs IH]; intros a; simpl; [done|].
  rewrite IH. simpl. apply length_insert.
Qed.

Lemma length_writes_foldl_write (ivs : list (nat * float)) (a : Probs) :
  length (writes (foldl write_cell a ivs)) = length (writes a).
Proof.
  revert a. induction ivs as [|iv ivs IH]; intros a; simpl; [done|].
  rewrite IH. simpl. apply length_alter.
Qed.

Lemma foldl_write_other (ivs : list (nat * float)) (a : Probs) (i : nat) :
  i ∉ ivs.*1 →
  values (foldl write_cell a ivs) !! i = values a !! i ∧
  writes (foldl write_cell a ivs) !! i = writes a !! i.
Proof.
  revert a. induction ivs as [|[j v] ivs IH]; intros a Hi; simpl; [done|].
  rewrite fmap_cons, not_elem_of_cons in Hi. destruct Hi as [Hij Hi].
  destruct (IH (write_cell a (j, v)) Hi) as [-> ->]. simpl.
  rewrite list_lookup_insert_ne, list_lookup_alter_ne by done. done.
Qed.

Lemma foldl_write_at (ivs : list (nat * float)) (a : Probs) (k i : nat)
    (v : float) :
  NoDup ivs.*1 → ivs !! k = Some (i, v) → i < length (values a) →
  values (foldl write_cell a ivs) !! i = Some v ∧
  writes (foldl write_cell a ivs) !! i = S <$> writes a !! i.
Proof.
  revert a k. induction ivs as [|[j w] ivs IH]; intros a k Hnd Hk Hi; [done|].
  rewrite fmap_cons in Hnd. apply NoDup_cons in Hnd as [Hj Hnd]. simpl.
  destruct k as [|k]; simplify_eq/=.
  - destruct (foldl_write_other ivs (write_cell a (i, v)) i Hj) as [-> ->].
    simpl. rewrite list_lookup_insert_eq, list_lookup_alter_eq by done. done.
  - assert (i ≠ j) as Hij.
    { intros ->. apply Hj. apply list_elem_of_fmap. exists (j, v). split; [done|].
      by eapply list_elem_of_lookup_2. }
    destruct (IH (write_cell a (j, w)) k Hnd Hk) as [-> ->].
    { simpl. by rewrite length_insert. }
    simpl. by rewrite list_lookup_alter_ne.
Qed.

Lemma length_broadcast_to {A} (n : nat) (v v' : list A) :
  np.broadcast_to n v = Some v' → length v' = n.
Proof.
  unfold np.broadcast_to. case_decide; [naive_solver|].
  destruct v as [|x [|]]; intros; simplify_eq. apply length_replicate.
Qed.

(** What one assignment [a[idx] = v] with distinct indices does to a cell. *)
Lemma setitem_spec (a a' : Probs) (idx : list nat) (v : list float) :
  setitem a idx v = Some a' → NoDup idx →
  length (values a') = length (values a) ∧
  length (writes a') = length (writes a) ∧
  (∀ i, i ∉ idx →
        values a' !! i = values a !! i ∧ writes a' !! i = writes a !! i) ∧
  (∀ k i, idx !! k = Some i →
        i < length (values a) ∧
        writes a' !! i = S <$> writes a !! i ∧
        ∃ v' x, np.broadcast_to (length idx) v = Some v' ∧
                v' !! k = Some x ∧ values a' !! i = Some x).
Proof.
  unfold setitem. intros H Hnd.
  destruct (np.broadcast_to (length idx) v) as [v'|] eqn:Hb; simplify_eq/=.
  case_decide as Hrange; simplify_eq/=.
  pose proof (length_broadcast_to _ _ _ Hb) as Hlen.
  assert ((zip idx v').*1 = idx) as Hfst by (apply fst_zip; lia).
  split_and!.
  - apply length_values_foldl_write.
  - apply length_writes_foldl_write.
  - intros i Hi. apply foldl_write_other. by rewrite Hfst.
  - intros k i Hk.
    assert (i < length (values a)) as Hi.
    { rewrite Forall_forall in Hrange. apply Hrange. by eapply list_elem_of_lookup_2. }
    destruct (lookup_lt_is_Some_2 v' k) as [x Hx].
    { rewrite Hlen. by eapply lookup_lt_Some. }
    destruct (foldl_write_at (zip idx v') a k i x) as [Hv Hw]; try done.
    { by rewrite Hfst. }
    { rewrite lookup_zip_with. rewrite Hk, Hx. done. }
    split_and!; eauto.
Qed.

Section Crossval.
Context `{C : Collaborators}.
Import TrainIdentifyReview.

Lemma prediction_for_cons cfg X y f folds i v :
  prediction_for cfg X y folds i v → prediction_for cfg X y (f :: folds) i v.
Proof.
  intros (f' & k & p & p' & Hf & ?). exists f', k, p, p'.
  split; [by right|done].
Qed.

Lemma crossval_loop cfg X y folds a a' :
  for_each (crossval_fold cfg X y) a folds = Some a' →
  NoDup (mjoin folds.*2) →
  length (values a') = length (values a) ∧
  length (writes a') = length (writes a) ∧
  (∀ i, i ∉ mjoin folds.*2 →
        values a' !! i = values a !! i ∧ writes a' !! i = writes a !! i) ∧
  (∀ i, i ∈ mjoin folds.*2 →
        i < length (values a) ∧
        writes a' !! i = S <$> writes a !! i ∧
        ∃ v, values a' !! i = Some v ∧ prediction_for cfg X y folds i v).
Proof.
  revert a. induction folds as [|f folds IH]; intros a Hrun Hnd.
  - simpl in *. simplify_eq. split_and!; try done.
    intros i Hi. by apply elem_of_nil in Hi.
  - simpl in Hrun. destruct (crossval_fold cfg X y a f) as [a1|] eqn:Hf; [|done].
    rewrite fmap_cons in *. simpl in Hnd.
    apply NoDup_app in Hnd as (Hndf & Hdisj & Hndr).
    unfold crossval_fold in Hf.
    destruct (crossval_predict cfg X y f) as [preds|] eqn:Hp; simplify_eq/=.
    destruct (setitem_spec _ _ _ _ Hf Hndf) as (Hlv & Hlw & Hoth & Hat).
    destruct (IH a1 Hrun Hndr) as (Hlv' & Hlw' & Hoth' & Hat').
    split_and!; [congruence|congruence| |].
    + intros i Hi. rewrite not_elem_of_app in Hi. destruct Hi as [Hi1 Hi2].
      destruct (Hoth' i Hi2) as [-> ->]. by apply Hoth.
    + intros i Hi. apply elem_of_app in Hi as [Hi|Hi].
      * apply list_elem_of_lookup in Hi as [k Hk].
        destruct (Hat k i Hk) as (Hlt & Hw & v' & x & Hb & Hx & Hv).
        assert (i ∉ mjoin folds.*2) as Hnot.
        { apply Hdisj. by eapply list_elem_of_lookup_2. }
        destruct (Hoth' i Hnot) as [-> ->].
        split_and!; [done|done|]. exists x. split; [done|].
        exists f, k, preds, v'. split_and!; try done. by left.
      * destruct (Hat' i Hi) as (Hlt & Hw & v & Hv & Hpred).
        assert (i ∉ f.2) as Hnot by (intros ?; by eapply Hdisj).
        destruct (Hoth i Hnot) as [Hv0 Hw0].
        split_and!; [lia|congruence|]. exists v. split; [done|].
        by apply prediction_for_cons.
Qed.

Lemma take_idx_in_range {A} (a : list A) (idx : list nat) :
  Forall (λ i, i < length a) idx →
  ∃ r, np.take_idx a idx = Some r ∧ length r = length idx.
Proof.
  intros H. unfold np.take_idx.
  destruct (mapM_is_Some_2 (λ i, a !! i) idx) as [r Hr].
  { eapply Forall_impl; [done|]. intros i Hi. by apply lookup_lt_is_Some_2. }
  exists r. split; [done|]. apply mapM_Some_1 in Hr.
  symmetry. by eapply Forall2_length.
Qed.

Lemma crossval_loop_total cfg X y folds a :
  (∀ t s dl, is_Some (fit_loader t s dl)) →
  (∀ t s dl, length (predict t s dl) = length (dataset dl)) →
  length y = length X → length (values a) = length X →
  Forall (λ f, Forall (λ i, i < length X) f.1 ∧
               Forall (λ i, i < length X) f.2) folds →
  is_Some (for_each (crossval_fold cfg X y) a folds).
Proof.
  intros Hfit Hpred Hy. revert a.
  induction folds as [|[train_index test_index] folds IH]; intros a Ha Hrange.
  - by eexists.
  - apply Forall_cons in Hrange as [[Htr Hte] Hrange]. simpl in Htr, Hte.
    simpl. unfold crossval_fold at 1. unfold crossval_predict.
    destruct (take_idx_in_range X train_index Htr) as (X_train & -> & ?).
    destruct (take_idx_in_range X test_index Hte) as (X_test & -> & HlX).
    rewrite <- Hy in Htr, Hte.
    destruct (take_idx_in_range y train_index Htr) as (y_train & -> & ?).
    destruct (take_idx_in_range y test_index Hte) as (y_test & -> & Hly).
    simpl.
    match goal with |- context [fit_loader ?t ?s ?dl] =>
      destruct (Hfit t s dl) as [system' ->] end.
    simpl. unfold setitem.
    match goal with |- context [predict ?t ?s ?dl] =>
      pose proof (Hpred t s dl) as Hlp; set (probs_ := predict t s dl) in * end.
    simpl in Hlp. rewrite length_zip_with in Hlp.
    unfold np.broadcast_to. rewrite decide_True by lia. simpl.
    rewrite decide_True by (by rewrite Ha, <- Hy).
    apply IH; [|done].
    by rewrite length_values_foldl_write.
Qed.

(** The array [crossval] fills.  Under the trainer's contract (fitting
    returns, one prediction per held-out row) and with at least three rows
    the loop runs to its end; and whenever it does, every cell has been
    assigned exactly once and holds what the model of the fold that held its
    row out predicted for it. *)
Lemma crossval_probs_spec cfg X y :
  ((∀ t s dl, is_Some (fit_loader t s dl)) →
   (∀ t s dl, length (predict t s dl) = length (dataset dl)) →
   3 ≤ length X → length y = length X →
   is_Some (crossval_probs cfg X y)) ∧
  (∀ probs, crossval_probs cfg X y = Some probs →
     ∃ folds, KFold.split 3 (length X) = Some folds ∧
       length (values probs) = length X ∧
       writes probs = replicate (length X) 1 ∧
       ∀ i, i < length X →
         ∃ v, values probs !! i = Some v ∧ prediction_for cfg X y folds i v).
Proof.
  split.
  - intros Hfit Hpred Hn Hy. unfold crossval_probs.
    destruct (KFold_split_spec 3 (length X))
      as (folds & -> & _ & Hj & _ & _ & Htr & _);
      [lia|]. simpl.
    apply crossval_loop_total; try done.
    + unfold zeros. simpl. apply length_replicate.
    + apply Forall_forall. intros f Hf. split; apply Forall_forall; intros i Hi.
      * apply (Htr f i Hf) in Hi. lia.
      * assert (i ∈ mjoin folds.*2) as Hin.
        { apply list_elem_of_join. exists f.2. split; [done|].
          by apply list_elem_of_fmap_2. }
        rewrite Hj in Hin. apply elem_of_seq in Hin. lia.
  - intros probs Hrun. unfold crossval_probs in Hrun.
    destruct (KFold.split 3 (length X)) as [folds|] eqn:Hsplit; [|done].
    simpl in Hrun. exists folds. split; [done|].
    assert (3 ≤ length X) as Hn.
    { unfold KFold.split in Hsplit. repeat case_decide; simplify_eq; lia. }
    destruct (KFold_split_spec 3 (length X)) as (folds' & Hs' & _ & Hj & _);
      [lia|]. rewrite Hsplit in Hs'. simplify_eq.
    destruct (crossval_loop _ _ _ _ _ _ Hrun) as (Hlv & Hlw & _ & Hat).
    { rewrite Hj. apply NoDup_seq. }
    unfold zeros in *. simpl in *. rewrite length_replicate in *.
    assert (∀ i, i < length X → i ∈ mjoin folds'.*2) as Hin.
    { intros i Hi. rewrite Hj. apply elem_of_seq. lia. }
    split_and!; [done| |].
    + apply list_eq. intros i. destruct (decide (i < length X)) as [Hi|Hi].
      * destruct (Hat i (Hin i Hi)) as (_ & -> & _).
        by rewrite !lookup_replicate_2.
      * rewrite length_replicate in Hlw. rewrite lookup_ge_None_2 by lia.
        symmetry. apply lookup_replicate_None. lia.
    + intros i Hi. destruct (Hat i (Hin i Hi)) as (_ & _ & v & Hv & Hp).
      by exists v.
Qed.

(** What a fold's predictions are: the output of [predict]. *)
Lemma crossval_predict_inv cfg X y fold preds :
  crossval_predict cfg X y fold = Some preds →
  ∃ t s dl, preds = predict t s dl.
Proof.
  unfold crossval_predict. destruct fold as [train_index test_index].
  intros H.
  destruct (np.take_idx X train_index); [|done]. simpl in H.
  destruct (np.take_idx X test_index); [|done]. simpl in H.
  destruct (np.take_idx y train_index); [|done]. simpl in H.
  destruct (np.take_idx y test_index); [|done]. simpl in H.
  destruct (fit_loader _ _ _); [|done]. simpl in H.
  injection H as <-. by eexists _, _, _.
Qed.

Lemma broadcast_to_elem {A} (n : nat) (v v' : list A) (x : A) :
  np.broadcast_to n v = Some v' → x ∈ v' → x ∈ v.
Proof.
  unfold np.broadcast_to. case_decide; [naive_solver|].
  destruct v as [|a [|]]; intros Hb Hx; simplify_eq.
  apply elem_of_replicate in Hx as [-> _]. by left.
Qed.

(** A stored value is one of the values [predict] returned. *)
Lemma prediction_for_predicted cfg X y folds i v :
  prediction_for cfg X y folds i v →
  ∃ t s dl, v ∈ predict t s dl.
Proof.
  intros (f & k & preds & preds' & _ & _ & Hp & Hb & Hk).
  destruct (crossval_predict_inv _ _ _ _ _ Hp) as (t & s & dl & ->).
  exists t, s, dl. eapply broadcast_to_elem; [exact Hb|].
  by eapply list_elem_of_lookup_2.
Qed.

End Crossval.

(** * The label-issue detector *)

Lemma insert_by_score_perm (x : nat * float) (l : list (nat * float)) :
  cleanlab.insert_by_score x l ≡ₚ x :: l.
Proof.
  induction l as [|h t IH]; simpl; [done|].
  destruct (Float64.leb x.2 h.2); [done|].
  rewrite IH. apply Permutation_swap.
Qed.

Lemma sort_by_score_perm (l : list (nat * float)) :
  foldr cleanlab.insert_by_score [] l ≡ₚ l.
Proof.
  induction l as [|x l IH]; simpl; [done|].
  by rewrite insert_by_score_perm, IH.
Qed.

Lemma fst_imap_pair {A} (k : nat) (l : list A) :
  (imap (λ i x, (k + i, x)) l).*1 = seq k (length l).
Proof.
  revert k. induction l as [|x l IH]; intros k; [done|].
  rewrite imap_cons, fmap_cons. simpl. f_equal; [lia|].
  rewrite <- (IH (S k)). f_equal. apply imap_ext. intros i y _. simpl.
  f_equal. lia.
Qed.

Lemma argsort_perm (scores : list float) :
  cleanlab.argsort scores ≡ₚ seq 0 (length scores).
Proof.
  unfold cleanlab.argsort. rewrite sort_by_score_perm.
  by rewrite <- (fst_imap_pair 0 scores).
Qed.

Lemma take_idx_fmap {A} `{!Inhabited A} (a : list A) (p : list nat) (r : list A) :
  np.take_idx a p = Some r → r = (λ i, a !!! i) <$> p.
Proof.
  unfold np.take_idx. intros H. apply mapM_Some_1 in H.
  induction H as [|i x p r Hi _ IH]; [done|].
  rewrite fmap_cons. f_equal; [|done].
  symmetry. by apply list_lookup_total_correct.
Qed.

Lemma fmap_lookup_total_seq {A} `{!Inhabited A} (a : list A) :
  (λ i, a !!! i) <$> seq 0 (length a) = a.
Proof.
  apply list_eq. intros i. rewrite list_lookup_fmap.
  destruct (decide (i < length a)) as [Hi|Hi].
  - rewrite lookup_seq_lt by done. simpl.
    symmetry. by apply list_lookup_lookup_total_lt.
  - rewrite lookup_seq_ge by lia. simpl. symmetry. apply lookup_ge_None. lia.
Qed.

Lemma take_idx_perm (idx p r : list nat) :
  p ≡ₚ seq 0 (length idx) → np.take_idx idx p = Some r → r ≡ₚ idx.
Proof.
  intros Hp Hr. apply take_idx_fmap in Hr. subst r.
  rewrite Hp. by rewrite fmap_lookup_total_seq.
Qed.

Lemma mapM_length {A B} (f : A → option B) (l : list A) (k : list B) :
  mapM f l = Some k → length k = length l.
Proof. intros H. apply mapM_Some_1 in H. symmetry. by eapply Forall2_length. Qed.

(** The detector's answer: distinct positions of rows of the label array. *)
Lemma find_label_issues_spec mask (labels : list Z)
    (pred_probs : list (list float)) (ranked : list Z) :
  cleanlab.find_label_issues mask labels pred_probs = Some ranked →
  NoDup ranked ∧
  Forall (λ i, 0 ≤ i < Z.of_nat (length labels))%Z ranked ∧
  ∃ flagged : list nat,
    flagged = filter (λ i, mask labels pred_probs !! i = Some true)
                     (seq 0 (length labels)) ∧
    ranked ≡ₚ Z.of_nat <$> flagged.
Proof.
  unfold cleanlab.find_label_issues, cleanlab.order_label_issues.
  case_decide; [|done].
  set (idx := filter _ (seq 0 (length labels))).
  destruct (mapM _ idx) as [scores|] eqn:Hs; simpl; [|done].
  destruct (np.take_idx idx (cleanlab.argsort scores)) as [r|] eqn:Hr; [|done].
  intros [= <-].
  assert (r ≡ₚ idx) as Hperm.
  { eapply take_idx_perm; [|done]. rewrite argsort_perm.
    by rewrite (mapM_length _ _ _ Hs). }
  assert (NoDup idx) as Hnd by (apply NoDup_filter, NoDup_seq).
  split_and!.
  - apply (NoDup_fmap_2 _). by rewrite Hperm.
  - apply Forall_fmap, Forall_forall. intros i Hi. simpl.
    rewrite Hperm in Hi. apply list_elem_of_filter in Hi as [_ Hi].
    apply elem_of_seq in Hi. lia.
  - exists idx. split; [done|]. by rewrite Hperm.
Qed.

(** * Flipping labels and writing the review records *)

Lemma wrap64_small (z : Z) : (- 2 ^ 63 ≤ z < 2 ^ 63)%Z → wrap64 z = z.
Proof. intros H. unfold wrap64. rewrite Z.mod_small; lia. Qed.

Lemma filter_fmap_stable {A} (P : A → Prop) `{∀ x, Decision (P x)}
    (f : A → A) (l : list A) :
  (∀ x, P (f x) ↔ P x) → filter P (f <$> l) = f <$> filter P l.
Proof.
  intros Hf. induction l as [|x l IH]; [done|].
  rewrite fmap_cons, !filter_cons, IH.
  pose proof (Hf x).
  destruct (decide (P (f x))), (decide (P x)); try done; tauto.
Qed.

Lemma loc_Some_inv (df : DataFrame) (index : Z) (row : Row.t) :
  pd.loc df index = Some row →
  filter (λ ir, ir.1 = index) df = [(index, row)].
Proof.
  unfold pd.loc. intros H.
  destruct (filter (λ ir : Z * Row.t, ir.1 = index) df)
    as [|[i r] [|]] eqn:Hf; try done.
  simpl in H. assert (r = row) as -> by congruence.
  assert ((i, row) ∈ filter (λ ir : Z * Row.t, ir.1 = index) df) as Hin
    by (rewrite Hf; left).
  apply list_elem_of_filter in Hin as [Hi _]. simpl in Hi. by subst.
Qed.

Lemma loc_unique (df : DataFrame) (index : Z) (row : Row.t) (ir : Z * Row.t) :
  pd.loc df index = Some row → ir ∈ df → ir.1 = index → ir = (index, row).
Proof.
  intros Hloc Hin Hi. apply loc_Some_inv in Hloc.
  assert (ir ∈ filter (λ ir : Z * Row.t, ir.1 = index) df) as H
    by (by apply list_elem_of_filter).
  rewrite Hloc in H. by apply list_elem_of_singleton in H.
Qed.

Lemma loc_after_set_label (df : DataFrame) (index l : Z) (row : Row.t) :
  pd.loc df index = Some row →
  pd.loc (pd.loc_set_label df index l) index = Some (Row.set_label row l).
Proof.
  intros Hloc. apply loc_Some_inv in Hloc. unfold pd.loc, pd.loc_set_label.
  rewrite filter_fmap_stable.
  - rewrite Hloc. simpl. by rewrite decide_True.
  - intros [i r]. simpl. by case_decide.
Qed.

Lemma set_label_restore (df : DataFrame) (index l : Z) (row : Row.t) :
  pd.loc df index = Some row →
  pd.loc_set_label (pd.loc_set_label df index l) index (Row.label row) = df.
Proof.
  intros Hloc. unfold pd.loc_set_label. rewrite <- list_fmap_compose.
  rewrite <- (list_fmap_id df) at 2. apply list_fmap_ext.
  intros k ir Hk. simpl.
  destruct (decide (ir.1 = index)) as [Hi|Hi]; simpl.
  - rewrite decide_True by done.
    rewrite (loc_unique df index row ir) by (try done; by eapply list_elem_of_lookup_2).
    simpl. by destruct row.
  - by rewrite decide_False.
Qed.

(** C4.  On a row that carries a binary label, the body of the loop at lines
    194 and 195 replaces the label by its complement, and a second pass on the
    same row gives the frame back as it was. *)
Theorem flip_label_involution (df : DataFrame) (index : Z) (row : Row.t) :
  pd.loc df index = Some row →
  Row.label row = 0%Z ∨ Row.label row = 1%Z →
  ∃ df',
    TrainIdentifyReview.flip_label df index = Some df' ∧
    pd.loc df' index = Some (Row.set_label row (1 - Row.label row)) ∧
    TrainIdentifyReview.flip_label df' index = Some df.
Proof.
  intros Hloc Hbin. unfold TrainIdentifyReview.flip_label. rewrite Hloc. simpl.
  assert (wrap64 (1 - Row.label row) = (1 - Row.label row)%Z) as ->
    by (apply wrap64_small; lia).
  eexists. split; [done|].
  pose proof (loc_after_set_label df index (1 - Row.label row) row Hloc) as H.
  rewrite H. simpl. split; [done|]. f_equal.
  assert (wrap64 (1 - (1 - Row.label row)) = Row.label row) as ->
    by (rewrite wrap64_small; lia).
  by apply set_label_restore.
Qed.

Lemma iloc_in_range (df : DataFrame) (i : Z) :
  (- Z.of_nat (length df) ≤ i < Z.of_nat (length df))%Z ↔ is_Some (pd.iloc df i).
Proof.
  unfold pd.iloc. simpl. split.
  - intros Hi. repeat case_decide; try lia;
      rewrite fmap_is_Some; apply lookup_lt_is_Some_2; lia.
  - intros [row H]. repeat case_decide; try lia. done.
Qed.

Section Review.
Context `{C : Collaborators}.
Import TrainIdentifyReview.

(** One record per issue index, in order, from the row at that position. *)
Lemma review_records (self : FlowState) (df : DataFrame)
    (issues_ : list Z) (cfg : Cfg.t) :
  all_df self = Some df → issues self = Some issues_ → config self = Some cfg →
  Forall (λ i, - Z.of_nat (length df) ≤ i < Z.of_nat (length df))%Z issues_ →
  ∃ outputs,
    review self
      = Some (self,
              [OutputsToJson outputs
                 (join [Cfg.save_dir (Cfg.review cfg); "pre-annotations.json"])],
              Some Step.retrain_retest) ∧
    length outputs = length issues_ ∧
    ∀ k index, issues_ !! k = Some index →
      ∃ row res,
        pd.iloc df index = Some row ∧
        outputs !! k = Some {| LS.text := Row.review row;
                               LS.predictions := [ {| LS.result := [res] |} ] |} ∧
        LS.id res = "data-" +:+ pretty index ∧
        (LS.choices res = ["Positive"] ↔ Row.label row = 1%Z) ∧
        (LS.choices res = ["Negative"] ↔ Row.label row ≠ 1%Z).
Proof.
  intros Hdf Hissues Hcfg Hrange.
  destruct (mapM_is_Some_2 (λ index, df ← all_df self; review_output df index) issues_)
    as [outputs Hout].
  { eapply Forall_impl; [done|]. intros i Hi. simpl. rewrite Hdf. simpl.
    apply iloc_in_range in Hi as [row Hrow]. unfold review_output.
    rewrite Hrow. by eexists. }
  exists outputs. split_and!.
  - unfold review, review_outputs. rewrite Hissues. simpl. rewrite Hout. simpl.
    rewrite Hcfg. done.
  - by eapply mapM_length.
  - intros k index Hk. apply mapM_Some_1 in Hout.
    destruct (Forall2_lookup_l _ _ _ _ _ Hout Hk) as (out & Ho & Hrec).
    rewrite Hdf in Hrec. simpl in Hrec. unfold review_output in Hrec.
    destruct (pd.iloc df index) as [row|]; simplify_eq/=.
    eexists row, _. split_and!; [done|done|done| |]; simpl;
      case_decide; split; intros; simplify_eq; done.
Qed.

End Review.

(** * The driver *)

Section Driver.
Context `{C : Collaborators}.
Import TrainIdentifyReview.

Ltac step_inv H :=
  repeat match type of H with
         | context [mbind _ ?x] =>
             let E := fresh "E" in destruct x eqn:E; simpl in H; [|discriminate H]
         end;
  injection H as <- <- <-.

Lemma body_next s self self' evs nxt :
  body s self = Some (self', evs, nxt) → nxt = linear_successor s.
Proof.
  destruct s; simpl; intros H.
  - by injection H as <- <- <-.
  - unfold init_system in H. by step_inv H.
  - unfold train_test in H. by step_inv H.
  - unfold crossval in H. by step_inv H.
  - unfold inspect in H. by step_inv H.
  - unfold review in H. by step_inv H.
  - unfold retrain_retest in H. by step_inv H.
  - by injection H as <- <- <-.
Qed.

Lemma body_keeps_config s self self' evs nxt :
  s ≠ Step.init_system → body s self = Some (self', evs, nxt) →
  config self' = config self ∧ config_path self' = config_path self ∧
  Forall (λ e, ¬ is_load e) evs.
Proof.
  intros Hs. destruct s; simpl; intros H; try done.
  - injection H as <- <- <-. repeat constructor; simpl; auto.
  - unfold train_test in H. step_inv H. repeat constructor; simpl; auto.
  - unfold crossval in H. step_inv H. repeat constructor; simpl; auto.
  - unfold inspect in H. step_inv H. repeat constructor; simpl; auto.
  - unfold review in H. step_inv H. repeat constructor; simpl; auto.
  - unfold retrain_retest in H. step_inv H. repeat constructor; simpl; auto.
  - injection H as <- <- <-. repeat constructor; simpl; auto.
Qed.

Lemma init_system_loads self self' evs nxt :
  init_system self = Some (self', evs, nxt) →
  config self' = load_config (config_path self) ∧
  config_path self' = config_path self ∧
  evs = [LoadConfig (config_path self)].
Proof.
  unfold init_system. intros H. step_inv H. simpl. split_and!; congruence.
Qed.

Lemma suffix_step s :
  drop (position s) linear_order
  = s :: match linear_successor s with
         | Some s' => drop (position s') linear_order
         | None => []
         end.
Proof. by destruct s. Qed.

Lemma run_from_steps fuel s self steps0 ev0 :
  match run_from fuel s self steps0 ev0 with
  | Finished _ steps _ => steps = steps0 ++ drop (position s) linear_order
  | Raised at_step steps _ =>
      ∃ rest, steps0 ++ drop (position s) linear_order = steps ++ at_step :: rest
  | OutOfFuel => fuel < length (drop (position s) linear_order)
  end.
Proof.
  revert s self steps0 ev0. induction fuel as [|fuel IH]; intros s self steps0 ev0.
  - simpl. destruct s; simpl; lia.
  - simpl. rewrite suffix_step.
    destruct (body s self) as [[[self' evs] nxt]|] eqn:Hb.
    + apply body_next in Hb. subst nxt.
      destruct (linear_successor s) as [s'|] eqn:Hs.
      * specialize (IH s' self' (steps0 ++ [s]) (ev0 ++ evs)).
        destruct (run_from fuel s' self' _ _).
        -- by rewrite IH, <- app_assoc.
        -- destruct IH as [rest IH]. exists rest. by rewrite <- IH, <- app_assoc.
        -- simpl. lia.
      * done.
    + by eexists.
Qed.

(** A run that reaches its end went through the eight bodies in turn, each
    on the artifacts the one before it left. *)
Lemma run_finished_inv fuel path final steps events :
  run fuel path = Finished final steps events →
  ∃ s1 s2 s3 s4 s5 s6 s7 e1 e2 e3 e4 e5 e6 e7 e8,
    start (initial path) = Some (s1, e1, Some Step.init_system) ∧
    init_system s1 = Some (s2, e2, Some Step.train_test) ∧
    train_test s2 = Some (s3, e3, Some Step.crossval) ∧
    crossval s3 = Some (s4, e4, Some Step.inspect) ∧
    inspect s4 = Some (s5, e5, Some Step.review) ∧
    review s5 = Some (s6, e6, Some Step.retrain_retest) ∧
    retrain_retest s6 = Some (s7, e7, Some Step.end_) ∧
    end_ s7 = Some (final, e8, None) ∧
    events = e1 ++ e2 ++ e3 ++ e4 ++ e5 ++ e6 ++ e7 ++ e8.
Proof.
  unfold run. intros H.
  do 8 (destruct fuel as [|fuel]; [done|];
        cbn [run_from] in H;
        match type of H with
        | context [body ?s ?st] =>
            let E := fresh "E" in
            destruct (body s st) as [[[? ?] ?]|] eqn:E; [|done];
            pose proof (body_next _ _ _ _ _ E) as ->;
            cbn [linear_successor] in H;
            cbn [body] in E
        end).
  injection H as <- <- <-.
  match goal with
  | H1 : start _ = Some (?s1, ?e1, _), H2 : init_system _ = Some (?s2, ?e2, _),
    H3 : train_test _ = Some (?s3, ?e3, _), H4 : crossval _ = Some (?s4, ?e4, _),
    H5 : inspect _ = Some (?s5, ?e5, _), H6 : review _ = Some (?s6, ?e6, _),
    H7 : retrain_retest _ = Some (?s7, ?e7, _), H8 : end_ _ = Some (_, ?e8, _)
    |- _ => exists s1, s2, s3, s4, s5, s6, s7, e1, e2, e3, e4, e5, e6, e7, e8
  end.
  split_and!; try assumption.
  by rewrite <- !app_assoc.
Qed.


(** The three generators are seeded by [start], with 42, before anything
    else is done, and the bodies of the other steps do not seed. *)
Lemma seeds_fixed_in_start :
  (∀ self, ∃ self', start self
     = Some (self', [Seed py_random 42; Seed np_random 42; Seed torch_rng 42],
             Some Step.init_system)) ∧
  (∀ s self self' evs nxt,
     s ≠ Step.start → body s self = Some (self', evs, nxt) →
     Forall (λ e, ¬ is_seed e) evs) ∧
  (∀ fuel path final steps events,
     run fuel path = Finished final steps events →
     ∃ later,
       events = [Seed py_random 42; Seed np_random 42; Seed torch_rng 42]
                ++ later ∧
       Forall (λ e, ¬ is_seed e) later).
Proof.
  assert (∀ s self self' evs nxt,
            s ≠ Step.start → body s self = Some (self', evs, nxt) →
            Forall (λ e, ¬ is_seed e) evs) as Hbody.
  { intros s self self' evs nxt Hs. destruct s; simpl; intros H; try done.
    - unfold init_system in H. step_inv H. repeat constructor; simpl; auto.
    - unfold train_test in H. step_inv H. repeat constructor; simpl; auto.
    - unfold crossval in H. step_inv H. repeat constructor; simpl; auto.
    - unfold inspect in H. step_inv H. repeat constructor; simpl; auto.
    - unfold review in H. step_inv H. repeat constructor; simpl; auto.
    - unfold retrain_retest in H. step_inv H. repeat constructor; simpl; auto.
    - injection H as <- <- <-. repeat constructor; simpl; auto. }
  split_and!.
  - intros self. by eexists.
  - exact Hbody.
  - intros fuel path final steps events H.
    apply run_finished_inv in H
      as (s1 & s2 & s3 & s4 & s5 & s6 & s7 & e1 & e2 & e3 & e4 & e5 & e6 & e7
            & e8 & H1 & H2 & H3 & H4 & H5 & H6 & H7 & H8 & ->).
    injection H1 as <- <-.
    exists (e2 ++ e3 ++ e4 ++ e5 ++ e6 ++ e7 ++ e8). split; [done|].
    rewrite !Forall_app. split_and!.
    + by apply (Hbody Step.init_system _ _ _ _ ltac:(done) H2).
    + by apply (Hbody Step.train_test _ _ _ _ ltac:(done) H3).
    + by apply (Hbody Step.crossval _ _ _ _ ltac:(done) H4).
    + by apply (Hbody Step.inspect _ _ _ _ ltac:(done) H5).
    + by apply (Hbody Step.review _ _ _ _ ltac:(done) H6).
    + by apply (Hbody Step.retrain_retest _ _ _ _ ltac:(done) H7).
    + by apply (Hbody Step.end_ _ _ _ _ ltac:(done) H8).
Qed.

(** C6.  Every body that returns names the successor the linear order gives
    its step, and [end] names none; so a run visits the steps in that order
    and no other: all eight when it finishes, an initial part of them up to
    the step that raised otherwise, each body starting from the artifacts the
    body before it returned and its events following those of the steps
    before.  Eight units of fuel are enough. *)
Theorem steps_run_in_linear_order :
  (∀ s self self' evs nxt,
     body s self = Some (self', evs, nxt) → nxt = linear_successor s) ∧
  (∀ fuel path,
     match run fuel path with
     | Finished _ steps _ => steps = linear_order
     | Raised at_step steps _ => ∃ rest, linear_order = steps ++ at_step :: rest
     | OutOfFuel => fuel < 8
     end) ∧
  (∀ fuel path final steps events,
     run fuel path = Finished final steps events →
     ∃ s1 s2 s3 s4 s5 s6 s7 e1 e2 e3 e4 e5 e6 e7 e8,
       start (initial path) = Some (s1, e1, Some Step.init_system) ∧
       init_system s1 = Some (s2, e2, Some Step.train_test) ∧
       train_test s2 = Some (s3, e3, Some Step.crossval) ∧
       crossval s3 = Some (s4, e4, Some Step.inspect) ∧
       inspect s4 = Some (s5, e5, Some Step.review) ∧
       review s5 = Some (s6, e6, Some Step.retrain_retest) ∧
       retrain_retest s6 = Some (s7, e7, Some Step.end_) ∧
       end_ s7 = Some (final, e8, None) ∧
       events = e1 ++ e2 ++ e3 ++ e4 ++ e5 ++ e6 ++ e7 ++ e8).
Proof.
  split_and!.
  - apply body_next.
  - intros fuel path. unfold run.
    pose proof (run_from_steps fuel Step.start (initial path) [] []) as H.
    destruct (run_from fuel Step.start (initial path) [] []); simpl in H; done.
  - apply run_finished_inv.
Qed.

(** C9.  [init_system] is the one step that loads the configuration; every
    other step returns the [config] artifact (and the path parameter) it was
    given and calls [load_config] not at all.  In a run that finishes, the
    load is the first thing done after the seeding of [start], it is the only
    load, and each later step starts from and leaves the record that was
    loaded. *)
Theorem config_loaded_once_then_read_only :
  (∀ s self self' evs nxt,
     s ≠ Step.init_system → body s self = Some (self', evs, nxt) →
     config self' = config self ∧ config_path self' = config_path self ∧
     Forall (λ e, ¬ is_load e) evs) ∧
  (∀ self self' evs nxt,
     init_system self = Some (self', evs, nxt) →
     config self' = load_config (config_path self) ∧
     evs = [LoadConfig (config_path self)]) ∧
  (∀ fuel path final steps events,
     run fuel path = Finished final steps events →
     ∃ cfg later s2 s3 s4 s5 s6 s7 e3 e4 e5 e6 e7 e8,
       load_config path = Some cfg ∧
       events = [Seed py_random 42; Seed np_random 42; Seed torch_rng 42;
                 LoadConfig path] ++ later ∧
       Forall (λ e, ¬ is_load e) later ∧
       train_test s2 = Some (s3, e3, Some Step.crossval) ∧
       crossval s3 = Some (s4, e4, Some Step.inspect) ∧
       inspect s4 = Some (s5, e5, Some Step.review) ∧
       review s5 = Some (s6, e6, Some Step.retrain_retest) ∧
       retrain_retest s6 = Some (s7, e7, Some Step.end_) ∧
       end_ s7 = Some (final, e8, None) ∧
       later = e3 ++ e4 ++ e5 ++ e6 ++ e7 ++ e8 ∧
       Forall (λ s, config s = Some cfg) [s2; s3; s4; s5; s6; s7; final]).
Proof.
  split_and!.
  - apply body_keeps_config.
  - intros self self' evs nxt H.
    by destruct (init_system_loads _ _ _ _ H) as (? & _ & ?).
  - intros fuel path final steps events H.
    apply run_finished_inv in H
      as (s1 & s2 & s3 & s4 & s5 & s6 & s7 & e1 & e2 & e3 & e4 & e5 & e6 & e7
            & e8 & H1 & H2 & H3 & H4 & H5 & H6 & H7 & H8 & ->).
    injection H1 as <- <-.
    destruct (init_system_loads _ _ _ _ H2) as (Hc2 & Hp2 & ->).
    simpl in Hc2.
    destruct (load_config path) as [cfg|] eqn:Hload.
    2:{ unfold init_system in H2. simpl in H2. by rewrite Hload in H2. }
    destruct (body_keeps_config Step.train_test _ _ _ _ ltac:(done) H3)
      as (Hc3 & _ & Hl3).
    destruct (body_keeps_config Step.crossval _ _ _ _ ltac:(done) H4)
      as (Hc4 & _ & Hl4).
    destruct (body_keeps_config Step.inspect _ _ _ _ ltac:(done) H5)
      as (Hc5 & _ & Hl5).
    destruct (body_keeps_config Step.review _ _ _ _ ltac:(done) H6)
      as (Hc6 & _ & Hl6).
    destruct (body_keeps_config Step.retrain_retest _ _ _ _ ltac:(done) H7)
      as (Hc7 & _ & Hl7).
    destruct (body_keeps_config Step.end_ _ _ _ _ ltac:(done) H8)
      as (Hc8 & _ & Hl8).
    exists cfg, (e3 ++ e4 ++ e5 ++ e6 ++ e7 ++ e8), s2, s3, s4, s5, s6, s7,
      e3, e4, e5, e6, e7, e8.
    split_and!; try done.
    + rewrite !Forall_app. auto 10.
    + repeat constructor; congruence.
Qed.

(** C10.  The three frames [retrain_retest] gives the new data module are
    the rows of the combined frame at positions below [train_size], from
    there to below [train_size + dev_size], and from there on: put end to
    end they are the combined frame, every position of it is read by exactly
    one of them, and when the index labels of the combined frame are distinct
    no label occurs in two of them. *)
Theorem retrain_slices_partition (cfg : Cfg.t) (df : DataFrame) :
  let dm' := retrain_datamodule cfg df in
  let train_size := dataset_len (train_dataset (ReviewDataModule cfg)) in
  let dev_size := dataset_len (dev_dataset (ReviewDataModule cfg)) in
  data (train_dataset dm') ++ data (dev_dataset dm') ++ data (test_dataset dm')
    = df ∧
  (∀ j, data (train_dataset dm') !! j
        = if decide (j < train_size) then df !! j else None) ∧
  (∀ j, data (dev_dataset dm') !! j
        = if decide (j < dev_size) then df !! (train_size + j) else None) ∧
  (∀ j, data (test_dataset dm') !! j = df !! (train_size + dev_size + j)) ∧
  (NoDup (pd.index df) →
   ∀ i, ¬ (i ∈ pd.index (data (train_dataset dm')) ∧
            i ∈ pd.index (data (dev_dataset dm'))) ∧
        ¬ (i ∈ pd.index (data (train_dataset dm')) ∧
            i ∈ pd.index (data (test_dataset dm'))) ∧
        ¬ (i ∈ pd.index (data (dev_dataset dm')) ∧
            i ∈ pd.index (data (test_dataset dm')))).
Proof.
  intros dm' a b. subst dm'. unfold retrain_datamodule. simpl.
  fold a b. unfold pd.iloc_slice, pd.iloc_from.
  rewrite Nat.sub_0_r, drop_0. replace (a + b - a) with b by lia.
  assert (take a df ++ take b (drop a df) ++ drop (a + b) df = df) as Hcat.
  { rewrite app_assoc, take_take_drop. apply take_drop. }
  split_and!.
  - done.
  - intros j. case_decide.
    + by apply lookup_take_lt.
    + apply lookup_take_ge. lia.
  - intros j. case_decide.
    + rewrite lookup_take_lt by done. apply lookup_drop.
    + apply lookup_take_ge. lia.
  - intros j. apply lookup_drop.
  - intros Hnd i. unfold pd.index in *. rewrite <- Hcat in Hnd.
    rewrite !fmap_app in Hnd.
    apply NoDup_app in Hnd as (_ & H1 & Hnd).
    apply NoDup_app in Hnd as (_ & H2 & _).
    split_and!; intros [Hi Hj].
    + apply (H1 i Hi). apply elem_of_app. by left.
    + apply (H1 i Hi). apply elem_of_app. by right.
    + by apply (H2 i Hi).
Qed.

End Driver.

(** * float64 rounding *)

Section Rounding.
Local Open Scope Z_scope.

Lemma pow2_pos (k : Z) : 0 ≤ k → 0 < 2 ^ k.
Proof. intros. apply Z.pow_pos_nonneg; lia. Qed.

Lemma iter_xO_nat (m : positive) (n : nat) :
  Zpos (Nat.iter n xO m) = Zpos m * 2 ^ Z.of_nat n.
Proof.
  induction n as [|n IH].
  - simpl. lia.
  - rewrite Nat.iter_succ, (Pos2Z.inj_xO (Nat.iter n xO m)), IH.
    rewrite Nat2Z.inj_succ, Z.pow_succ_r by lia.
    lia.
Qed.

Lemma iter_xO_mul (m d : positive) :
  Zpos (Pos.iter xO m d) = Zpos m * 2 ^ Zpos d.
Proof.
  rewrite Pos2Nat.inj_iter.
  change (Zpos (Nat.iter (Pos.to_nat d) xO m) = Zpos m * 2 ^ Zpos d).
  by rewrite iter_xO_nat, positive_nat_Z.
Qed.

Lemma shl_align_spec (m : positive) (e e' : Z) :
  shl_align m e e' =
  if decide (e' < e) then (Z.to_pos (Zpos m * 2 ^ (e - e')), e') else (m, e).
Proof.
  unfold shl_align. destruct (e' - e) as [|d|d] eqn:Hd; case_decide; try lia; try done.
  f_equal. replace (e - e') with (Zpos d) by lia.
  by rewrite <- iter_xO_mul.
Qed.

Lemma digits2_bounds (n : positive) :
  2 ^ (Zpos (digits2_pos n) - 1) ≤ Zpos n < 2 ^ Zpos (digits2_pos n).
Proof.
  induction n as [n IH|n IH|]; cbn [digits2_pos].
  - rewrite Pos2Z.inj_succ, (Pos2Z.inj_xI n).
    replace (Z.succ (Zpos (digits2_pos n)) - 1)
      with (Z.succ (Zpos (digits2_pos n) - 1)) by lia.
    rewrite !Z.pow_succ_r by lia. lia.
  - rewrite Pos2Z.inj_succ, (Pos2Z.inj_xO n).
    replace (Z.succ (Zpos (digits2_pos n)) - 1)
      with (Z.succ (Zpos (digits2_pos n) - 1)) by lia.
    rewrite !Z.pow_succ_r by lia. lia.
  - simpl. lia.
Qed.

Lemma digits2_unique (n : positive) (d : Z) :
  2 ^ (d - 1) ≤ Zpos n < 2 ^ d → Zpos (digits2_pos n) = d.
Proof.
  intros [Hlo Hhi]. pose proof (digits2_bounds n) as [Hlo' Hhi'].
  assert (0 < d).
  { destruct (Z_lt_le_dec 0 d); [done|]. 
    assert (2 ^ d ≤ 2 ^ 0)
      by (destruct (Z_lt_le_dec d 0);
          [rewrite Z.pow_neg_r by done; simpl; lia
          |apply Z.pow_le_mono_r; lia]).
    simpl in *. lia. }
  destruct (Z_lt_le_dec (Zpos (digits2_pos n)) d) as [Hlt|Hge].
  - assert (2 ^ Zpos (digits2_pos n) ≤ 2 ^ (d - 1))
      by (apply Z.pow_le_mono_r; lia).
    lia.
  - destruct (Z_lt_le_dec d (Zpos (digits2_pos n))) as [Hlt|Hge'']; [|lia].
    assert (2 ^ d ≤ 2 ^ (Zpos (digits2_pos n) - 1))
      by (apply Z.pow_le_mono_r; lia).
    lia.
Qed.

Lemma iter_pos_nat {A} (f : A → A) (n : positive) (x : A) :
  SpecFloat.iter_pos f n x = Nat.iter (Pos.to_nat n) f x.
Proof.
  revert x. induction n as [n IH|n IH|]; intros x; cbn [SpecFloat.iter_pos].
  - rewrite !IH, Pos2Nat.inj_xI.
    replace (S (2 * Pos.to_nat n))%nat
      with (Pos.to_nat n + (Pos.to_nat n + 1))%nat by lia.
    by rewrite !Nat.iter_add.
  - rewrite !IH, Pos2Nat.inj_xO.
    replace (2 * Pos.to_nat n)%nat with (Pos.to_nat n + Pos.to_nat n)%nat by lia.
    by rewrite Nat.iter_add.
  - done.
Qed.

Lemma shr_1_nonneg (m : Z) (r s : bool) :
  0 ≤ m →
  shr_1 {| shr_m := m; shr_r := r; shr_s := s |}
  = {| shr_m := m / 2; shr_r := Z.odd m; shr_s := r || s |}.
Proof.
  intros Hm. destruct m as [|[p|p|]|p]; try lia; try done; cbn [shr_1].
  - f_equal. apply (Z.div_unique _ 2 _ 1); lia.
  - f_equal. apply (Z.div_unique _ 2 _ 0); lia.
Qed.

(** [j + 1] right shifts of an exact record. *)
Lemma iter_shr_1 (m : Z) (j : nat) :
  0 ≤ m →
  Nat.iter (S j) shr_1 {| shr_m := m; shr_r := false; shr_s := false |}
  = {| shr_m := m / 2 ^ (Z.of_nat j + 1);
       shr_r := Z.testbit m (Z.of_nat j);
       shr_s := negb (m mod 2 ^ Z.of_nat j =? 0) |}.
Proof.
  intros Hm. induction j as [|j IH].
  - rewrite Nat.iter_succ. cbn [Nat.iter nat_rect].
    rewrite shr_1_nonneg by done. change (Z.of_nat 0) with 0. f_equal.
    by rewrite Z.pow_0_r, Z.mod_1_r.
  - rewrite Nat.iter_succ, IH.
    rewrite shr_1_nonneg by (apply Z.div_pos; [done|apply pow2_pos; lia]).
    rewrite Nat2Z.inj_succ. set (J := Z.of_nat j). assert (0 ≤ J) by lia.
    pose proof (pow2_pos J ltac:(lia)) as Hp.
    f_equal.
    + rewrite Z.div_div by (try apply pow2_pos; lia).
      f_equal. replace (Z.succ J + 1) with (Z.succ (J + 1)) by lia.
      rewrite Z.pow_succ_r by lia. lia.
    + rewrite (Z.testbit_odd m (Z.succ J)), Z.shiftr_div_pow2 by lia.
      by replace (Z.succ J) with (J + 1) by lia.
    + rewrite (Z.testbit_odd m J), Z.shiftr_div_pow2 by lia.
      rewrite Z.pow_succ_r by lia. rewrite (Z.mul_comm 2), Z.rem_mul_r by lia.
      rewrite Zmod_odd.
      pose proof (Z.mod_pos_bound m (2 ^ J) ltac:(lia)).
      destruct (Z.odd (m / 2 ^ J)); simpl.
      * symmetry. apply negb_true_iff, Z.eqb_neq. lia.
      * by rewrite Z.mul_0_r, Z.add_0_r.
Qed.

Lemma shr_exact (m e : Z) (k : Z) :
  0 ≤ m → 1 ≤ k →
  shr {| shr_m := m; shr_r := false; shr_s := false |} e k
  = ({| shr_m := m / 2 ^ k;
        shr_r := Z.testbit m (k - 1);
        shr_s := negb (m mod 2 ^ (k - 1) =? 0) |}, e + k).
Proof.
  intros Hm Hk. destruct k as [|k|k]; try lia. unfold shr.
  rewrite iter_pos_nat.
  destruct (Pos.to_nat k) as [|j] eqn:Hj; [lia|].
  rewrite iter_shr_1 by done.
  replace (Z.of_nat j + 1) with (Zpos k) by lia.
  replace (Z.of_nat j) with (Zpos k - 1) by lia. done.
Qed.

Lemma round_after_shift (m k : Z) :
  0 ≤ m → 1 ≤ k →
  round_nearest_even (m / 2 ^ k)
    (loc_of_shr_record
       {| shr_m := m / 2 ^ k;
          shr_r := Z.testbit m (k - 1);
          shr_s := negb (m mod 2 ^ (k - 1) =? 0) |})
  = rne m k.
Proof.
  intros Hm Hk. unfold rne.
  pose proof (pow2_pos (k - 1) ltac:(lia)) as Hh.
  assert (m mod 2 ^ k
          = m mod 2 ^ (k - 1)
            + 2 ^ (k - 1) * (if Z.odd (m / 2 ^ (k - 1)) then 1 else 0)) as Hrem.
  { replace k with (Z.succ (k - 1)) at 1 by lia.
    rewrite Z.pow_succ_r by lia.
    rewrite (Z.mul_comm 2), Z.rem_mul_r by lia. by rewrite Zmod_odd. }
  rewrite Hrem. rewrite (Z.testbit_odd m (k - 1)), Z.shiftr_div_pow2 by lia.
  pose proof (Z.mod_pos_bound m (2 ^ (k - 1)) ltac:(lia)) as Hlo.
  set (lo := m mod 2 ^ (k - 1)) in *. set (H := 2 ^ (k - 1)) in *.
  destruct (Z.odd (m / H)); destruct (Z.eqb_spec lo 0) as [Hz|Hz]; simpl.
  - rewrite Hz. replace (0 + H * 1) with H by lia.
    by rewrite !Z.ltb_irrefl.
  - destruct (Z.ltb_spec (lo + H * 1) H); [lia|].
    destruct (Z.ltb_spec H (lo + H * 1)); [done|lia].
  - destruct (Z.ltb_spec (lo + H * 0) H); [done|lia].
  - destruct (Z.ltb_spec (lo + H * 0) H); [done|lia].
Qed.

(** [rne] from any quotient and remainder. *)
Lemma rne_decomp (m k q r : Z) :
  1 ≤ k → m = q * 2 ^ k + r → 0 ≤ r < 2 ^ k →
  rne m k = if r <? 2 ^ (k - 1) then q
            else if 2 ^ (k - 1) <? r then q + 1
            else if Z.even q then q else q + 1.
Proof.
  intros Hk Hm Hr. unfold rne.
  assert (m / 2 ^ k = q) as -> by (symmetry; apply (Z.div_unique _ _ _ r); lia).
  assert (m mod 2 ^ k = r) as -> by (symmetry; apply (Z.mod_unique _ _ q); lia).
  done.
Qed.

Lemma fexp_normal (x : Z) : -1021 ≤ x → fexp 53 1024 x = x - 53.
Proof. intros. unfold fexp, emin. lia. Qed.

Lemma digits2_Z (z d : Z) :
  2 ^ (d - 1) ≤ z < 2 ^ d → 0 < z → Zpos (digits2_pos (Z.to_pos z)) = d.
Proof.
  intros Hb Hz. apply digits2_unique. by rewrite Z2Pos.id.
Qed.

Lemma rne_bounds (z k : Z) :
  1 ≤ k → 2 ^ (52 + k) ≤ z < 2 ^ (53 + k) → 2 ^ 52 ≤ rne z k ≤ 2 ^ 53.
Proof.
  intros Hk [Hlo Hhi]. rewrite !Z.pow_add_r in * by lia.
  pose proof (pow2_pos k ltac:(lia)) as HP.
  assert (2 ^ 52 ≤ z / 2 ^ k < 2 ^ 53) as Hq.
  { split.
    - apply Z.div_le_lower_bound; lia.
    - apply Z.div_lt_upper_bound; lia. }
  unfold rne.
  destruct (_ <? _); [lia|]. destruct (_ <? _); [lia|].
  destruct (Z.even _); lia.
Qed.

(** Rounding a mantissa of [53 + k] bits, [k >= 1], in the normal range. *)
Lemma binary_round_aux_rne (sx : bool) (z e k : Z) :
  1 ≤ k → 2 ^ (52 + k) ≤ z < 2 ^ (53 + k) →
  -1074 ≤ e + k → e + k + 1 ≤ 971 →
  binary_round_aux 53 1024 sx z e loc_Exact
  = if rne z k <? 2 ^ 53
    then S754_finite sx (Z.to_pos (rne z k)) (e + k)
    else S754_finite sx 4503599627370496 (e + k + 1).
Proof.
  intros Hk Hz He1 He2.
  assert (0 < z) as Hpos.
  { pose proof (pow2_pos (52 + k) ltac:(lia)). lia. }
  pose proof (rne_bounds z k Hk Hz) as HM.
  unfold binary_round_aux, shr_fexp.
  assert (Zdigits2 z = 53 + k) as ->.
  { destruct z as [|p|p]; try lia. simpl. apply digits2_unique.
    by replace (53 + k - 1) with (52 + k) by lia. }
  rewrite fexp_normal by lia.
  replace (53 + k + e - 53 - e) with k by lia.
  cbn [shr_record_of_loc]. rewrite shr_exact by lia.
  cbn [shr_m]. rewrite round_after_shift by lia.
  set (M := rne z k) in *.
  destruct (Z.ltb_spec M (2 ^ 53)) as [Hlt|Hge].
  - assert (Zdigits2 M = 53) as ->.
    { destruct M as [|p|p]; try lia. simpl. apply digits2_unique. simpl. lia. }
    rewrite fexp_normal by lia.
    replace (53 + (e + k) - 53 - (e + k)) with 0 by lia.
    cbn [shr shr_m]. destruct M as [|p|p]; try lia.
    rewrite (proj2 (Z.leb_le _ _)) by lia. done.
  - assert (M = 2 ^ 53) as -> by lia.
    change (Zdigits2 (2 ^ 53)) with 54.
    rewrite fexp_normal by lia.
    replace (54 + (e + k) - 53 - (e + k)) with 1 by lia.
    change (2 ^ 53) with 9007199254740992.
    cbn. by rewrite (proj2 (Z.leb_le _ _)) by lia.
Qed.

Lemma binary_round_aux_noshift (sx : bool) (z e : Z) :
  0 < z → fexp 53 1024 (Zdigits2 z + e) ≤ e → e ≤ 971 →
  binary_round_aux 53 1024 sx z e loc_Exact = S754_finite sx (Z.to_pos z) e.
Proof.
  intros Hz Hf He. unfold binary_round_aux.
  assert (shr_fexp 53 1024 z e loc_Exact
          = ({| shr_m := z; shr_r := false; shr_s := false |}, e)) as Hshr.
  { unfold shr_fexp. cbn [shr_record_of_loc].
    destruct (fexp 53 1024 (Zdigits2 z + e) - e) eqn:Hd; try lia; done. }
  rewrite Hshr. cbn [shr_m loc_of_shr_record round_nearest_even].
  rewrite Hshr. cbn [shr_m]. destruct z; try lia.
  by rewrite (proj2 (Z.leb_le _ _)) by lia.
Qed.

Lemma binary_round_rne (sx : bool) (z e k : Z) :
  1 ≤ k → 2 ^ (52 + k) ≤ z < 2 ^ (53 + k) →
  -1074 ≤ e + k → e + k + 1 ≤ 971 →
  binary_round 53 1024 sx (Z.to_pos z) e
  = if rne z k <? 2 ^ 53
    then S754_finite sx (Z.to_pos (rne z k)) (e + k)
    else S754_finite sx 4503599627370496 (e + k + 1).
Proof.
  intros Hk Hz He1 He2.
  assert (0 < z) as Hpos.
  { pose proof (pow2_pos (52 + k) ltac:(lia)). lia. }
  unfold binary_round.
  rewrite (digits2_Z z (53 + k))
    by (try done; by replace (53 + k - 1) with (52 + k) by lia).
  rewrite fexp_normal by lia. rewrite shl_align_spec.
  rewrite decide_False by lia. rewrite Z2Pos.id by done.
  by apply binary_round_aux_rne.
Qed.

Lemma digits2_shift (z d j : Z) :
  0 ≤ j → 2 ^ (d - 1) ≤ z < 2 ^ d → 1 ≤ d →
  2 ^ (d + j - 1) ≤ z * 2 ^ j < 2 ^ (d + j).
Proof.
  intros Hj [Hlo Hhi] Hd. pose proof (pow2_pos j Hj).
  replace (d + j - 1) with (d - 1 + j) by lia.
  rewrite !Z.pow_add_r by lia. nia.
Qed.

(** A value that fits the format is only brought to canonical form. *)
Lemma binary_round_exact (sx : bool) (z e d : Z) :
  0 < z → 1 ≤ d → 2 ^ (d - 1) ≤ z < 2 ^ d →
  fexp 53 1024 (d + e) ≤ e → fexp 53 1024 (d + e) ≤ 971 →
  binary_round 53 1024 sx (Z.to_pos z) e
  = S754_finite sx (Z.to_pos (z * 2 ^ (e - fexp 53 1024 (d + e))))
                (fexp 53 1024 (d + e)).
Proof.
  intros Hz Hd Hb He He'. unfold binary_round.
  rewrite (digits2_Z z d) by done.
  set (e' := fexp 53 1024 (d + e)) in *.
  rewrite shl_align_spec. rewrite Z2Pos.id by done.
  pose proof (pow2_pos (e - e') ltac:(lia)) as Hp.
  case_decide.
  - rewrite Z2Pos.id by nia.
    apply binary_round_aux_noshift; [nia| |done].
    assert (Zdigits2 (z * 2 ^ (e - e')) = d + (e - e')) as ->.
    { assert (0 < z * 2 ^ (e - e')) by nia.
      destruct (z * 2 ^ (e - e')) as [|w|w] eqn:Hw; try lia. simpl.
      apply digits2_unique. rewrite <- Hw. apply digits2_shift; try done; lia. }
    replace (d + (e - e') + e') with (d + e) by lia. fold e'. lia.
  - assert (e' = e) as Heq by lia. rewrite Heq, Z.sub_diag, Z.mul_1_r.
    cbn beta iota. rewrite Z2Pos.id by done.
    apply binary_round_aux_noshift; [done| |lia].
    assert (Zdigits2 z = d) as ->.
    { destruct z; try lia. simpl. by apply digits2_unique. }
    fold e'. lia.
Qed.

Lemma aligned_value (m : positive) (e e' : Z) :
  e' ≤ e → Zpos (fst (shl_align m e e')) = Zpos m * 2 ^ (e - e').
Proof.
  intros He. rewrite shl_align_spec. case_decide; simpl.
  - rewrite Z2Pos.id; [done|]. pose proof (pow2_pos (e - e') ltac:(lia)). nia.
  - replace (e - e') with 0 by lia. lia.
Qed.

Lemma sub_finite (m1 m2 : positive) (e1 e2 : Z) :
  Float64.sub (S754_finite false m1 e1) (S754_finite false m2 e2)
  = binary_normalize 53 1024
      (Zpos m1 * 2 ^ (e1 - Z.min e1 e2) - Zpos m2 * 2 ^ (e2 - Z.min e1 e2))
      (Z.min e1 e2) false.
Proof.
  unfold Float64.sub, SFsub. cbn [cond_Zopp]. rewrite !aligned_value by lia. done.
Qed.

Lemma add_finite (m1 m2 : positive) (e1 e2 : Z) :
  Float64.add (S754_finite false m1 e1) (S754_finite false m2 e2)
  = binary_normalize 53 1024
      (Zpos m1 * 2 ^ (e1 - Z.min e1 e2) + Zpos m2 * 2 ^ (e2 - Z.min e1 e2))
      (Z.min e1 e2) false.
Proof.
  unfold Float64.add, SFadd. cbn [cond_Zopp]. rewrite !aligned_value by lia. done.
Qed.

Lemma binary_normalize_pos (z e : Z) :
  0 < z →
  binary_normalize 53 1024 z e false = binary_round 53 1024 false (Z.to_pos z) e.
Proof. intros Hz. destruct z; try lia. done. Qed.

Lemma pow2_52 : 2 ^ 52 = 4503599627370496.
Proof. reflexivity. Qed.

Lemma pow2_le (a b : Z) : 0 ≤ a ≤ b → 2 ^ a ≤ 2 ^ b.
Proof. intros. apply Z.pow_le_mono_r; lia. Qed.

(** The sum of an exact difference with what was taken away: [1 - p] is
    representable when [p >= 1/2]. *)
Lemma one_minus_p_plus_p_exact (m : positive) :
  2 ^ 52 ≤ Zpos m < 2 ^ 53 →
  Float64.add (Float64.sub Float64.one (S754_finite false m (-53)))
              (S754_finite false m (-53))
  = Float64.one.
Proof.
  intros Hm. unfold Float64.one. rewrite sub_finite.
  rewrite Z.min_r by lia.
  replace (-52 - -53) with 1 by lia. replace (-53 - -53) with 0 by lia.
  rewrite Z.pow_0_r, Z.pow_1_r, Z.mul_1_r.
  change (4503599627370496 * 2) with (2 ^ 53).
  set (N := 2 ^ 53 - Zpos m).
  assert (0 < N ≤ 2 ^ 52) as HN by (unfold N; lia).
  rewrite binary_normalize_pos by lia.
  pose proof (digits2_bounds (Z.to_pos N)) as Hdn.
  set (dn := Zpos (digits2_pos (Z.to_pos N))) in *.
  rewrite Z2Pos.id in Hdn by lia.
  assert (1 ≤ dn) as Hdn1 by (unfold dn; lia).
  assert (dn ≤ 53) as Hdn2.
  { destruct (Z_lt_le_dec 53 dn) as [Hgt|]; [|done].
    pose proof (pow2_le 53 (dn - 1) ltac:(lia)). lia. }
  assert (fexp 53 1024 (dn + -53) = dn - 106) as Hf
    by (rewrite fexp_normal; lia).
  rewrite (binary_round_exact false N (-53) dn); rewrite ?Hf; try done; try lia.
  rewrite add_finite. rewrite Z.min_l by lia.
  replace (dn - 106 - (dn - 106)) with 0 by lia.
  replace (-53 - (dn - 106)) with (53 - dn) by lia.
  pose proof (pow2_pos (53 - dn) ltac:(lia)) as HQ.
  set (Q := 2 ^ (53 - dn)) in *.
  rewrite Z2Pos.id by nia. rewrite Z.pow_0_r, Z.mul_1_r.
  replace (N * Q + Zpos m * Q) with (2 ^ 53 * Q) by (unfold N; lia).
  rewrite binary_normalize_pos by lia.
  assert (2 ^ (53 - dn + 1) = 2 * Q) as HQ2.
  { unfold Q. rewrite Z.pow_add_r by lia. lia. }
  rewrite (binary_round_rne false (2 ^ 53 * Q) _ (53 - dn + 1)); try lia.
  - rewrite (rne_decomp _ _ (2 ^ 52) 0) by lia.
    replace (53 - dn + 1 - 1) with (53 - dn) by lia. fold Q.
    rewrite (proj2 (Z.ltb_lt 0 Q)) by lia.
    change (2 ^ 52 <? 2 ^ 53) with true. cbn beta iota.
    f_equal. lia.
  - replace (52 + (53 - dn + 1)) with (53 + (53 - dn)) by lia.
    replace (53 + (53 - dn + 1)) with (54 + (53 - dn)) by lia.
    rewrite !Z.pow_add_r by lia. fold Q. lia.
Qed.

(** Rounding at exponent [-53 - k] a value at most half a unit in the last
    place above one. *)
Lemma round_just_above_one (z k : Z) :
  0 ≤ k → 2 ^ 53 * 2 ^ k ≤ z < 2 ^ 53 * 2 ^ k + 2 ^ k →
  binary_round 53 1024 false (Z.to_pos z) (-53 - k) = Float64.one.
Proof.
  intros Hk Hz. pose proof (pow2_pos k Hk) as HP.
  assert (2 ^ (k + 1) = 2 * 2 ^ k) as HP2 by (rewrite Z.pow_add_r; lia).
  rewrite (binary_round_rne false z _ (k + 1)); try lia.
  - rewrite (rne_decomp _ _ (2 ^ 52) (z - 2 ^ 53 * 2 ^ k)) by lia.
    replace (k + 1 - 1) with k by lia.
    rewrite (proj2 (Z.ltb_lt (z - 2 ^ 53 * 2 ^ k) (2 ^ k))) by lia.
    change (2 ^ 52 <? 2 ^ 53) with true. cbn beta iota.
    unfold Float64.one. f_equal. lia.
  - replace (52 + (k + 1)) with (53 + k) by lia.
    replace (53 + (k + 1)) with (54 + k) by lia.
    rewrite !Z.pow_add_r by lia. lia.
Qed.

(** ... and a value at most a quarter of a unit in the last place below
    one. *)
Lemma round_just_below_one (z k : Z) :
  1 ≤ k → 2 ^ 53 * 2 ^ k - 2 ^ (k - 1) ≤ z < 2 ^ 53 * 2 ^ k →
  binary_round 53 1024 false (Z.to_pos z) (-53 - k) = Float64.one.
Proof.
  intros Hk Hz. pose proof (pow2_pos (k - 1) ltac:(lia)) as HH.
  assert (2 ^ k = 2 * 2 ^ (k - 1)) as HP.
  { replace k with (Z.succ (k - 1)) at 1 by lia. by rewrite Z.pow_succ_r by lia. }
  rewrite (binary_round_rne false z _ k); try lia.
  - rewrite (rne_decomp _ _ (2 ^ 53 - 1) (z - (2 ^ 53 - 1) * 2 ^ k)) by lia.
    set (r := z - (2 ^ 53 - 1) * 2 ^ k). set (H := 2 ^ (k - 1)) in *.
    assert (H ≤ r) as Hr by (unfold r; lia).
    destruct (Z.ltb_spec r H) as [?|_]; [lia|].
    assert ((if H <? r then 2 ^ 53 - 1 + 1
             else if Z.even (2 ^ 53 - 1) then 2 ^ 53 - 1 else 2 ^ 53 - 1 + 1)
            = 2 ^ 53) as ->.
    { destruct (H <? r); [done|]. done. }
    change (2 ^ 53 <? 2 ^ 53) with false. cbn beta iota.
    unfold Float64.one. f_equal. lia.
  - rewrite !Z.pow_add_r by lia. lia.
Qed.

(** [1 - p] is rounded when [p < 1/2]; adding [p] back rounds to one. *)
Lemma one_minus_p_plus_p_rounded (m : positive) (k : Z) :
  1 ≤ k → k ≤ 1021 → Zpos m < 2 ^ 53 →
  Float64.add (Float64.sub Float64.one (S754_finite false m (-53 - k)))
              (S754_finite false m (-53 - k))
  = Float64.one.
Proof.
  intros Hk Hk' Hm.
  pose proof (pow2_pos (k - 1) ltac:(lia)) as HH.
  assert (2 ^ k = 2 * 2 ^ (k - 1)) as HP.
  { replace k with (Z.succ (k - 1)) at 1 by lia. by rewrite Z.pow_succ_r by lia. }
  assert (2 ^ (k + 1) = 2 * 2 ^ k) as HP2 by (rewrite Z.pow_add_r; lia).
  unfold Float64.one at 1. rewrite sub_finite. rewrite Z.min_r by lia.
  replace (-52 - (-53 - k)) with (k + 1) by lia.
  replace (-53 - k - (-53 - k)) with 0 by lia.
  rewrite Z.pow_0_r, Z.mul_1_r, HP2.
  replace (4503599627370496 * (2 * 2 ^ k)) with (2 ^ 53 * 2 ^ k) by lia.
  set (P := 2 ^ k) in *. set (H := 2 ^ (k - 1)) in *.
  set (N := 2 ^ 53 * P - Zpos m).
  assert (2 ^ 52 * P ≤ N < 2 ^ 53 * P) as HN by (unfold N; lia).
  rewrite binary_normalize_pos by lia.
  rewrite (binary_round_rne false N _ k); try lia.
  2:{ rewrite !Z.pow_add_r by lia. fold P. lia. }
  replace (-53 - k + k) with (-53) by lia.
  pose proof (Z.div_mod N P ltac:(lia)) as Hdm.
  pose proof (Z.mod_pos_bound N P ltac:(lia)) as Hr.
  rewrite (rne_decomp N k (N / P) (N mod P)) by (fold P; lia).
  fold H. set (q := N / P) in *. set (r := N mod P) in *.
  assert (2 ^ 52 ≤ q < 2 ^ 53) as Hq.
  { unfold q. split.
    - apply Z.div_le_lower_bound; lia.
    - apply Z.div_lt_upper_bound; lia. }
  assert (Zpos m = 2 ^ 53 * P - P * q - r) as Hmeq by (unfold N in Hdm; lia).
  set (M := if r <? H then q else if H <? r then q + 1
            else if Z.even q then q else q + 1).
  assert ((M = q ∧ r ≤ H) ∨ (M = q + 1 ∧ H ≤ r)) as HM.
  { unfold M. destruct (Z.ltb_spec r H); [left; lia|].
    destruct (Z.ltb_spec H r); [right; lia|].
    destruct (Z.even q); [left|right]; lia. }
  clearbody M.
  destruct (Z.ltb_spec M (2 ^ 53)) as [Hlt|Hge].
  - (* 1 - p rounds to a number below one *)
    rewrite add_finite. rewrite Z.min_r by lia.
    replace (-53 - (-53 - k)) with k by lia.
    replace (-53 - k - (-53 - k)) with 0 by lia.
    rewrite Z.pow_0_r, Z.mul_1_r. fold P.
    rewrite Z2Pos.id by lia.
    assert (0 < M * P + Zpos m) as Hpos by nia.
    rewrite binary_normalize_pos by done.
    destruct HM as [[-> HrH]|[-> HrH]].
    + replace (q * P + Zpos m) with (2 ^ 53 * P - r) by lia.
      destruct (decide (r = 0)) as [->|Hr0].
      * apply round_just_above_one; fold P; lia.
      * apply round_just_below_one; fold P H; lia.
    + replace ((q + 1) * P + Zpos m) with (2 ^ 53 * P + (P - r)) by lia.
      apply round_just_above_one; fold P; lia.
  - (* 1 - p rounds to one *)
    assert (M = q + 1 ∧ H ≤ r ∧ q = 2 ^ 53 - 1) as (-> & HrH & Hq') by lia.
    rewrite Hq' in Hmeq.
    change (S754_finite false 4503599627370496 (-53 + 1)) with Float64.one.
    unfold Float64.one at 1. rewrite add_finite. rewrite Z.min_r by lia.
    replace (-52 - (-53 - k)) with (k + 1) by lia.
    replace (-53 - k - (-53 - k)) with 0 by lia.
    rewrite Z.pow_0_r, Z.mul_1_r, HP2. fold P.
    rewrite binary_normalize_pos by lia.
    apply round_just_above_one; fold P; lia.
Qed.

Lemma canonical_bounds (m : positive) (e : Z) :
  fexp 53 1024 (Zpos (digits2_pos m) + e) = e →
  -1074 ≤ e ∧ Zpos m < 2 ^ 53 ∧ (-1074 < e → 2 ^ 52 ≤ Zpos m).
Proof.
  intros Hc. pose proof (digits2_bounds m) as [Hlo Hhi].
  set (d := Zpos (digits2_pos m)) in *.
  assert (1 ≤ d) by (unfold d; lia).
  unfold fexp, emin in Hc.
  assert (d ≤ 53) as Hd by lia.
  split_and!.
  - lia.
  - pose proof (pow2_le d 53 ltac:(lia)). lia.
  - intros He. assert (d = 53) as Hd' by lia. rewrite Hd' in Hlo. exact Hlo.
Qed.

Lemma leb_one_finite (m : positive) (e : Z) :
  Float64.leb (S754_finite false m e) Float64.one
  = match e ?= -52 with
    | Lt => true
    | Eq => match Pos.compare_cont Eq m 4503599627370496 with
            | Gt => false
            | _ => true
            end
    | Gt => false
    end.
Proof.
  unfold Float64.leb, SFleb, SFcompare, Float64.one.
  destruct (e ?= -52); [|done|done].
  destruct (Pos.compare_cont Eq m 4503599627370496); done.
Qed.

(** What [is_probability] says of a finite float64. *)
Lemma is_probability_finite (s : bool) (m : positive) (e : Z) :
  Float64.is_probability (S754_finite s m e) = true →
  s = false ∧ fexp 53 1024 (Zpos (digits2_pos m) + e) = e ∧
  (e < -52 ∨ (e = -52 ∧ Zpos m ≤ 4503599627370496)).
Proof.
  intros Hp. unfold Float64.is_probability in Hp.
  apply andb_true_iff in Hp as [Hp Hle1].
  apply andb_true_iff in Hp as [Hvalid Hle0].
  destruct s.
  { assert (Float64.leb Float64.zero (S754_finite true m e) = false) as E
      by reflexivity.
    rewrite E in Hle0. discriminate Hle0. }
  rewrite leb_one_finite in Hle1.
  unfold Float64.valid, valid_binary, bounded, canonical_mantissa in Hvalid.
  apply andb_true_iff in Hvalid as [Hcan _].
  apply Z.eqb_eq in Hcan.
  split_and!; [done|exact Hcan|].
  destruct (Z.compare_spec e (-52)) as [He|He|He]; [| |done].
  - right. split; [done|]. apply Pos2Z.pos_le_pos. unfold Pos.le, Pos.compare.
    by destruct (Pos.compare_cont Eq m 4503599627370496).
  - by left.
Qed.

(** For a float64 [p] with [0 <= p <= 1], the float64 sum
    [(1 - p) + p] is exactly one. *)
Lemma complement_sums_to_one (p : float) :
  Float64.is_probability p = true →
  Float64.add (Float64.sub Float64.one p) p = Float64.one.
Proof.
  intros Hp. destruct p as [s|s| |s m e].
  - by destruct s.
  - by destruct s.
  - done.
  - apply is_probability_finite in Hp as (-> & Hcan & He).
    destruct (canonical_bounds m e Hcan) as (Hemin & Hm & Hnormal).
    destruct He as [He|[-> Hle]].
    + destruct (decide (e = -53)) as [->|Hne].
      * apply one_minus_p_plus_p_exact. split; [apply Hnormal; lia|exact Hm].
      * assert (e = -53 - (-53 - e)) as Heq by lia.
        rewrite Heq. apply one_minus_p_plus_p_rounded; lia.
    + assert (m = 4503599627370496%positive) as ->.
      { apply Pos2Z.inj. specialize (Hnormal ltac:(lia)).
        rewrite pow2_52 in Hnormal. lia. }
      by vm_compute.
Qed.

End Rounding.

(** * Properties of the steps *)

(** C2.  With at least as many rows as folds, and at least two folds,
    [KFold.split] returns [n_splits] pairs of training and test indices such
    that the test lists put end to end are 0..n-1 (so their union is the
    full index set), two different folds have no test index in common, the
    training list of a fold is the indices that are not in its test list,
    and every row is in the test list of exactly one fold and in the
    training list of the [n_splits - 1] others.  [crossval] asks for three
    folds. *)
Theorem kfold_partition (n_splits n : nat) :
  2 ≤ n_splits ≤ n →
  ∃ folds,
    KFold.split n_splits n = Some folds ∧
    length folds = n_splits ∧
    mjoin (snd <$> folds) = seq 0 n ∧
    (∀ i, i < n ↔ ∃ f, f ∈ folds ∧ i ∈ f.2) ∧
    (∀ a b fa fb, a ≠ b → folds !! a = Some fa → folds !! b = Some fb →
                  ∀ i, i ∈ fa.2 → i ∉ fb.2) ∧
    (∀ f i, f ∈ folds → (i ∈ f.1 ↔ i < n ∧ i ∉ f.2)) ∧
    (∀ i, i < n →
          length (filter (λ f, i ∈ f.2) folds) = 1 ∧
          length (filter (λ f, i ∈ f.1) folds) = n_splits - 1).
Proof. apply KFold_split_spec. Qed.

Lemma flip_label_length (df df' : DataFrame) (index : Z) :
  TrainIdentifyReview.flip_label df index = Some df' → length df' = length df.
Proof.
  unfold TrainIdentifyReview.flip_label. intros H.
  destruct (pd.loc df index); simplify_eq/=.
  unfold pd.loc_set_label. apply length_fmap.
Qed.

Lemma flip_loop_length (issues_ : list Z) (df df' : DataFrame) :
  for_each TrainIdentifyReview.flip_label df issues_ = Some df' →
  length df' = length df.
Proof.
  revert df. induction issues_ as [|i issues_ IH]; intros df H; simpl in H.
  - by simplify_eq.
  - destruct (TrainIdentifyReview.flip_label df i) as [df1|] eqn:Hf; [|done].
    rewrite (IH _ H). by eapply flip_label_length.
Qed.

Lemma length_label_column (df : DataFrame) :
  length (pd.label_column df) = length df.
Proof. apply length_fmap. Qed.

Section Inspect.
Context `{C : Collaborators}.
Import TrainIdentifyReview.

(** C5.  When [inspect] returns, the list it saved as [self.issues] has no
    repeated entry and each entry is a position of a row of the combined
    frame; it is a rearrangement of the positions the detector's mask
    flagged.  It is this list the loop over the labels has gone through, and
    it is the list [review], which [inspect] names as its successor, reads
    from the artifacts. *)
Theorem inspect_issues_distinct_in_range (self self' : FlowState)
    (evs : list Event) (nxt : option Step.t) :
  inspect self = Some (self', evs, nxt) →
  ∃ df df' probs ranked,
    all_df self = Some df ∧
    pd.prob_column df = Some probs ∧
    issues self' = Some ranked ∧
    NoDup ranked ∧
    Forall (λ i, 0 ≤ i < Z.of_nat (length df))%Z ranked ∧
    ranked ≡ₚ Z.of_nat <$>
      filter (λ i, issue_mask (pd.label_column df) (prob_matrix probs) !! i
                   = Some true)
             (seq 0 (length df)) ∧
    for_each flip_label df ranked = Some df' ∧
    all_df self' = Some df' ∧
    length df' = length df ∧
    nxt = Some Step.review ∧
    review self' = (outputs ← review_outputs self' ranked;
                    cfg ← config self';
                    Some (self',
                          [OutputsToJson outputs
                             (join [Cfg.save_dir (Cfg.review cfg);
                                    "pre-annotations.json"])],
                          Some Step.retrain_retest)).
Proof.
  unfold inspect. intros H.
  destruct (all_df self) as [df|] eqn:Hdf; [|done]. simpl in H.
  destruct (pd.prob_column df) as [probs|] eqn:Hp; [|done]. simpl in H.
  destruct (cleanlab.find_label_issues issue_mask (pd.label_column df)
              (prob_matrix probs)) as [ranked|] eqn:Hr; [|done].
  simpl in H.
  destruct (for_each flip_label df ranked) as [df'|] eqn:Hflip; [|done].
  simpl in H. injection H as <- <- <-.
  destruct (find_label_issues_spec _ _ _ _ Hr)
    as (Hnd & Hrange & flagged & -> & Hperm).
  rewrite length_label_column in *.
  exists df, df', probs, ranked. split_and!; try done.
  by eapply flip_loop_length.
Qed.

End Inspect.

(** C7.  [np.stack([1 - prob, prob]).T] has one row per entry of [prob],
    the row of [p] being [1 - p] and [p]; when the entries of [prob] are
    float64 probabilities, the float64 sum of every row is exactly one. *)
Theorem prob_matrix_rows_sum_to_one (prob : list float) :
  Forall (λ p, Float64.is_probability p = true) prob →
  length (TrainIdentifyReview.prob_matrix prob) = length prob ∧
  (∀ i p, prob !! i = Some p →
          TrainIdentifyReview.prob_matrix prob !! i
          = Some [Float64.sub Float64.one p; p]) ∧
  Forall (λ row, length row = 2 ∧ row_sum row = Float64.one)
         (TrainIdentifyReview.prob_matrix prob).
Proof.
  intros Hprob. unfold TrainIdentifyReview.prob_matrix. split_and!.
  - apply length_fmap.
  - intros i p Hi. by rewrite list_lookup_fmap, Hi.
  - apply Forall_fmap. eapply Forall_impl; [exact Hprob|].
    intros p Hp. simpl. split; [done|]. by apply complement_sums_to_one.
Qed.

Section ReviewRecords.
Context `{C : Collaborators}.
Import TrainIdentifyReview.

(** C3.  With the issue positions within the frame (from either end), the
    body of [review] hands [to_json] one record per issue index, in the order
    of the issue list; the record at place [k] carries the text of the row at
    position [issues[k]] and the single choice "Positive" if that row's label
    is 1 and "Negative" if it is not. *)
Theorem review_one_record_per_issue (self : FlowState) (df : DataFrame)
    (issues_ : list Z) (cfg : Cfg.t) :
  all_df self = Some df → issues self = Some issues_ → config self = Some cfg →
  Forall (λ i, - Z.of_nat (length df) ≤ i < Z.of_nat (length df))%Z issues_ →
  ∃ outputs,
    review self
      = Some (self,
              [OutputsToJson outputs
                 (join [Cfg.save_dir (Cfg.review cfg); "pre-annotations.json"])],
              Some Step.retrain_retest) ∧
    length outputs = length issues_ ∧
    ∀ k index, issues_ !! k = Some index →
      ∃ row res,
        pd.iloc df index = Some row ∧
        outputs !! k = Some {| LS.text := Row.review row;
                               LS.predictions := [ {| LS.result := [res] |} ] |} ∧
        LS.id res = "data-" +:+ pretty index ∧
        (LS.choices res = ["Positive"] ↔ Row.label row = 1%Z) ∧
        (LS.choices res = ["Negative"] ↔ Row.label row ≠ 1%Z).
Proof. apply review_records. Qed.

End ReviewRecords.

(** Outside the unit interval the sum need not be one: for [p = 2 ^ 60],
    [1 - p] rounds to [- p] and the sum is zero. *)
Example complement_sum_outside_unit_interval :
  Float64.add (Float64.sub Float64.one (S754_finite false 4503599627370496 8))
              (S754_finite false 4503599627370496 8)
  = S754_zero false.
Proof. by vm_compute. Qed.

(** * From [crossval] to [review] *)

(** ** Frames whose index is 0..n-1 *)

Lemma index_reset_index (df : DataFrame) :
  pd.index (pd.reset_index df) = Z.of_nat <$> seq 0 (length df).
Proof.
  unfold pd.index, pd.reset_index. apply list_eq. intros i.
  rewrite !list_lookup_fmap, list_lookup_imap.
  destruct (df !! i) as [ir|] eqn:Hi; simpl.
  - rewrite lookup_seq_lt by (by eapply lookup_lt_Some). done.
  - rewrite lookup_seq_ge by (by apply lookup_ge_None). done.
Qed.

Lemma length_reset_index (df : DataFrame) :
  length (pd.reset_index df) = length df.
Proof. unfold pd.reset_index. apply length_imap. Qed.

Lemma set_prob_column_spec (df df' : DataFrame) (values : list float) :
  pd.set_prob_column df values = Some df' →
  length values = length df ∧ length df' = length df ∧
  pd.index df' = pd.index df ∧ pd.label_column df' = pd.label_column df ∧
  pd.prob_column df' = Some values.
Proof.
  unfold pd.set_prob_column. case_decide as Hlen; [|done]. intros [= <-].
  split; [done|]. revert values Hlen.
  induction df as [|[i r] df IH]; intros [|v values] Hlen; simplify_eq/=.
  - done.
  - destruct (IH values Hlen) as (Hl & Hi & Hlab & Hp).
    unfold pd.index, pd.label_column, pd.prob_column in *. simpl.
    rewrite Hl, Hi, Hlab. split_and!; try done.
    rewrite Hp. done.
Qed.

Lemma index_loc_set_label (df : DataFrame) (index l : Z) :
  pd.index (pd.loc_set_label df index l) = pd.index df.
Proof.
  unfold pd.index, pd.loc_set_label. rewrite <- list_fmap_compose.
  apply list_fmap_ext. intros i [j r] _. simpl. by case_decide.
Qed.

(** On a frame whose index is 0..n-1, selecting by label and selecting by
    position are the same thing. *)
Lemma loc_range_index_from (df : DataFrame) (k : nat) (i : nat) :
  pd.index df = Z.of_nat <$> seq k (length df) →
  filter (λ ir : Z * Row.t, ir.1 = Z.of_nat (k + i)) df
  = match df !! i with Some ir => [ir] | None => [] end.
Proof.
  revert k i. induction df as [|[j r] df IH]; intros k i Hidx; [done|].
  unfold pd.index in *. cbn [length] in Hidx.
  rewrite <- cons_seq, !fmap_cons in Hidx. injection Hidx as Hj Hidx.
  simpl in Hj.
  rewrite filter_cons. simpl. destruct i as [|i]; simpl.
  - rewrite decide_True by (subst j; f_equal; lia). f_equal.
    apply filter_none. intros [j' r'] Hin Heq. simpl in Heq.
    assert (j' ∈ (df.*1)) as Hj' by (by apply (list_elem_of_fmap_2 fst _ (j', r'))).
    rewrite Hidx in Hj'. apply list_elem_of_fmap in Hj' as (x & -> & Hx).
    apply elem_of_seq in Hx. lia.
  - rewrite decide_False by lia.
    replace (k + S i) with (S k + i) by lia. by apply IH.
Qed.

Lemma loc_iloc_range_index (df : DataFrame) (i : Z) :
  pd.index df = Z.of_nat <$> seq 0 (length df) →
  (0 ≤ i < Z.of_nat (length df))%Z →
  pd.loc df i = pd.iloc df i ∧ is_Some (pd.loc df i).
Proof.
  intros Hidx Hi. unfold pd.loc, pd.iloc. rewrite decide_True by done.
  pose proof (loc_range_index_from df 0 (Z.to_nat i) Hidx) as Hf.
  simpl in Hf. rewrite Z2Nat.id in Hf by lia. rewrite Hf.
  destruct (lookup_lt_is_Some_2 df (Z.to_nat i) ltac:(lia)) as [ir ->].
  simpl. split; [done|by eexists].
Qed.

Lemma loc_set_label_lookup (df : DataFrame) (index l : Z) (p : nat)
    (ir : Z * Row.t) :
  pd.index df = Z.of_nat <$> seq 0 (length df) →
  df !! p = Some ir →
  pd.loc_set_label df index l !! p
  = Some (if decide (Z.of_nat p = index)
          then (ir.1, Row.set_label ir.2 l) else ir).
Proof.
  intros Hidx Hp. unfold pd.loc_set_label. rewrite list_lookup_fmap, Hp. simpl.
  assert (ir.1 = Z.of_nat p) as ->.
  { assert (pd.index df !! p = Some ir.1) as H
      by (unfold pd.index; by rewrite list_lookup_fmap, Hp).
    rewrite Hidx, list_lookup_fmap in H.
    rewrite lookup_seq_lt in H by (by eapply lookup_lt_Some).
    simpl in H. congruence. }
  done.
Qed.

(** The loop over the flagged rows, on a frame whose index is 0..n-1: with
    distinct positions in range it runs to its end, and it has complemented
    the label of each flagged row once and left the other rows alone. *)
Lemma flip_loop_range_index (ranked : list Z) (df : DataFrame) :
  pd.index df = Z.of_nat <$> seq 0 (length df) →
  Forall (λ i, 0 ≤ i < Z.of_nat (length df))%Z ranked →
  NoDup ranked →
  ∃ df',
    for_each TrainIdentifyReview.flip_label df ranked = Some df' ∧
    pd.index df' = pd.index df ∧ length df' = length df ∧
    ∀ p ir, df !! p = Some ir →
      df' !! p
      = Some (if decide (Z.of_nat p ∈ ranked)
              then (ir.1, Row.set_label ir.2 (wrap64 (1 - Row.label ir.2)))
              else ir).
Proof.
  revert df. induction ranked as [|i ranked IH]; intros df Hidx Hrange Hnd.
  - exists df. by split_and!.
  - apply Forall_cons in Hrange as [Hi Hrange].
    apply NoDup_cons in Hnd as [Hnotin Hnd].
    destruct (loc_iloc_range_index df i Hidx Hi) as [Hloc [row Hrow]].
    simpl. unfold TrainIdentifyReview.flip_label at 1. rewrite Hrow. simpl.
    set (df1 := pd.loc_set_label df i (wrap64 (1 - Row.label row))).
    assert (length df1 = length df) as Hlen1 by apply length_fmap.
    assert (pd.index df1 = pd.index df) as Hidx1 by apply index_loc_set_label.
    destruct (IH df1) as (df' & Hrun & Hidx' & Hlen' & Hrows); try done.
    { by rewrite Hidx1, Hlen1. }
    { by rewrite Hlen1. }
    exists df'. split_and!; [done|congruence|congruence|].
    intros p ir Hp.
    pose proof (loc_set_label_lookup df i (wrap64 (1 - Row.label row)) p ir
                  Hidx Hp) as Hp1.
    fold df1 in Hp1. rewrite (Hrows p _ Hp1).
    destruct (decide (Z.of_nat p = i)) as [Heq|Hne].
    + subst i. rewrite decide_False by done.
      rewrite decide_True by (by left). do 3 f_equal.
      rewrite Hloc in Hrow. unfold pd.iloc in Hrow.
      rewrite decide_True in Hrow by done. rewrite Nat2Z.id, Hp in Hrow.
      simpl in Hrow. congruence.
    + destruct (decide (Z.of_nat p ∈ ranked)) as [Hin|Hnin].
      * rewrite decide_True by (by right). done.
      * rewrite decide_False; [done|]. by apply not_elem_of_cons.
Qed.

Lemma label_column_reset_index (df : DataFrame) :
  pd.label_column (pd.reset_index df) = pd.label_column df.
Proof.
  unfold pd.label_column, pd.reset_index. apply list_eq. intros i.
  rewrite !list_lookup_fmap, list_lookup_imap.
  by destruct (df !! i).
Qed.

Lemma label_column_app (df1 df2 : DataFrame) :
  pd.label_column (df1 ++ df2) = pd.label_column df1 ++ pd.label_column df2.
Proof. apply fmap_app. Qed.

Lemma argsort_in_range (scores : list float) (j : nat) :
  j ∈ cleanlab.argsort scores → j < length scores.
Proof.
  rewrite argsort_perm. intros Hj. apply elem_of_seq in Hj. lia.
Qed.

Section Stages.
Context `{C : Collaborators}.
Import TrainIdentifyReview.

(** What [crossval] leaves for [inspect]: the combined frame, indexed by
    position, with the array of the loop as its [prob] column. *)
Lemma crossval_stage (self self' : FlowState) (evs : list Event)
    (nxt : option Step.t) :
  crossval self = Some (self', evs, nxt) →
  ∃ dm_ cfg probs df,
    dm self = Some dm_ ∧ config self = Some cfg ∧
    crossval_probs cfg
      (embedding (train_dataset dm_) ++ embedding (dev_dataset dm_)
       ++ embedding (test_dataset dm_))
      (pd.label_column (data (train_dataset dm_))
       ++ pd.label_column (data (dev_dataset dm_))
       ++ pd.label_column (data (test_dataset dm_)))
    = Some probs ∧
    all_df self' = Some df ∧
    pd.prob_column df = Some (values probs) ∧
    pd.index df = Z.of_nat <$> seq 0 (length df) ∧
    pd.label_column df
    = pd.label_column (data (train_dataset dm_))
      ++ pd.label_column (data (dev_dataset dm_))
      ++ pd.label_column (data (test_dataset dm_)).
Proof.
  unfold crossval. intros H.
  destruct (dm self) as [dm_|]; [|done]. simpl in H.
  destruct (config self) as [cfg|]; [|done]. simpl in H.
  destruct (crossval_probs cfg _ _) as [probs|] eqn:Hprobs; [|done].
  simpl in H.
  destruct (pd.set_prob_column _ (values probs)) as [df|] eqn:Hset; [|done].
  simpl in H. injection H as <- <- <-.
  destruct (set_prob_column_spec _ _ _ Hset) as (_ & Hlen & Hidx & Hlab & Hp).
  exists dm_, cfg, probs, df. split_and!; try done.
  - by rewrite Hidx, index_reset_index, Hlen, length_reset_index.
  - rewrite Hlab, label_column_reset_index. unfold pd.concat. simpl.
    by rewrite app_nil_r, !label_column_app.
Qed.

(** C1, as amended.  The step [crossval], started with a data module and a
    configuration.  Under the trainer's contract (fitting returns, one
    prediction per held-out row), with at least three rows and as many
    labels as embeddings, the step returns.  Whenever it returns, the array
    [probs] it has filled (and stored as the [prob] column of the combined
    frame) has one cell per row, every cell has been assigned exactly once,
    and each holds what the model of the fold that held its row out predicted
    for it, a value [predict] returned.  A cell can therefore still hold
    zero, when zero is what was predicted; when the trainer never predicts a
    zero, no cell of the array is zero. *)
Theorem crossval_writes_each_cell_once (self : FlowState) (dm_ : DataModule)
    (cfg : Cfg.t) :
  dm self = Some dm_ → config self = Some cfg →
  ((∀ t s dl, is_Some (fit_loader t s dl)) →
   (∀ t s dl, length (predict t s dl) = length (dataset dl)) →
   3 ≤ length (combined_X dm_) →
   length (combined_y dm_) = length (combined_X dm_) →
   is_Some (crossval self)) ∧
  (∀ self' evs nxt,
     crossval self = Some (self', evs, nxt) →
     ∃ probs folds df,
       crossval_probs cfg (combined_X dm_) (combined_y dm_) = Some probs ∧
       KFold.split 3 (length (combined_X dm_)) = Some folds ∧
       length (values probs) = length (combined_X dm_) ∧
       writes probs = replicate (length (combined_X dm_)) 1 ∧
       (∀ i, i < length (combined_X dm_) →
          ∃ v, values probs !! i = Some v ∧
               prediction_for cfg (combined_X dm_) (combined_y dm_) folds i v ∧
               ∃ t s dl, v ∈ predict t s dl) ∧
       ((∀ t s dl, Forall (λ v, ∀ sign, v ≠ S754_zero sign) (predict t s dl)) →
        Forall (λ v, ∀ sign, v ≠ S754_zero sign) (values probs)) ∧
       all_df self' = Some df ∧
       pd.prob_column df = Some (values probs)).
Proof.
  intros Hdm Hcfg.
  destruct (crossval_probs_spec cfg (combined_X dm_) (combined_y dm_))
    as [Htotal Hpost].
  split.
  - intros Hfit Hpred Hn Hy.
    destruct (Htotal Hfit Hpred Hn Hy) as [probs Hprobs].
    destruct (Hpost probs Hprobs) as (folds & _ & Hlen & _).
    unfold crossval. rewrite Hdm. simpl. rewrite Hcfg. simpl.
    fold (combined_X dm_) (combined_y dm_). rewrite Hprobs. simpl.
    unfold pd.set_prob_column. rewrite decide_True; [by eexists|].
    rewrite Hlen, length_reset_index, <- Hy. unfold combined_y, pd.concat.
    unfold pd.label_column. simpl. by rewrite app_nil_r, !length_app, !length_fmap.
  - intros self' evs nxt Hrun.
    destruct (crossval_stage _ _ _ _ Hrun)
      as (dm' & cfg' & probs & df & Hdm' & Hcfg' & Hprobs & Hdf & Hcol & _).
    assert (dm' = dm_) as -> by congruence.
    assert (cfg' = cfg) as -> by congruence.
    fold (combined_X dm_) (combined_y dm_) in Hprobs.
    destruct (Hpost probs Hprobs) as (folds & Hsplit & Hlen & Hw & Hcells).
    exists probs, folds, df. split_and!; try done.
    + intros i Hi. destruct (Hcells i Hi) as (v & Hv & Hp).
      exists v. split_and!; [done|done|]. by eapply prediction_for_predicted.
    + intros Hnz. apply Forall_lookup. intros i v Hv.
      assert (i < length (combined_X dm_)) as Hi
        by (rewrite <- Hlen; by eapply lookup_lt_Some).
      destruct (Hcells i Hi) as (v' & Hv' & Hp).
      assert (v' = v) as -> by congruence.
      destruct (prediction_for_predicted _ _ _ _ _ _ Hp) as (t & s & dl & Hin).
      specialize (Hnz t s dl). rewrite Forall_forall in Hnz. by apply Hnz.
Qed.


(** What [inspect] has done when it returns. *)
Lemma inspect_returned (self self' : FlowState) (evs : list Event)
    (nxt : option Step.t) (df : DataFrame) :
  inspect self = Some (self', evs, nxt) →
  all_df self = Some df →
  ∃ ranked df',
    issues self' = Some ranked ∧ all_df self' = Some df' ∧
    config self' = config self ∧ nxt = Some Step.review ∧
    NoDup ranked ∧
    Forall (λ i, 0 ≤ i < Z.of_nat (length df))%Z ranked ∧
    length df' = length df ∧
    (pd.index df = Z.of_nat <$> seq 0 (length df) →
     ∀ p ir, df !! p = Some ir →
       df' !! p
       = Some (if decide (Z.of_nat p ∈ ranked)
               then (ir.1, Row.set_label ir.2 (wrap64 (1 - Row.label ir.2)))
               else ir)).
Proof.
  intros Hrun Hdf. unfold inspect in Hrun. rewrite Hdf in Hrun. simpl in Hrun.
  destruct (pd.prob_column df) as [probs|]; [|done]. simpl in Hrun.
  destruct (cleanlab.find_label_issues issue_mask (pd.label_column df)
              (prob_matrix probs)) as [ranked|] eqn:Hr; [|done].
  simpl in Hrun.
  destruct (for_each flip_label df ranked) as [df'|] eqn:Hflip; [|done].
  simpl in Hrun. injection Hrun as <- <- <-.
  destruct (find_label_issues_spec _ _ _ _ Hr) as (Hnd & Hrange & _).
  rewrite length_label_column in Hrange.
  exists ranked, df'. simpl. split_and!; try done.
  - by eapply flip_loop_length.
  - intros Hidx.
    destruct (flip_loop_range_index ranked df Hidx Hrange Hnd)
      as (df'' & Hflip' & _ & _ & Hrows).
    rewrite Hflip in Hflip'. by injection Hflip' as <-.
Qed.

End Stages.

Section EndToEnd.
Context `{C : Collaborators}.
Import TrainIdentifyReview.

(** X16.  [review] after [inspect], on a frame indexed by position with
    labels 0 and 1: when [inspect] returns, [review] returns too, and the
    record it writes for a flagged row carries the text of that row and the
    complement of the label the row had before [inspect]. *)
Lemma review_after_inspect (self self' : FlowState) (evs : list Event)
    (nxt : option Step.t) (df : DataFrame) (cfg : Cfg.t) :
  inspect self = Some (self', evs, nxt) →
  all_df self = Some df →
  pd.index df = Z.of_nat <$> seq 0 (length df) →
  Forall (λ l, l = 0 ∨ l = 1)%Z (pd.label_column df) →
  config self = Some cfg →
  ∃ ranked outputs,
    issues self' = Some ranked ∧
    review self'
    = Some (self',
            [OutputsToJson outputs
               (join [Cfg.save_dir (Cfg.review cfg); "pre-annotations.json"])],
            Some Step.retrain_retest) ∧
    length outputs = length ranked ∧
    ∀ k i, ranked !! k = Some i →
      ∃ ir res,
        (0 ≤ i)%Z ∧ df !! Z.to_nat i = Some ir ∧
        outputs !! k
        = Some {| LS.text := Row.review ir.2;
                  LS.predictions := [ {| LS.result := [res] |} ] |} ∧
        LS.id res = "data-" +:+ pretty i ∧
        (LS.choices res = ["Positive"] ↔ Row.label ir.2 = 0%Z) ∧
        (LS.choices res = ["Negative"] ↔ Row.label ir.2 = 1%Z).
Proof.
  intros Hinsp Hdf Hidx Hbin Hcfg.
  destruct (inspect_returned _ _ _ _ _ Hinsp Hdf)
    as (ranked & df' & Hiss & Hdf' & Hcfg' & _ & Hnd & Hrange & Hlen & Hrows).
  specialize (Hrows Hidx).
  rewrite Hcfg in Hcfg'.
  destruct (review_records self' df' ranked cfg Hdf' Hiss Hcfg')
    as (outputs & Hrev & Hlenout & Hrecs).
  { rewrite Hlen. eapply Forall_impl; [exact Hrange|]. intros i Hi.
    simpl in Hi. lia. }
  exists ranked, outputs. split_and!; try done.
  intros k i Hk.
  assert (0 ≤ i < Z.of_nat (length df))%Z as Hi.
  { rewrite Forall_forall in Hrange. apply Hrange.
    by eapply list_elem_of_lookup_2. }
  destruct (lookup_lt_is_Some_2 df (Z.to_nat i) ltac:(lia)) as [ir Hir].
  destruct (Hrecs k i Hk) as (row & res & Hrow & Hout & Hid & Hpos & Hneg).
  assert (row = Row.set_label ir.2 (wrap64 (1 - Row.label ir.2))) as ->.
  { pose proof (Hrows _ _ Hir) as Hp. rewrite Z2Nat.id in Hp by lia.
    rewrite decide_True in Hp by (by eapply list_elem_of_lookup_2).
    unfold pd.iloc in Hrow. rewrite decide_True in Hrow by lia.
    rewrite Hp in Hrow. simpl in Hrow. congruence. }
  assert (Row.label ir.2 = 0 ∨ Row.label ir.2 = 1)%Z as Hl.
  { rewrite Forall_forall in Hbin. apply Hbin. unfold pd.label_column.
    apply list_elem_of_fmap. exists ir. split; [done|].
    by eapply list_elem_of_lookup_2. }
  simpl in *. exists ir, res. split_and!; try done; try lia.
  - rewrite Hpos. destruct Hl as [-> | ->]; by vm_compute.
  - rewrite Hneg. destruct Hl as [-> | ->]; by vm_compute.
Qed.

End EndToEnd.

(** * The small instance, run *)

Section Instance.
Import TrainIdentifyReview.

(** The detector flags rows 4 and 1, the less confident first, and [inspect]
    leaves row 1 with label 1 and row 4 with label 0. *)
Example toy_issues_and_labels :
  issues ToyRun.before_review = Some [4; 1]%Z ∧
  pd.label_column ToyRun.combined = [1; 1; 1; 0; 0; 0]%Z.
Proof. split; reflexivity. Qed.

Lemma crossval_writes_each_cell_once_witness :
  ∃ self' evs nxt probs,
    crossval (ToyConstant.before_crossval Toy.p_3_4)
    = Some (self', evs, nxt) ∧
    crossval_probs (C := ToyConstant.collaborators Toy.p_3_4)
      Toy.cfg ToyRun.X ToyRun.y
    = Some probs ∧
    writes probs = replicate 6 1 ∧
    Forall (λ v, ∀ sign, v ≠ S754_zero sign) (values probs).
Proof.
  destruct (@crossval_writes_each_cell_once
              (ToyConstant.collaborators Toy.p_3_4)
              (ToyConstant.before_crossval Toy.p_3_4) Toy.data_module Toy.cfg
              eq_refl eq_refl) as [Htotal Hpost].
  destruct Htotal as [[[self' evs] nxt] Hrun].
  - intros t s dl. by eexists.
  - intros t s dl. apply length_fmap.
  - vm_compute. lia.
  - reflexivity.
  - destruct (Hpost self' evs nxt Hrun)
      as (probs & folds & df & Hp & _ & _ & Hw & _ & Hnz & _).
    exists self', evs, nxt, probs. split; [exact Hrun|].
    split; [exact Hp|]. split; [exact Hw|].
    apply Hnz. intros t s dl. apply Forall_fmap, Forall_forall.
    intros x _ sign H. discriminate H.
Defined.

(** With a trainer that predicts zero for every row, [crossval] completes,
    every cell has been assigned once, and every cell holds the zero
    [np.zeros] put there. *)
Lemma crossval_leaves_zero_cells :
  ∃ probs,
    is_Some (crossval (ToyConstant.before_crossval Float64.zero)) ∧
    crossval_probs (C := ToyConstant.collaborators Float64.zero)
      Toy.cfg ToyRun.X ToyRun.y
    = Some probs ∧
    writes probs = replicate 6 1 ∧
    values probs = values (zeros 6) ∧
    values probs !! 0 = Some Float64.zero.
Proof.
  exists {| values := replicate 6 Float64.zero; writes := replicate 6 1 |}.
  split_and!.
  - vm_compute. by eexists.
  - vm_compute. reflexivity.
  - reflexivity.
  - reflexivity.
  - reflexivity.
Qed.

Lemma kfold_partition_witness :
  2 ≤ 3 ≤ 7 ∧
  ∃ folds, KFold.split 3 7 = Some folds ∧ length folds = 3 ∧
           mjoin (snd <$> folds) = seq 0 7.
Proof.
  split; [lia|].
  destruct (kfold_partition 3 7 ltac:(lia)) as (folds & H1 & H2 & H3 & _).
  exists folds. auto.
Defined.

Lemma review_one_record_per_issue_witness :
  ∃ outputs,
    review ToyRun.before_review
    = Some (ToyRun.before_review,
            [OutputsToJson outputs "review/pre-annotations.json"],
            Some Step.retrain_retest) ∧
    length outputs = 2.
Proof.
  destruct (@review_one_record_per_issue Toy.collaborators
              ToyRun.before_review ToyRun.combined [4; 1]%Z Toy.cfg)
    as (outputs & Hrun & Hlen & _).
  - reflexivity.
  - reflexivity.
  - reflexivity.
  - repeat constructor; vm_compute; congruence.
  - exists outputs. split; [exact Hrun|exact Hlen].
Defined.

Lemma flip_label_involution_witness :
  ∃ df',
    flip_label [(0%Z, Toy.row "a" 1); (1%Z, Toy.row "b" 0)] 1 = Some df' ∧
    flip_label df' 1 = Some [(0%Z, Toy.row "a" 1); (1%Z, Toy.row "b" 0)].
Proof.
  destruct (flip_label_involution
              [(0%Z, Toy.row "a" 1); (1%Z, Toy.row "b" 0)] 1 (Toy.row "b" 0))
    as (df' & H1 & _ & H2).
  - reflexivity.
  - left. reflexivity.
  - exists df'. split; [exact H1|exact H2].
Defined.

Lemma inspect_issues_distinct_in_range_witness :
  ∃ ranked,
    inspect ToyRun.before_inspect
    = Some (ToyRun.before_review, [Print "2 label issues found."],
            Some Step.review) ∧
    issues ToyRun.before_review = Some ranked ∧ NoDup ranked.
Proof.
  assert (inspect ToyRun.before_inspect
          = Some (ToyRun.before_review, [Print "2 label issues found."],
                  Some Step.review)) as E by (vm_compute; reflexivity).
  destruct (inspect_issues_distinct_in_range _ _ _ _ E)
    as (df & df' & probs & ranked & _ & _ & Hi & Hnd & _).
  exists ranked. split; [exact E|]. split; assumption.
Defined.

Lemma steps_run_in_linear_order_witness :
  ∃ final events,
    run (C := Toy.collaborators) 8 ToyRun.path
    = Finished final linear_order events.
Proof.
  assert (run (C := Toy.collaborators) 8 ToyRun.path = ToyRun.outcome) as E
    by (vm_compute; reflexivity).
  pose proof (proj1 (proj2 (@steps_run_in_linear_order Toy.collaborators))
                8 ToyRun.path) as H.
  rewrite E in H. simpl in H. rewrite E. unfold ToyRun.outcome.
  eexists _, _. reflexivity.
Defined.

Lemma config_loaded_once_then_read_only_witness :
  ∃ later,
    run (C := Toy.collaborators) 8 ToyRun.path
    = Finished ToyRun.final linear_order
        ([Seed py_random 42; Seed np_random 42; Seed torch_rng 42;
          LoadConfig ToyRun.path] ++ later) ∧
    config ToyRun.final = Some Toy.cfg ∧
    Forall (λ e, ¬ is_load e) later.
Proof.
  assert (run (C := Toy.collaborators) 8 ToyRun.path = ToyRun.outcome) as E
    by (vm_compute; reflexivity).
  destruct (proj2 (proj2 (@config_loaded_once_then_read_only Toy.collaborators))
              8 ToyRun.path ToyRun.final linear_order _ E)
    as (cfg & later & s2 & s3 & s4 & s5 & s6 & s7 & e3 & e4 & e5 & e6 & e7 & e8
          & Hload & Hev & Hno & _).
  exists later. split; [|split; [reflexivity|exact Hno]].
  rewrite E. unfold ToyRun.outcome. f_equal. exact Hev.
Defined.

Lemma prob_matrix_rows_sum_to_one_witness :
  Forall (λ p, Float64.is_probability p = true)
         [Toy.p_7_8; Toy.p_1_16; Float64.zero; Float64.one;
          S754_finite false 1 (-1074)] ∧
  Forall (λ row, length row = 2 ∧ row_sum row = Float64.one)
         (prob_matrix [Toy.p_7_8; Toy.p_1_16; Float64.zero; Float64.one;
                       S754_finite false 1 (-1074)]).
Proof.
  assert (Forall (λ p, Float64.is_probability p = true)
                 [Toy.p_7_8; Toy.p_1_16; Float64.zero; Float64.one;
                  S754_finite false 1 (-1074)]) as H
    by (repeat constructor).
  split; [exact H|].
  exact (proj2 (proj2 (prob_matrix_rows_sum_to_one _ H))).
Defined.

Lemma retrain_slices_partition_witness :
  NoDup (pd.index ToyRun.combined) ∧
  data (train_dataset (retrain_datamodule (C := Toy.collaborators)
                         Toy.cfg ToyRun.combined))
  ++ data (dev_dataset (retrain_datamodule (C := Toy.collaborators)
                          Toy.cfg ToyRun.combined))
  ++ data (test_dataset (retrain_datamodule (C := Toy.collaborators)
                           Toy.cfg ToyRun.combined))
  = ToyRun.combined ∧
  ¬ (3%Z ∈ pd.index (data (train_dataset
                             (retrain_datamodule (C := Toy.collaborators)
                                Toy.cfg ToyRun.combined))) ∧
     3%Z ∈ pd.index (data (dev_dataset
                             (retrain_datamodule (C := Toy.collaborators)
                                Toy.cfg ToyRun.combined)))).
Proof.
  assert (NoDup (pd.index ToyRun.combined)) as Hnd.
  { apply (bool_decide_unpack _). vm_compute. exact I. }
  destruct (@retrain_slices_partition Toy.collaborators Toy.cfg ToyRun.combined)
    as (Hcat & _ & _ & _ & Hdisj).
  split; [exact Hnd|]. split; [exact Hcat|].
  exact (proj1 (Hdisj Hnd 3%Z)).
Defined.

End Instance.

(** * Further properties of the steps *)

(** ** The label loop of [inspect] *)

Lemma wrap64_range (z : Z) : (- 2 ^ 63 ≤ wrap64 z < 2 ^ 63)%Z.
Proof.
  unfold wrap64.
  pose proof (Z.mod_pos_bound (z + 2 ^ 63) (2 ^ 64) ltac:(lia)). lia.
Qed.

Lemma wrap64_complement_twice (l : Z) :
  (- 2 ^ 63 ≤ l < 2 ^ 63)%Z → wrap64 (1 - wrap64 (1 - l)) = l.
Proof.
  intros Hl. unfold wrap64.
  replace (1 - ((1 - l + 2 ^ 63) mod 2 ^ 64 - 2 ^ 63) + 2 ^ 63)%Z
    with (1 + 2 ^ 63 + 2 ^ 63 - (1 - l + 2 ^ 63) mod 2 ^ 64)%Z by lia.
  rewrite Zminus_mod_idemp_r.
  replace (1 + 2 ^ 63 + 2 ^ 63 - (1 - l + 2 ^ 63))%Z with (l + 2 ^ 63)%Z by lia.
  rewrite Z.mod_small by lia. lia.
Qed.

(** X1.  The body of the loop at lines 194 and 195 undoes itself on every
    int64 label, not only on 0 and 1: also where [1 - label] leaves the int64
    range and wraps, a second pass on the same row gives the frame back. *)
Theorem flip_label_twice_restores_any_label (df : DataFrame) (index : Z)
    (row : Row.t) :
  pd.loc df index = Some row →
  (- 2 ^ 63 ≤ Row.label row < 2 ^ 63)%Z →
  ∃ df',
    TrainIdentifyReview.flip_label df index = Some df' ∧
    pd.loc df' index
    = Some (Row.set_label row (wrap64 (1 - Row.label row))) ∧
    TrainIdentifyReview.flip_label df' index = Some df.
Proof.
  intros Hloc Hl. unfold TrainIdentifyReview.flip_label. rewrite Hloc. simpl.
  eexists. split; [done|].
  rewrite (loc_after_set_label df index _ row Hloc). simpl.
  split; [done|]. f_equal.
  rewrite wrap64_complement_twice by done.
  by apply set_label_restore.
Qed.

(** ** What [crossval] needs and what it leaves *)

Lemma review_column_reset_index (df : DataFrame) :
  review_column (pd.reset_index df) = review_column df.
Proof.
  unfold review_column, pd.reset_index. apply list_eq. intros i.
  rewrite !list_lookup_fmap, list_lookup_imap.
  by destruct (df !! i).
Qed.

Lemma review_column_set_prob_column (df df' : DataFrame) (values : list float) :
  pd.set_prob_column df values = Some df' → review_column df' = review_column df.
Proof.
  unfold pd.set_prob_column. case_decide as Hlen; [|done]. intros [= <-].
  revert values Hlen.
  induction df as [|[i r] df IH]; intros [|v values] Hlen; simplify_eq/=.
  - done.
  - unfold review_column in *. simpl. by rewrite IH.
Qed.

Lemma length_combined_y (dm_ : DataModule) :
  length (combined_y dm_)
  = length (pd.reset_index (pd.concat [data (train_dataset dm_);
                                       data (dev_dataset dm_);
                                       data (test_dataset dm_)])).
Proof.
  rewrite length_reset_index. unfold combined_y, pd.concat, pd.label_column.
  simpl. by rewrite app_nil_r, !length_app, !length_fmap.
Qed.

Section CrossvalStep.
Context `{C : Collaborators}.
Import TrainIdentifyReview.

(** X3.  [crossval] raises when the data module holds fewer than three rows
    (the three-fold split refuses them) and when its embeddings and its
    labelled rows differ in number (an index of a fold is then out of range
    for the shorter array, or the [prob] column does not fit the frame): it
    never returns a frame whose probabilities are out of step with its
    rows. *)
Theorem crossval_raises_on_short_or_misaligned_data (self : FlowState)
    (dm_ : DataModule) :
  dm self = Some dm_ →
  length (combined_X dm_) < 3
  ∨ length (combined_y dm_) ≠ length (combined_X dm_) →
  crossval self = None.
Proof.
  intros Hdm Hbad.
  destruct (crossval self) as [[[self' evs] nxt]|] eqn:Hrun; [|done].
  exfalso. unfold crossval in Hrun. rewrite Hdm in Hrun. simpl in Hrun.
  destruct (config self) as [cfg|]; [|done]. simpl in Hrun.
  fold (combined_X dm_) (combined_y dm_) in Hrun.
  destruct (crossval_probs cfg (combined_X dm_) (combined_y dm_))
    as [probs|] eqn:Hprobs; [|done].
  simpl in Hrun.
  destruct (pd.set_prob_column _ (values probs)) as [df|] eqn:Hset; [|done].
  destruct (proj2 (crossval_probs_spec cfg _ _) probs Hprobs)
    as (folds & Hsplit & Hlen & _).
  destruct (set_prob_column_spec _ _ _ Hset) as (Hlv & _).
  rewrite <- length_combined_y in Hlv.
  unfold KFold.split in Hsplit. repeat case_decide; simplify_eq.
  destruct Hbad; lia.
Qed.

(** The frame [crossval] builds, writes and saves. *)
Lemma crossval_frame (self self' : FlowState)
    (evs : list Event) (nxt : option Step.t) (dm_ : DataModule) :
  crossval self = Some (self', evs, nxt) →
  dm self = Some dm_ →
  ∃ df probs,
    all_df self' = Some df ∧
    evs = [ToCsv df (join [DATA_DIR; "prob.csv"])] ∧
    pd.index df = Z.of_nat <$> seq 0 (length df) ∧
    review_column df
    = review_column (data (train_dataset dm_))
      ++ review_column (data (dev_dataset dm_))
      ++ review_column (data (test_dataset dm_)) ∧
    pd.label_column df = combined_y dm_ ∧
    pd.prob_column df = Some probs ∧
    length probs = length df ∧
    dm self' = dm self ∧ system self' = system self ∧
    trainer self' = trainer self ∧ config self' = config self ∧
    issues self' = issues self.
Proof.
  intros Hrun Hdm. unfold crossval in Hrun. rewrite Hdm in Hrun. simpl in Hrun.
  destruct (config self) as [cfg|]; [|done]. simpl in Hrun.
  destruct (crossval_probs cfg _ _) as [probs|] eqn:Hprobs; [|done].
  simpl in Hrun.
  destruct (pd.set_prob_column _ (values probs)) as [df|] eqn:Hset; [|done].
  simpl in Hrun. injection Hrun as <- <- <-.
  destruct (set_prob_column_spec _ _ _ Hset) as (Hlv & Hlen & Hidx & Hlab & Hp).
  exists df, (values probs). simpl. split_and!; try done.
  - by rewrite Hidx, index_reset_index, Hlen, length_reset_index.
  - rewrite (review_column_set_prob_column _ _ _ Hset).
    rewrite review_column_reset_index. unfold pd.concat, review_column. simpl.
    by rewrite app_nil_r, !fmap_app.
  - rewrite Hlab, label_column_reset_index. unfold pd.concat, combined_y. simpl.
    by rewrite app_nil_r, !label_column_app.
  - congruence.
Qed.

(** X4.  The frame [crossval] hands on is the one it has written to
    prob.csv: the rows of the training, development and test frames in that
    order, each with the review text and the label it had, renumbered
    0..n-1, and a probability in every row.  Nothing else among the
    artifacts changes. *)
Theorem crossval_saves_the_frame_it_writes (self self' : FlowState)
    (evs : list Event) (nxt : option Step.t) (dm_ : DataModule) :
  crossval self = Some (self', evs, nxt) →
  dm self = Some dm_ →
  ∃ df probs,
    all_df self' = Some df ∧
    evs = [ToCsv df (join [DATA_DIR; "prob.csv"])] ∧
    pd.index df = Z.of_nat <$> seq 0 (length df) ∧
    review_column df
    = review_column (data (train_dataset dm_))
      ++ review_column (data (dev_dataset dm_))
      ++ review_column (data (test_dataset dm_)) ∧
    pd.label_column df = combined_y dm_ ∧
    pd.prob_column df = Some probs ∧
    length probs = length df ∧
    dm self' = dm self ∧ system self' = system self ∧
    trainer self' = trainer self ∧ config self' = config self ∧
    issues self' = issues self.
Proof. apply crossval_frame. Qed.

End CrossvalStep.

Section InspectStep.
Context `{C : Collaborators}.
Import TrainIdentifyReview.

(** What [inspect] does to each row of a frame numbered 0..n-1. *)
Lemma inspect_rows (self self' : FlowState)
    (evs : list Event) (nxt : option Step.t) (df : DataFrame) :
  inspect self = Some (self', evs, nxt) →
  all_df self = Some df →
  pd.index df = Z.of_nat <$> seq 0 (length df) →
  ∃ ranked df',
    issues self' = Some ranked ∧ all_df self' = Some df' ∧
    evs = [Print (pretty (length ranked) +:+ " label issues found.")] ∧
    length df' = length df ∧
    (∀ p ir, df !! p = Some ir →
       df' !! p
       = Some (if decide (Z.of_nat p ∈ ranked)
               then (ir.1, Row.set_label ir.2 (wrap64 (1 - Row.label ir.2)))
               else ir)) ∧
    dm self' = dm self ∧ system self' = system self ∧
    trainer self' = trainer self ∧ config self' = config self.
Proof.
  intros Hrun Hdf Hidx. unfold inspect in Hrun. rewrite Hdf in Hrun.
  simpl in Hrun.
  destruct (pd.prob_column df) as [probs|] eqn:Hp; [|done]. simpl in Hrun.
  destruct (cleanlab.find_label_issues issue_mask (pd.label_column df)
              (prob_matrix probs)) as [ranked|] eqn:Hr; [|done].
  simpl in Hrun.
  destruct (for_each flip_label df ranked) as [df'|] eqn:Hflip; [|done].
  simpl in Hrun. injection Hrun as <- <- <-.
  destruct (find_label_issues_spec _ _ _ _ Hr) as (Hnd & Hrange & _).
  rewrite length_label_column in Hrange.
  destruct (flip_loop_range_index ranked df Hidx Hrange Hnd)
    as (df'' & Hflip' & _ & Hlen & Hrows).
  rewrite Hflip in Hflip'. injection Hflip' as <-.
  exists ranked, df'. simpl. by split_and!.
Qed.

(** X2.  On a frame numbered 0..n-1, as [crossval] leaves it, [inspect]
    changes the rows whose position is in the list it saves as
    [self.issues], and of those only the label, which becomes [1 - label];
    every other row, and the index, the text and the probability of every
    row, stay as they were, and so do the other artifacts. *)
Theorem inspect_flips_exactly_the_flagged_rows (self self' : FlowState)
    (evs : list Event) (nxt : option Step.t) (df : DataFrame) :
  inspect self = Some (self', evs, nxt) →
  all_df self = Some df →
  pd.index df = Z.of_nat <$> seq 0 (length df) →
  ∃ ranked df',
    issues self' = Some ranked ∧ all_df self' = Some df' ∧
    evs = [Print (pretty (length ranked) +:+ " label issues found.")] ∧
    length df' = length df ∧
    (∀ p ir, df !! p = Some ir →
       df' !! p
       = Some (if decide (Z.of_nat p ∈ ranked)
               then (ir.1, Row.set_label ir.2 (wrap64 (1 - Row.label ir.2)))
               else ir)) ∧
    dm self' = dm self ∧ system self' = system self ∧
    trainer self' = trainer self ∧ config self' = config self.
Proof. apply inspect_rows. Qed.

End InspectStep.

(** ** The records of [review] *)

Section ReviewStep.
Context `{C : Collaborators}.
Import TrainIdentifyReview.

Lemma record_ids_cons (o : LS.Output) (outputs : list LS.Output) :
  record_ids (o :: outputs)
  = (p ← LS.predictions o; LS.id <$> LS.result p) ++ record_ids outputs.
Proof. done. Qed.

Lemma review_outputs_ids (self : FlowState) (issues_ : list Z)
    (outputs : list LS.Output) :
  review_outputs self issues_ = Some outputs →
  record_ids outputs = (λ index, "data-" +:+ pretty index) <$> issues_.
Proof.
  unfold review_outputs. intros H. apply mapM_Some_1 in H.
  induction H as [|index o issues_ outputs Ho _ IH]; [done|].
  rewrite record_ids_cons, fmap_cons, IH.
  destruct (all_df self) as [df|]; [|done]. simpl in Ho.
  unfold review_output in Ho.
  destruct (pd.iloc df index) as [row|]; [|done]. simpl in Ho.
  by injection Ho as <-.
Qed.

(** X5.  The [id] of the record [review] writes for issue index [i] is
    "data-" followed by the decimal digits of [i]; so the records of
    distinct issue indices carry distinct ids. *)
Theorem review_record_ids_distinct (self : FlowState) (issues_ : list Z)
    (outputs : list LS.Output) :
  review_outputs self issues_ = Some outputs →
  NoDup issues_ →
  record_ids outputs = (λ index, "data-" +:+ pretty index) <$> issues_ ∧
  NoDup (record_ids outputs).
Proof.
  intros Hout Hnd. pose proof (review_outputs_ids _ _ _ Hout) as Hids.
  split; [done|]. rewrite Hids.
  apply NoDup_fmap_2_strong; [|done].
  intros i j _ _ Hij. by apply (inj (String.app "data-")), (inj pretty) in Hij.
Qed.

(** X6.  [review] returns exactly when every issue index is a position
    [iloc] accepts, that is within the frame counted from either end: one
    index outside raises, and then nothing is written, not even the records
    of the indices before it. *)
Theorem review_returns_iff_issues_in_range (self : FlowState) (df : DataFrame)
    (issues_ : list Z) (cfg : Cfg.t) :
  all_df self = Some df → issues self = Some issues_ → config self = Some cfg →
  is_Some (review self)
  ↔ Forall (λ i, - Z.of_nat (length df) ≤ i < Z.of_nat (length df))%Z issues_.
Proof.
  intros Hdf Hissues Hcfg. split.
  - intros [r Hr]. unfold review in Hr. rewrite Hissues in Hr. simpl in Hr.
    destruct (review_outputs self issues_) as [outputs|] eqn:Hout; [|done].
    unfold review_outputs in Hout. apply mapM_Some_1 in Hout.
    apply Forall_forall. intros i Hi.
    apply list_elem_of_lookup in Hi as [k Hk].
    destruct (Forall2_lookup_l _ _ _ _ _ Hout Hk) as (o & _ & Ho).
    rewrite Hdf in Ho. simpl in Ho. unfold review_output in Ho.
    apply iloc_in_range. destruct (pd.iloc df i); [by eexists|done].
  - intros Hrange.
    destruct (review_records self df issues_ cfg Hdf Hissues Hcfg Hrange)
      as (outputs & -> & _). by eexists.
Qed.

End ReviewStep.

(** ** Whole runs *)

Lemma mapM_ext_fmap {A B} (f : A → option B) (l1 l2 : list A) :
  f <$> l1 = f <$> l2 → mapM f l1 = mapM f l2.
Proof.
  revert l2. induction l1 as [|x l1 IH]; intros [|y l2] H; try done.
  rewrite !fmap_cons in H. injection H as Hx Hl.
  cbn [mapM]. by rewrite Hx, (IH l2 Hl).
Qed.

(** The columns of a frame after the label loop, from what the loop does to
    each row. *)
Lemma flipped_columns (ranked : list Z) (df df' : DataFrame) :
  length df' = length df →
  (∀ p ir, df !! p = Some ir →
     df' !! p
     = Some (if decide (Z.of_nat p ∈ ranked)
             then (ir.1, Row.set_label ir.2 (wrap64 (1 - Row.label ir.2)))
             else ir)) →
  pd.index df' = pd.index df ∧
  review_column df' = review_column df ∧
  pd.prob_column df' = pd.prob_column df ∧
  ∀ p l, pd.label_column df !! p = Some l →
    pd.label_column df' !! p
    = Some (if decide (Z.of_nat p ∈ ranked) then wrap64 (1 - l) else l).
Proof.
  intros Hlen Hrows.
  assert (∀ {B} (f : Z * Row.t → B),
            (∀ i r l, f (i, Row.set_label r l) = f (i, r)) →
            f <$> df' = f <$> df) as Hcol.
  { intros B f Hf. apply list_eq. intros p. rewrite !list_lookup_fmap.
    destruct (df !! p) as [[i r]|] eqn:Hp.
    - rewrite (Hrows _ _ Hp). simpl. case_decide; simpl; by rewrite ?Hf.
    - rewrite lookup_ge_None_2; [done|]. rewrite Hlen. by apply lookup_ge_None. }
  split_and!.
  - by apply Hcol.
  - by apply Hcol.
  - apply mapM_ext_fmap. by apply Hcol.
  - intros p l Hl. unfold pd.label_column in *.
    rewrite list_lookup_fmap in Hl. rewrite list_lookup_fmap.
    destruct (df !! p) as [[i r]|] eqn:Hp; simplify_eq/=.
    rewrite (Hrows _ _ Hp). simpl. by case_decide.
Qed.

Section Run.
Context `{C : Collaborators}.
Import TrainIdentifyReview.

Ltac bind_inv H :=
  repeat match type of H with
         | context [mbind _ ?x] =>
             let E := fresh "E" in destruct x eqn:E; simpl in H; [|discriminate H]
         end.

Lemma train_test_inv (self self' : FlowState) (evs : list Event)
    (nxt : option Step.t) :
  train_test self = Some (self', evs, nxt) →
  (∃ system2,
     evs = [Pprint (test_results system2);
            Makedirs (dirname (join [project_dir; "logs"; "pre-results.json"]));
            ResultsToJson (test_results system2)
              (join [project_dir; "logs"; "pre-results.json"])]) ∧
  dm self' = dm self ∧ config self' = config self ∧
  all_df self' = all_df self ∧ issues self' = issues self.
Proof.
  unfold train_test. intros H. bind_inv H. injection H as <- <- <-. simpl.
  split_and!; try done.
  by eexists.
Qed.

Lemma review_inv (self self' : FlowState) (evs : list Event)
    (nxt : option Step.t) :
  review self = Some (self', evs, nxt) →
  self' = self ∧
  ∃ issues_ outputs cfg,
    issues self = Some issues_ ∧ config self = Some cfg ∧
    review_outputs self issues_ = Some outputs ∧
    length outputs = length issues_ ∧
    evs = [OutputsToJson outputs
             (join [Cfg.save_dir (Cfg.review cfg); "pre-annotations.json"])].
Proof.
  unfold review. intros H. bind_inv H. injection H as <- <- <-.
  split; [done|].
  eexists _, _, _. split_and!; try done.
  unfold review_outputs in *. by eapply mapM_length.
Qed.

Lemma retrain_retest_inv (self self' : FlowState) (evs : list Event)
    (nxt : option Step.t) :
  retrain_retest self = Some (self', evs, nxt) →
  self' = self ∧
  ∃ cfg df system1 system2,
    config self = Some cfg ∧ all_df self = Some df ∧
    fit {| max_epochs := Cfg.max_epochs (Cfg.optimizer (Cfg.train cfg));
           callbacks := [] |}
        (SentimentClassifierSystem cfg) (retrain_datamodule cfg df)
    = Some system1 ∧
    test {| max_epochs := Cfg.max_epochs (Cfg.optimizer (Cfg.train cfg));
            callbacks := [] |}
         system1 (retrain_datamodule cfg df) "best"
    = Some system2 ∧
    evs = [Pprint (test_results system2);
           Makedirs (dirname (join [project_dir; "logs"; "post-results.json"]));
           ResultsToJson (test_results system2)
             (join [project_dir; "logs"; "post-results.json"])].
Proof.
  unfold retrain_retest. intros H. bind_inv H. injection H as <- <- <-.
  split; [done|].
  by eexists _, _, _, _.
Qed.

(** The stages of a run that reaches its end. *)
Lemma finished_run_stages fuel path final steps events :
  run fuel path = Finished final steps events →
  ∃ cfg s2 s3 s4 e3 e4 e5 e6 e7,
    load_config path = Some cfg ∧
    dm s2 = Some (ReviewDataModule cfg) ∧ config s2 = Some cfg ∧
    train_test s2 = Some (s3, e3, Some Step.crossval) ∧
    crossval s3 = Some (s4, e4, Some Step.inspect) ∧
    inspect s4 = Some (final, e5, Some Step.review) ∧
    review final = Some (final, e6, Some Step.retrain_retest) ∧
    retrain_retest final = Some (final, e7, Some Step.end_) ∧
    events = [Seed py_random 42; Seed np_random 42; Seed torch_rng 42;
              LoadConfig path]
             ++ e3 ++ e4 ++ e5 ++ e6 ++ e7 ++ [Print "done! great work!"].
Proof.
  intros H.
  apply run_finished_inv in H
    as (s1 & s2 & s3 & s4 & s5 & s6 & s7 & e1 & e2 & e3 & e4 & e5 & e6 & e7
          & e8 & H1 & H2 & H3 & H4 & H5 & H6 & H7 & H8 & ->).
  injection H1 as <- <-. injection H8 as -> <-.
  destruct (review_inv _ _ _ _ H6) as [-> _].
  destruct (retrain_retest_inv _ _ _ _ H7) as [-> _].
  unfold init_system in H2. simpl in H2.
  destruct (load_config path) as [cfg|] eqn:Hload; [|done].
  simpl in H2. injection H2 as <- <-.
  exists cfg. eexists _, s3, s4, e3, e4, e5, e6, e7.
  split_and!; try done; reflexivity.
Qed.

(** X7.  What a run that reaches its end has done to the world outside its
    artifacts, in order: the three seed calls, one load of the
    configuration, the first results printed and written to
    logs/pre-results.json in a directory made just before, the combined
    frame written to prob.csv, the number of issues printed, one record per
    issue written to pre-annotations.json in the review directory of the
    configuration, the second results printed and written to
    logs/post-results.json, and the closing line; fourteen events and no
    other.  The number [inspect] prints is the number of records [review]
    writes. *)
Theorem finished_run_events fuel path final steps events :
  run fuel path = Finished final steps events →
  ∃ cfg system_pre system_post csv ranked outputs,
    load_config path = Some cfg ∧
    issues final = Some ranked ∧
    length outputs = length ranked ∧
    events
    = [Seed py_random 42; Seed np_random 42; Seed torch_rng 42;
       LoadConfig path;
       Pprint (test_results system_pre);
       Makedirs (dirname (join [project_dir; "logs"; "pre-results.json"]));
       ResultsToJson (test_results system_pre)
         (join [project_dir; "logs"; "pre-results.json"]);
       ToCsv csv (join [DATA_DIR; "prob.csv"]);
       Print (pretty (length ranked) +:+ " label issues found.");
       OutputsToJson outputs
         (join [Cfg.save_dir (Cfg.review cfg); "pre-annotations.json"]);
       Pprint (test_results system_post);
       Makedirs (dirname (join [project_dir; "logs"; "post-results.json"]));
       ResultsToJson (test_results system_post)
         (join [project_dir; "logs"; "post-results.json"]);
       Print "done! great work!"].
Proof.
  intros H.
  apply finished_run_stages in H
    as (cfg & s2 & s3 & s4 & e3 & e4 & e5 & e6 & e7 & Hload & Hdm & Hcfg
          & H3 & H4 & H5 & H6 & H7 & ->).
  destruct (train_test_inv _ _ _ _ H3) as ([sys1 ->] & Hdm3 & Hcfg3 & _).
  destruct (review_inv _ _ _ _ H6)
    as (_ & ranked & outputs & cfg' & Hiss & Hcfg' & _ & Hlen & ->).
  destruct (retrain_retest_inv _ _ _ _ H7)
    as (_ & cfg'' & df & sys2' & sys2 & _ & _ & _ & _ & ->).
  assert (config final = Some cfg) as Hcfgf.
  { destruct (body_keeps_config Step.inspect _ _ _ _ ltac:(done) H5) as [-> _].
    destruct (body_keeps_config Step.crossval _ _ _ _ ltac:(done) H4) as [-> _].
    congruence. }
  assert (cfg' = cfg) as -> by congruence.
  unfold crossval in H4. bind_inv H4. injection H4 as <- <-.
  unfold inspect in H5. bind_inv H5. injection H5 as <- <-.
  simpl in Hiss. injection Hiss as <-.
  eexists cfg, sys1, sys2, _, _, outputs. split_and!; try done.
Qed.

(** The frame written to prob.csv and the frame at the end of a finished
    run. *)
Lemma finished_run_frames fuel path final steps events :
  run fuel path = Finished final steps events →
  ∃ cfg csv df ranked probs,
    load_config path = Some cfg ∧
    config final = Some cfg ∧
    ToCsv csv (join [DATA_DIR; "prob.csv"]) ∈ events ∧
    all_df final = Some df ∧ issues final = Some ranked ∧
    pd.index csv = Z.of_nat <$> seq 0 (length csv) ∧
    review_column csv
    = review_column (data (train_dataset (ReviewDataModule cfg)))
      ++ review_column (data (dev_dataset (ReviewDataModule cfg)))
      ++ review_column (data (test_dataset (ReviewDataModule cfg))) ∧
    pd.label_column csv = combined_y (ReviewDataModule cfg) ∧
    pd.prob_column csv = Some probs ∧
    length df = length csv ∧
    (∀ p ir, csv !! p = Some ir →
       df !! p
       = Some (if decide (Z.of_nat p ∈ ranked)
               then (ir.1, Row.set_label ir.2 (wrap64 (1 - Row.label ir.2)))
               else ir)).
Proof.
  intros H.
  apply finished_run_stages in H
    as (cfg & s2 & s3 & s4 & e3 & e4 & e5 & e6 & e7 & Hload & Hdm & Hcfg
          & H3 & H4 & H5 & H6 & H7 & ->).
  destruct (train_test_inv _ _ _ _ H3) as (_ & Hdm3 & Hcfg3 & _).
  rewrite Hdm in Hdm3. rewrite Hcfg in Hcfg3.
  destruct (crossval_frame _ _ _ _ _ H4 Hdm3)
    as (csv & probs & Hcsv & -> & Hidx & Htext & Hlab & Hprob & _ & _ & _ & _
          & Hcfg4 & _).
  destruct (inspect_rows _ _ _ _ _ H5 Hcsv Hidx)
    as (ranked & df & Hiss & Hdf & _ & Hlen & Hrows & _ & _ & _ & Hcfg5).
  exists cfg, csv, df, ranked, probs. split_and!; try done.
  - congruence.
  - rewrite !elem_of_app. right. right. left. by left.
Qed.

(** X9.  In a run that reaches its end, prob.csv holds the labels as the
    datasets had them, in the order training, development, test; the frame
    the run ends with has the same index, texts and probabilities and
    differs from it in the labels of the rows listed in [self.issues], and
    only in those: each is [1 - label]. *)
Theorem finished_run_flips_only_flagged_labels fuel path final steps events :
  run fuel path = Finished final steps events →
  ∃ cfg csv df ranked,
    load_config path = Some cfg ∧
    ToCsv csv (join [DATA_DIR; "prob.csv"]) ∈ events ∧
    all_df final = Some df ∧ issues final = Some ranked ∧
    pd.label_column csv = combined_y (ReviewDataModule cfg) ∧
    pd.index df = pd.index csv ∧
    review_column df = review_column csv ∧
    pd.prob_column df = pd.prob_column csv ∧
    ∀ p l, pd.label_column csv !! p = Some l →
      pd.label_column df !! p
      = Some (if decide (Z.of_nat p ∈ ranked) then wrap64 (1 - l) else l).
Proof.
  intros H.
  apply finished_run_frames in H
    as (cfg & csv & df & ranked & probs & Hload & _ & Hev & Hdf & Hiss & _ & _
          & Hlab & _ & Hlen & Hrows).
  destruct (flipped_columns ranked csv df Hlen Hrows) as (Hi & Ht & Hp & Hl).
  exists cfg, csv, df, ranked. by split_and!.
Qed.

Lemma review_column_take (n : nat) (df : DataFrame) :
  review_column (take n df) = take n (review_column df).
Proof. apply fmap_take. Qed.

Lemma review_column_drop (n : nat) (df : DataFrame) :
  review_column (drop n df) = drop n (review_column df).
Proof. apply fmap_drop. Qed.

Lemma length_review_column (df : DataFrame) :
  length (review_column df) = length df.
Proof. apply length_fmap. Qed.

(** X10.  When the length of a dataset is the number of its rows, the data
    module [retrain_retest] fits in a run that reaches its end is split
    where the original one was: each of its three datasets has the
    embeddings of the original dataset and, row by row, its review texts
    (the labels are those [inspect] left). *)
Theorem finished_run_retrains_on_the_original_split fuel path final steps
    events :
  run fuel path = Finished final steps events →
  (∀ ds, dataset_len ds = length (data ds)) →
  ∃ cfg df,
    load_config path = Some cfg ∧ all_df final = Some df ∧
    is_Some (fit {| max_epochs := Cfg.max_epochs (Cfg.optimizer (Cfg.train cfg));
                    callbacks := [] |}
                 (SentimentClassifierSystem cfg) (retrain_datamodule cfg df)) ∧
    embedding (train_dataset (retrain_datamodule cfg df))
    = embedding (train_dataset (ReviewDataModule cfg)) ∧
    embedding (dev_dataset (retrain_datamodule cfg df))
    = embedding (dev_dataset (ReviewDataModule cfg)) ∧
    embedding (test_dataset (retrain_datamodule cfg df))
    = embedding (test_dataset (ReviewDataModule cfg)) ∧
    review_column (data (train_dataset (retrain_datamodule cfg df)))
    = review_column (data (train_dataset (ReviewDataModule cfg))) ∧
    review_column (data (dev_dataset (retrain_datamodule cfg df)))
    = review_column (data (dev_dataset (ReviewDataModule cfg))) ∧
    review_column (data (test_dataset (retrain_datamodule cfg df)))
    = review_column (data (test_dataset (ReviewDataModule cfg))).
Proof.
  intros H Hlen.
  pose proof H as Hst.
  apply finished_run_stages in Hst
    as (cfg0 & _ & _ & _ & _ & _ & _ & _ & e7 & Hload0 & _ & _ & _ & _ & _ & _
          & H7 & _).
  apply finished_run_frames in H
    as (cfg & csv & df & ranked & probs & Hload & Hcfg & _ & Hdf & _ & _
          & Htext & _ & _ & Hlendf & Hrows).
  assert (cfg0 = cfg) as -> by congruence.
  destruct (flipped_columns ranked csv df Hlendf Hrows) as (_ & Ht & _).
  rewrite <- Ht in Htext.
  destruct (retrain_retest_inv _ _ _ _ H7)
    as (_ & cfg' & df' & sys1 & sys2 & Hcfg' & Hdf' & Hfit & _).
  assert (cfg' = cfg) as -> by congruence.
  assert (df' = df) as -> by congruence.
  exists cfg, df. split_and!; try done.
  - unfold retrain_datamodule. simpl. unfold pd.iloc_slice.
    rewrite Nat.sub_0_r, drop_0, review_column_take, Htext, Hlen.
    rewrite <- length_review_column. by rewrite take_app_length.
  - unfold retrain_datamodule. simpl. unfold pd.iloc_slice.
    rewrite review_column_take, review_column_drop, Htext, !Hlen.
    rewrite <- !length_review_column.
    replace (length (review_column (data (train_dataset (ReviewDataModule cfg))))
             + length (review_column (data (dev_dataset (ReviewDataModule cfg))))
             - length (review_column (data (train_dataset (ReviewDataModule cfg)))))
      with (length (review_column (data (dev_dataset (ReviewDataModule cfg)))))
      by lia.
    by rewrite drop_app_length, take_app_length.
  - unfold retrain_datamodule. simpl. unfold pd.iloc_from.
    rewrite review_column_drop, Htext, !Hlen.
    rewrite <- !length_review_column.
    rewrite app_assoc, <- length_app. by rewrite drop_app_length.
Qed.

Lemma run_from_next fuel s self steps0 ev0 self' evs s' :
  body s self = Some (self', evs, Some s') →
  run_from (S fuel) s self steps0 ev0
  = run_from fuel s' self' (steps0 ++ [s]) (ev0 ++ evs).
Proof. intros H. simpl. by rewrite H. Qed.

(** With the trainer's contract and at least three rows, as many labels as
    embeddings, [crossval] returns. *)
Lemma crossval_total (self : FlowState) (dm_ : DataModule) (cfg : Cfg.t) :
  dm self = Some dm_ → config self = Some cfg →
  (∀ t s dl, is_Some (fit_loader t s dl)) →
  (∀ t s dl, length (predict t s dl) = length (dataset dl)) →
  3 ≤ length (combined_X dm_) →
  length (combined_y dm_) = length (combined_X dm_) →
  ∃ self' evs, crossval self = Some (self', evs, Some Step.inspect).
Proof.
  intros Hdm Hcfg Hfit Hpred Hn Hy.
  destruct (crossval_probs_spec cfg (combined_X dm_) (combined_y dm_))
    as [Htotal Hpost].
  destruct (Htotal Hfit Hpred Hn Hy) as [probs Hprobs].
  destruct (Hpost probs Hprobs) as (folds & _ & Hlen & _).
  unfold crossval. rewrite Hdm. simpl. rewrite Hcfg. simpl.
  fold (combined_X dm_) (combined_y dm_). rewrite Hprobs. simpl.
  unfold pd.set_prob_column. rewrite decide_True; [by eexists _, _|].
  by rewrite Hlen, <- length_combined_y.
Qed.

(** X8.  Under the trainer's contract, only [inspect] can stop the flow.
    When the configuration loads, fitting and testing return, the trainer
    predicts one probability per held-out row, and the data module holds at
    least three rows, as many embeddings as labelled rows, then [start],
    [init_system], [train_test] and [crossval] return; the run either goes
    through all eight steps in the linear order, or it raises in [inspect]
    with those four steps completed: [review], [retrain_retest] and [end]
    return whenever [inspect] has. *)
Theorem run_can_raise_only_in_inspect (path : string) (cfg : Cfg.t) :
  load_config path = Some cfg →
  (∀ t s d, is_Some (fit t s d)) →
  (∀ t s d ckpt_path, is_Some (test t s d ckpt_path)) →
  (∀ t s dl, is_Some (fit_loader t s dl)) →
  (∀ t s dl, length (predict t s dl) = length (dataset dl)) →
  3 ≤ length (combined_X (ReviewDataModule cfg)) →
  length (combined_y (ReviewDataModule cfg))
  = length (combined_X (ReviewDataModule cfg)) →
  ∀ fuel, 8 ≤ fuel →
    (∃ final events, run fuel path = Finished final linear_order events)
    ∨ (∃ events,
         run fuel path
         = Raised Step.inspect
             [Step.start; Step.init_system; Step.train_test; Step.crossval]
             events).
Proof.
  intros Hload Hfit Htest Hfitl Hpred Hn Hy fuel Hfuel.
  do 8 (destruct fuel as [|fuel]; [lia|]). clear Hfuel.
  unfold run.
  (* start *)
  erewrite run_from_next by reflexivity.
  (* init_system *)
  erewrite run_from_next
    by (cbn [body]; unfold init_system; cbn [config_path initial];
        rewrite Hload; reflexivity).
  (* train_test *)
  match goal with |- context [run_from _ Step.train_test ?s] =>
    set (s2 := s) end.
  destruct (Hfit (Build_Trainer (Cfg.max_epochs (Cfg.optimizer (Cfg.train cfg)))
                    [Build_ModelCheckpoint (Cfg.ckpt_dir (Cfg.train cfg))
                       "dev_loss" "min" 1 true])
              (SentimentClassifierSystem cfg) (ReviewDataModule cfg))
    as [sys1 Hsys1].
  destruct (Htest (Build_Trainer (Cfg.max_epochs (Cfg.optimizer (Cfg.train cfg)))
                     [Build_ModelCheckpoint (Cfg.ckpt_dir (Cfg.train cfg))
                        "dev_loss" "min" 1 true])
              sys1 (ReviewDataModule cfg) "best") as [sys2 Hsys2].
  erewrite run_from_next
    by (cbn [body]; unfold train_test, s2; simpl; rewrite Hsys1; simpl;
        rewrite Hsys2; reflexivity).
  (* crossval *)
  match goal with |- context [run_from _ Step.crossval ?s] =>
    set (s3 := s) end.
  destruct (crossval_total s3 (ReviewDataModule cfg) cfg
              eq_refl eq_refl Hfitl Hpred Hn Hy) as (s4 & e4 & H4).
  rewrite (run_from_next _ Step.crossval s3 _ _ s4 e4 Step.inspect H4).
  destruct (crossval_frame _ _ _ _ _ H4 eq_refl)
    as (csv & probs & Hcsv & _ & _ & _ & _ & _ & _ & _ & _ & _ & Hcfg4 & _).
  (* inspect *)
  destruct (inspect s4) as [[[s5 e5] nxt]|] eqn:H5.
  2:{ right. cbn [run_from body]. rewrite H5. by eexists. }
  left.
  destruct (inspect_returned _ _ _ _ _ H5 Hcsv)
    as (ranked & df & Hiss & Hdf & Hcfg5 & -> & _ & Hrange & Hlen & _).
  rewrite (run_from_next _ Step.inspect s4 _ _ s5 _ Step.review H5).
  (* review *)
  assert (config s5 = Some cfg) as Hcfg5'
    by (rewrite Hcfg5, Hcfg4; reflexivity).
  destruct (review_records s5 df ranked cfg Hdf Hiss Hcfg5')
    as (outputs & H6 & _).
  { rewrite Hlen. eapply Forall_impl; [exact Hrange|]. intros i Hi.
    simpl in Hi. lia. }
  rewrite (run_from_next _ Step.review s5 _ _ s5 _ Step.retrain_retest H6).
  (* retrain_retest *)
  destruct (Hfit (Build_Trainer (Cfg.max_epochs (Cfg.optimizer (Cfg.train cfg)))
                    [])
              (SentimentClassifierSystem cfg) (retrain_datamodule cfg df))
    as [sys3 Hsys3].
  destruct (Htest (Build_Trainer (Cfg.max_epochs (Cfg.optimizer (Cfg.train cfg)))
                     [])
              sys3 (retrain_datamodule cfg df) "best") as [sys4 Hsys4].
  erewrite run_from_next
    by (cbn [body]; unfold retrain_retest; rewrite Hcfg5', Hdf; simpl;
        rewrite Hsys3; simpl; rewrite Hsys4; reflexivity).
  (* end *)
  simpl. by eexists _, _.
Qed.

(** X11.  When the configuration cannot be loaded the run stops in
    [init_system]: [start] has made its three seed calls and nothing else
    has happened, no step after [init_system] is entered and no file is
    written. *)
Theorem run_stops_in_init_system_without_config (path : string) :
  load_config path = None →
  ∀ fuel, 2 ≤ fuel →
    run fuel path
    = Raised Step.init_system [Step.start]
        [Seed py_random 42; Seed np_random 42; Seed torch_rng 42].
Proof.
  intros Hload fuel Hfuel.
  do 2 (destruct fuel as [|fuel]; [lia|]).
  unfold run. erewrite run_from_next by reflexivity.
  cbn [run_from body]. unfold init_system. cbn [config_path initial].
  by rewrite Hload.
Qed.

(** X12.  What a finished run leaves in [self.dm], [self.system] and
    [self.trainer] is what [init_system] and [train_test] put there: the
    data module as it was loaded, with its original labels, the system
    fitted and tested on it before any relabelling, and the trainer with
    the checkpoint callback.  The system [retrain_retest] fits and the data
    module it builds are not saved. *)
Theorem finished_run_keeps_the_first_system fuel path final steps events :
  run fuel path = Finished final steps events →
  ∃ cfg system1 system2,
    load_config path = Some cfg ∧
    config_path final = path ∧
    dm final = Some (ReviewDataModule cfg) ∧
    trainer final
    = Some {| max_epochs := Cfg.max_epochs (Cfg.optimizer (Cfg.train cfg));
              callbacks := [ {| dirpath := Cfg.ckpt_dir (Cfg.train cfg);
                                monitor := "dev_loss";
                                mode := "min";
                                save_top_k := 1;
                                verbose := true |} ] |} ∧
    fit {| max_epochs := Cfg.max_epochs (Cfg.optimizer (Cfg.train cfg));
           callbacks := [ {| dirpath := Cfg.ckpt_dir (Cfg.train cfg);
                             monitor := "dev_loss";
                             mode := "min";
                             save_top_k := 1;
                             verbose := true |} ] |}
        (SentimentClassifierSystem cfg) (ReviewDataModule cfg)
    = Some system1 ∧
    test {| max_epochs := Cfg.max_epochs (Cfg.optimizer (Cfg.train cfg));
            callbacks := [ {| dirpath := Cfg.ckpt_dir (Cfg.train cfg);
                              monitor := "dev_loss";
                              mode := "min";
                              save_top_k := 1;
                              verbose := true |} ] |}
         system1 (ReviewDataModule cfg) "best"
    = Some system2 ∧
    system final = Some system2 ∧
    Pprint (test_results system2) ∈ events.
Proof.
  intros H.
  apply run_finished_inv in H
    as (s1 & s2 & s3 & s4 & s5 & s6 & s7 & e1 & e2 & e3 & e4 & e5 & e6 & e7
          & e8 & H1 & H2 & H3 & H4 & H5 & H6 & H7 & H8 & ->).
  injection H1 as <- <-. injection H8 as -> <-.
  destruct (review_inv _ _ _ _ H6) as [-> _].
  destruct (retrain_retest_inv _ _ _ _ H7) as [-> _].
  unfold init_system in H2. simpl in H2.
  destruct (load_config path) as [cfg|] eqn:Hload; [|done].
  simpl in H2. injection H2 as <- <-.
  unfold train_test in H3. simpl in H3.
  destruct (fit _ _ _) as [system1|] eqn:Hfit; [|done]. simpl in H3.
  destruct (test _ _ _ _) as [system2|] eqn:Htest; [|done]. simpl in H3.
  injection H3 as <- <-.
  unfold crossval in H4. bind_inv H4. injection H4 as <- <-.
  unfold inspect in H5. bind_inv H5. injection H5 as <- <-.
  exists cfg, system1, system2. simpl. split_and!; try done.
  do 4 right. by left.
Qed.

End Run.

(** ** The label loop as a whole *)

Lemma wrap64_complement_neq (l : Z) : wrap64 (1 - l) ≠ l.
Proof.
  unfold wrap64. intros H.
  pose proof (Z.div_mod (1 - l + 2 ^ 63) (2 ^ 64) ltac:(lia)) as Hdm.
  lia.
Qed.

(** X13.  Run a second time over the same issue list, the loop at lines
    193 to 195 gives back the frame it started from: on a frame numbered
    0..n-1, with distinct positions in range and int64 labels, relabelling
    is undone by relabelling. *)
Theorem flip_loop_twice_restores_the_frame (ranked : list Z) (df : DataFrame) :
  pd.index df = Z.of_nat <$> seq 0 (length df) →
  Forall (λ i, 0 ≤ i < Z.of_nat (length df))%Z ranked →
  NoDup ranked →
  Forall (λ l, - 2 ^ 63 ≤ l < 2 ^ 63)%Z (pd.label_column df) →
  ∃ df',
    for_each TrainIdentifyReview.flip_label df ranked = Some df' ∧
    for_each TrainIdentifyReview.flip_label df' ranked = Some df.
Proof.
  intros Hidx Hrange Hnd Hint.
  destruct (flip_loop_range_index ranked df Hidx Hrange Hnd)
    as (df' & Hrun & Hidx' & Hlen & Hrows).
  destruct (flip_loop_range_index ranked df') as (df'' & Hrun' & _ & Hlen' & Hrows');
    [by rewrite Hidx', Hlen|by rewrite Hlen|done|].
  exists df'. split; [done|]. rewrite Hrun'. f_equal.
  apply list_eq. intros p. destruct (df !! p) as [[i r]|] eqn:Hp.
  - rewrite (Hrows' _ _ (Hrows _ _ Hp)).
    case_decide as Hin; [|done]. simpl. do 2 f_equal.
    assert (- 2 ^ 63 ≤ Row.label r < 2 ^ 63)%Z as Hl.
    { rewrite Forall_forall in Hint. apply Hint. unfold pd.label_column.
      apply list_elem_of_fmap. exists (i, r). split; [done|].
      by eapply list_elem_of_lookup_2. }
    rewrite wrap64_complement_twice by done. by destruct r.
  - apply lookup_ge_None. rewrite Hlen', Hlen. by apply lookup_ge_None.
Qed.

Lemma flagged_positions_length (ranked : list Z) (n : nat) :
  NoDup ranked →
  Forall (λ i, 0 ≤ i < Z.of_nat n)%Z ranked →
  length (filter (λ p, Z.of_nat p ∈ ranked) (seq 0 n)) = length ranked.
Proof.
  intros Hnd Hrange.
  rewrite <- (length_fmap Z.of_nat).
  apply Permutation_length, NoDup_Permutation; [| done |].
  - apply NoDup_fmap_2; [apply _|]. apply NoDup_filter, NoDup_seq.
  - intros i. rewrite list_elem_of_fmap. split.
    + intros (p & -> & Hp). by apply list_elem_of_filter in Hp as [? _].
    + intros Hi. rewrite Forall_forall in Hrange. pose proof (Hrange i Hi).
      exists (Z.to_nat i). rewrite list_elem_of_filter, elem_of_seq.
      rewrite Z2Nat.id by lia. split_and!; [done|done|lia..].
Qed.

Section InspectCount.
Context `{C : Collaborators}.
Import TrainIdentifyReview.

(** X14.  The number [inspect] prints is the number of labels it has
    changed: on a frame numbered 0..n-1 the rows whose label after the step
    differs from the label before are as many as the entries of
    [self.issues], since no int64 label is its own complement. *)
Theorem inspect_reports_the_number_of_changed_labels (self self' : FlowState)
    (evs : list Event) (nxt : option Step.t) (df : DataFrame) :
  inspect self = Some (self', evs, nxt) →
  all_df self = Some df →
  pd.index df = Z.of_nat <$> seq 0 (length df) →
  ∃ df' ranked,
    all_df self' = Some df' ∧ issues self' = Some ranked ∧
    length (filter (λ p, pd.label_column df' !! p ≠ pd.label_column df !! p)
                   (seq 0 (length df)))
    = length ranked ∧
    evs = [Print (pretty (length ranked) +:+ " label issues found.")].
Proof.
  intros Hrun Hdf Hidx.
  destruct (inspect_rows _ _ _ _ _ Hrun Hdf Hidx)
    as (ranked & df' & Hiss & Hdf' & Hev & Hlen & Hrows & _).
  exists df', ranked. split_and!; try done.
  assert (NoDup ranked ∧ Forall (λ i, 0 ≤ i < Z.of_nat (length df))%Z ranked)
    as [Hnd Hrange].
  { unfold inspect in Hrun. rewrite Hdf in Hrun. simpl in Hrun.
    destruct (pd.prob_column df) as [probs|]; [|done]. simpl in Hrun.
    destruct (cleanlab.find_label_issues issue_mask (pd.label_column df)
                (prob_matrix probs)) as [ranked'|] eqn:Hr; [|done].
    simpl in Hrun.
    destruct (for_each flip_label df ranked'); [|done].
    simpl in Hrun. injection Hrun as <- <-. simpl in Hiss.
    injection Hiss as <-.
    destruct (find_label_issues_spec _ _ _ _ Hr) as (Hnd & Hrange & _).
    by rewrite length_label_column in Hrange. }
  rewrite <- (flagged_positions_length ranked (length df) Hnd Hrange).
  f_equal. apply filter_ext_in. intros p Hp. apply elem_of_seq in Hp.
  destruct (lookup_lt_is_Some_2 df p ltac:(lia)) as [[i r] Hir].
  unfold pd.label_column. rewrite !list_lookup_fmap, Hir, (Hrows _ _ Hir).
  simpl. case_decide; simpl.
  - split; [done|]. intros _ [= Heq]. by apply wrap64_complement_neq in Heq.
  - split; [done|]. by intros ?.
Qed.

End InspectCount.

(** ** The probability matrix *)

Section Complement.
Local Open Scope Z_scope.

(** A positive float64 with a full mantissa, below one. *)
Lemma is_probability_normal (M e : Z) :
  2 ^ 52 ≤ M < 2 ^ 53 → -1074 ≤ e < -52 →
  Float64.is_probability (S754_finite false (Z.to_pos M) e) = true.
Proof.
  intros HM He. unfold Float64.is_probability.
  rewrite leb_one_finite.
  assert ((e ?= -52) = Lt) as -> by (apply Z.compare_lt_iff; lia).
  assert (Float64.leb Float64.zero (S754_finite false (Z.to_pos M) e) = true)
    as -> by reflexivity.
  rewrite !andb_true_r.
  unfold Float64.valid, valid_binary, bounded, canonical_mantissa.
  rewrite (digits2_Z M 53) by (simpl; lia).
  apply andb_true_iff. split.
  - apply Z.eqb_eq. unfold fexp, emin, Float64.prec, Float64.emax. lia.
  - apply Z.leb_le. unfold Float64.prec, Float64.emax. lia.
Qed.

(** [1 - p] for [p >= 1/2]. *)
Lemma one_minus_p_exact (m : positive) :
  2 ^ 52 ≤ Zpos m < 2 ^ 53 →
  Float64.is_probability
    (Float64.sub Float64.one (S754_finite false m (-53))) = true.
Proof.
  intros Hm. unfold Float64.one. rewrite sub_finite.
  rewrite Z.min_r by lia.
  replace (-52 - -53) with 1 by lia. replace (-53 - -53) with 0 by lia.
  rewrite Z.pow_0_r, Z.pow_1_r, Z.mul_1_r.
  change (4503599627370496 * 2) with (2 ^ 53).
  set (N := 2 ^ 53 - Zpos m).
  assert (0 < N ≤ 2 ^ 52) as HN by (unfold N; lia).
  rewrite binary_normalize_pos by lia.
  pose proof (digits2_bounds (Z.to_pos N)) as Hdn.
  set (dn := Zpos (digits2_pos (Z.to_pos N))) in *.
  rewrite Z2Pos.id in Hdn by lia.
  assert (1 ≤ dn) as Hdn1 by (unfold dn; lia).
  assert (dn ≤ 53) as Hdn2.
  { destruct (Z_lt_le_dec 53 dn) as [Hgt|]; [|done].
    pose proof (pow2_le 53 (dn - 1) ltac:(lia)). lia. }
  assert (fexp 53 1024 (dn + -53) = dn - 106) as Hf
    by (rewrite fexp_normal; lia).
  rewrite (binary_round_exact false N (-53) dn); rewrite ?Hf; try done; try lia.
  replace (-53 - (dn - 106)) with (53 - dn) by lia.
  apply is_probability_normal; [|lia].
  pose proof (digits2_shift N dn (53 - dn) ltac:(lia) Hdn Hdn1) as Hs.
  by replace (dn + (53 - dn) - 1) with 52 in Hs by lia;
     replace (dn + (53 - dn)) with 53 in Hs by lia.
Qed.

(** [1 - p] for [p < 1/2]. *)
Lemma one_minus_p_rounded (m : positive) (k : Z) :
  1 ≤ k → k ≤ 1021 → Zpos m < 2 ^ 53 →
  Float64.is_probability
    (Float64.sub Float64.one (S754_finite false m (-53 - k))) = true.
Proof.
  intros Hk Hk' Hm.
  assert (2 ^ (k + 1) = 2 * 2 ^ k) as HP2 by (rewrite Z.pow_add_r; lia).
  pose proof (pow2_pos (k - 1) ltac:(lia)) as HH.
  assert (2 ^ k = 2 * 2 ^ (k - 1)) as HP.
  { replace k with (Z.succ (k - 1)) at 1 by lia. by rewrite Z.pow_succ_r by lia. }
  unfold Float64.one at 1. rewrite sub_finite. rewrite Z.min_r by lia.
  replace (-52 - (-53 - k)) with (k + 1) by lia.
  replace (-53 - k - (-53 - k)) with 0 by lia.
  rewrite Z.pow_0_r, Z.mul_1_r, HP2.
  replace (4503599627370496 * (2 * 2 ^ k)) with (2 ^ 53 * 2 ^ k) by lia.
  set (P := 2 ^ k) in *.
  set (N := 2 ^ 53 * P - Zpos m).
  assert (2 ^ 52 * P ≤ N < 2 ^ 53 * P) as HN by (unfold N; lia).
  rewrite binary_normalize_pos by lia.
  rewrite (binary_round_rne false N _ k); try lia.
  2:{ rewrite !Z.pow_add_r by lia. fold P. lia. }
  replace (-53 - k + k) with (-53) by lia.
  pose proof (rne_bounds N k Hk) as HM.
  rewrite !Z.pow_add_r in HM by lia. fold P in HM. specialize (HM HN).
  destruct (Z.ltb_spec (rne N k) (2 ^ 53)) as [Hlt|Hge].
  - apply is_probability_normal; lia.
  - reflexivity.
Qed.

(** For a float64 [p] with [0 <= p <= 1], [1 - p] is a float64 with
    [0 <= 1 - p <= 1]. *)
Lemma complement_is_probability (p : float) :
  Float64.is_probability p = true →
  Float64.is_probability (Float64.sub Float64.one p) = true.
Proof.
  intros Hp. destruct p as [s|s| |s m e].
  - by destruct s.
  - by destruct s.
  - done.
  - apply is_probability_finite in Hp as (-> & Hcan & He).
    destruct (canonical_bounds m e Hcan) as (Hemin & Hm & Hnormal).
    destruct He as [He|[-> Hle]].
    + destruct (decide (e = -53)) as [->|Hne].
      * apply one_minus_p_exact. split; [apply Hnormal; lia|exact Hm].
      * assert (e = -53 - (-53 - e)) as Heq by lia.
        rewrite Heq. apply one_minus_p_rounded; lia.
    + assert (m = 4503599627370496%positive) as ->.
      { apply Pos2Z.inj. specialize (Hnormal ltac:(lia)).
        rewrite pow2_52 in Hnormal. lia. }
      by vm_compute.
Qed.

End Complement.

(** X15.  Every entry of [np.stack([1 - prob, prob]).T] is a float64
    probability when the entries of [prob] are: the complement [1 - p] is
    computed without leaving the unit interval. *)
Theorem prob_matrix_entries_are_probabilities (prob : list float) :
  Forall (λ p, Float64.is_probability p = true) prob →
  Forall (Forall (λ p, Float64.is_probability p = true))
         (TrainIdentifyReview.prob_matrix prob).
Proof.
  intros Hprob. unfold TrainIdentifyReview.prob_matrix.
  apply Forall_fmap. eapply Forall_impl; [exact Hprob|].
  intros p Hp. simpl. repeat constructor; [|done].
  by apply complement_is_probability.
Qed.


(** ** When no row is flagged *)


Section NoIssue.
Context `{C : Collaborators}.
Import TrainIdentifyReview.


End NoIssue.

(** ** Out-of-sample probabilities *)

Section OutOfSample.
Context `{C : Collaborators}.
Import TrainIdentifyReview.


End OutOfSample.

(** * The small instance, further *)

Section MoreInstances.
Import TrainIdentifyReview.

Lemma flip_label_twice_restores_any_label_witness :
  ∃ df',
    flip_label [(0%Z, Toy.row "a" (-9223372036854775808))] 0 = Some df' ∧
    pd.loc df' 0 = Some (Toy.row "a" (-9223372036854775807)) ∧
    flip_label df' 0 = Some [(0%Z, Toy.row "a" (-9223372036854775808))].
Proof.
  destruct (flip_label_twice_restores_any_label
              [(0%Z, Toy.row "a" (-9223372036854775808))] 0
              (Toy.row "a" (-9223372036854775808)))
    as (df' & H1 & H2 & H3).
  - reflexivity.
  - cbn. lia.
  - exists df'. split; [exact H1|]. split; [exact H2|exact H3].
Defined.

Lemma inspect_flips_exactly_the_flagged_rows_witness :
  ∃ ranked df',
    inspect ToyRun.before_inspect
    = Some (ToyRun.before_review, [Print "2 label issues found."],
            Some Step.review) ∧
    issues ToyRun.before_review = Some ranked ∧
    all_df ToyRun.before_review = Some df' ∧
    length df' = 6.
Proof.
  assert (inspect ToyRun.before_inspect
          = Some (ToyRun.before_review, [Print "2 label issues found."],
                  Some Step.review)) as E by (vm_compute; reflexivity).
  destruct (inspect_flips_exactly_the_flagged_rows
              ToyRun.before_inspect ToyRun.before_review _ _
              (default [] (all_df ToyRun.before_inspect)) E eq_refl eq_refl)
    as (ranked & df' & Hi & Hdf & _ & Hlen & _).
  exists ranked, df'. split; [exact E|]. split; [exact Hi|].
  split; [exact Hdf|exact Hlen].
Defined.

Lemma crossval_raises_on_short_or_misaligned_data_witness :
  length (combined_y ToyFailures.misaligned_data_module)
  ≠ length (combined_X ToyFailures.misaligned_data_module) ∧
  crossval (C := Toy.collaborators)
    {| config_path := ToyRun.path;
       dm := Some ToyFailures.misaligned_data_module;
       system := None; trainer := None; config := Some Toy.cfg;
       all_df := None; issues := None |}
  = None.
Proof.
  assert (length (combined_y ToyFailures.misaligned_data_module)
          ≠ length (combined_X ToyFailures.misaligned_data_module)) as H
    by (vm_compute; lia).
  split; [exact H|].
  apply (crossval_raises_on_short_or_misaligned_data (C := Toy.collaborators)
           _ ToyFailures.misaligned_data_module); [reflexivity|].
  right. exact H.
Defined.

Lemma crossval_saves_the_frame_it_writes_witness :
  ∃ df,
    crossval ToyRun.before_crossval
    = Some (ToyRun.before_inspect, [ToCsv df "data/prob.csv"],
            Some Step.inspect) ∧
    all_df ToyRun.before_inspect = Some df ∧
    pd.label_column df = [1; 0; 1; 0; 1; 0]%Z ∧
    review_column df = ["a"; "b"; "c"; "d"; "e"; "f"].
Proof.
  assert (crossval ToyRun.before_crossval
          = Some (ToyRun.before_inspect,
                  [ToCsv (default [] (all_df ToyRun.before_inspect))
                     "data/prob.csv"],
                  Some Step.inspect)) as E by (vm_compute; reflexivity).
  destruct (crossval_saves_the_frame_it_writes
              ToyRun.before_crossval ToyRun.before_inspect _ _
              Toy.data_module E eq_refl)
    as (df & probs & Hdf & Hev & _ & Htext & Hlab & _).
  exists df. injection Hev as <-.
  split; [exact E|]. split; [exact Hdf|]. split; [exact Hlab|exact Htext].
Defined.

Lemma review_record_ids_distinct_witness :
  ∃ outputs,
    review_outputs ToyRun.before_review [4; 1]%Z = Some outputs ∧
    record_ids outputs = ["data-4"; "data-1"] ∧
    NoDup (record_ids outputs).
Proof.
  destruct (review_outputs ToyRun.before_review [4; 1]%Z) as [outputs|] eqn:E.
  - assert (NoDup [4; 1]%Z) as Hnd
      by (apply (bool_decide_unpack _); vm_compute; exact I).
    destruct (review_record_ids_distinct _ _ _ E Hnd) as [Hids Hnodup].
    exists outputs. split; [reflexivity|]. split; [exact Hids|exact Hnodup].
  - exfalso. vm_compute in E. discriminate E.
Defined.

Lemma review_returns_iff_issues_in_range_witness :
  Forall (λ i, - Z.of_nat (length ToyRun.combined) ≤ i
               < Z.of_nat (length ToyRun.combined))%Z [4; 1]%Z ∧
  is_Some (review ToyRun.before_review).
Proof.
  assert (Forall (λ i, - Z.of_nat (length ToyRun.combined) ≤ i
                       < Z.of_nat (length ToyRun.combined))%Z [4; 1]%Z) as H
    by (repeat constructor; vm_compute; congruence).
  split; [exact H|].
  exact (proj2 (review_returns_iff_issues_in_range (C := Toy.collaborators)
                  ToyRun.before_review ToyRun.combined [4; 1]%Z Toy.cfg
                  eq_refl eq_refl eq_refl) H).
Defined.

Lemma finished_run_events_witness :
  ∃ events,
    run (C := Toy.collaborators) 8 ToyRun.path
    = Finished ToyRun.final linear_order events ∧
    length events = 14.
Proof.
  assert (run (C := Toy.collaborators) 8 ToyRun.path = ToyRun.outcome) as E
    by (vm_compute; reflexivity).
  destruct (finished_run_events (C := Toy.collaborators) 8 ToyRun.path
              ToyRun.final linear_order _ E)
    as (cfg & sys1 & sys2 & csv & ranked & outputs & _ & _ & _ & Hev).
  eexists. split; [exact E|]. rewrite Hev. reflexivity.
Defined.

Lemma run_can_raise_only_in_inspect_witness :
  ∃ final events,
    run (C := Toy.collaborators) 8 ToyRun.path
    = Finished final linear_order events.
Proof.
  assert (run (C := Toy.collaborators) 8 ToyRun.path = ToyRun.outcome) as E
    by (vm_compute; reflexivity).
  destruct (run_can_raise_only_in_inspect (C := Toy.collaborators)
              ToyRun.path Toy.cfg) with (fuel := 8) as [H|[events H]].
  - reflexivity.
  - intros t s d. by eexists.
  - intros t s d ckpt_path. by eexists.
  - intros t s dl. by eexists.
  - intros t s dl. apply length_fmap.
  - vm_compute. lia.
  - reflexivity.
  - lia.
  - exact H.
  - exfalso. rewrite E in H. unfold ToyRun.outcome in H. discriminate H.
Defined.

Lemma finished_run_flips_only_flagged_labels_witness :
  ∃ csv df,
    all_df ToyRun.final = Some df ∧
    pd.label_column csv = [1; 0; 1; 0; 1; 0]%Z ∧
    review_column df = review_column csv ∧
    pd.label_column df !! 4 = Some 0%Z.
Proof.
  assert (run (C := Toy.collaborators) 8 ToyRun.path = ToyRun.outcome) as E
    by (vm_compute; reflexivity).
  destruct (finished_run_flips_only_flagged_labels (C := Toy.collaborators)
              8 ToyRun.path ToyRun.final linear_order _ E)
    as (cfg & csv & df & ranked & Hload & _ & Hdf & Hiss & Hlab & _ & Ht & _
          & Hrows).
  injection Hload as <-. injection Hiss as <-.
  exists csv, df. split; [exact Hdf|]. split; [exact Hlab|].
  split; [exact Ht|].
  apply (Hrows 4 1%Z). rewrite Hlab. reflexivity.
Defined.

Lemma finished_run_retrains_on_the_original_split_witness :
  ∃ df,
    all_df ToyRun.final = Some df ∧
    review_column (data (train_dataset
                           (retrain_datamodule (C := Toy.collaborators)
                              Toy.cfg df)))
    = ["a"; "b"; "c"] ∧
    review_column (data (dev_dataset
                           (retrain_datamodule (C := Toy.collaborators)
                              Toy.cfg df)))
    = ["d"; "e"] ∧
    review_column (data (test_dataset
                           (retrain_datamodule (C := Toy.collaborators)
                              Toy.cfg df)))
    = ["f"].
Proof.
  assert (run (C := Toy.collaborators) 8 ToyRun.path = ToyRun.outcome) as E
    by (vm_compute; reflexivity).
  destruct (finished_run_retrains_on_the_original_split
              (C := Toy.collaborators) 8 ToyRun.path ToyRun.final linear_order
              _ E (λ ds, eq_refl))
    as (cfg & df & Hload & Hdf & _ & _ & _ & _ & H1 & H2 & H3).
  injection Hload as <-.
  exists df. split; [exact Hdf|]. split; [exact H1|]. split; [exact H2|exact H3].
Defined.

Lemma run_stops_in_init_system_without_config_witness :
  run (C := ToyFailures.collaborators_without_config) 8 ToyRun.path
  = Raised Step.init_system [Step.start]
      [Seed py_random 42; Seed np_random 42; Seed torch_rng 42].
Proof.
  apply (run_stops_in_init_system_without_config
           (C := ToyFailures.collaborators_without_config) ToyRun.path eq_refl).
  lia.
Defined.

Lemma finished_run_keeps_the_first_system_witness :
  dm ToyRun.final = Some Toy.data_module ∧
  pd.label_column (data (dev_dataset Toy.data_module)) = [0; 1]%Z ∧
  ∃ df, all_df ToyRun.final = Some df ∧
        pd.label_column df = [1; 1; 1; 0; 0; 0]%Z.
Proof.
  assert (run (C := Toy.collaborators) 8 ToyRun.path = ToyRun.outcome) as E
    by (vm_compute; reflexivity).
  destruct (finished_run_keeps_the_first_system (C := Toy.collaborators)
              8 ToyRun.path ToyRun.final linear_order _ E)
    as (cfg & sys1 & sys2 & Hload & _ & Hdm & _).
  injection Hload as <-.
  split; [exact Hdm|]. split; [reflexivity|].
  eexists. split; reflexivity.
Defined.

Lemma flip_loop_twice_restores_the_frame_witness :
  ∃ df',
    for_each flip_label
      [(0%Z, Toy.row "a" 1); (1%Z, Toy.row "b" 0); (2%Z, Toy.row "c" 1)]
      [2; 0]%Z
    = Some df' ∧
    for_each flip_label df' [2; 0]%Z
    = Some [(0%Z, Toy.row "a" 1); (1%Z, Toy.row "b" 0); (2%Z, Toy.row "c" 1)].
Proof.
  apply (flip_loop_twice_restores_the_frame [2; 0]%Z
           [(0%Z, Toy.row "a" 1); (1%Z, Toy.row "b" 0); (2%Z, Toy.row "c" 1)]).
  - reflexivity.
  - repeat constructor; vm_compute; congruence.
  - apply (bool_decide_unpack _). vm_compute. exact I.
  - repeat constructor; vm_compute; congruence.
Defined.

Lemma inspect_reports_the_number_of_changed_labels_witness :
  ∃ df',
    all_df ToyRun.before_review = Some df' ∧
    length (filter (λ p, pd.label_column df' !! p
                         ≠ pd.label_column
                             (default [] (all_df ToyRun.before_inspect)) !! p)
                   (seq 0 6))
    = 2.
Proof.
  assert (inspect ToyRun.before_inspect
          = Some (ToyRun.before_review, [Print "2 label issues found."],
                  Some Step.review)) as E by (vm_compute; reflexivity).
  destruct (inspect_reports_the_number_of_changed_labels
              ToyRun.before_inspect ToyRun.before_review _ _
              (default [] (all_df ToyRun.before_inspect)) E eq_refl eq_refl)
    as (df' & ranked & Hdf & Hiss & Hcount & _).
  injection Hiss as <-.
  exists df'. split; [exact Hdf|exact Hcount].
Defined.

Lemma prob_matrix_entries_are_probabilities_witness :
  Forall (λ p, Float64.is_probability p = true)
         [Toy.p_3_4; Toy.p_1_4; Float64.zero; Float64.one;
          S754_finite false 1 (-1074)] ∧
  Forall (Forall (λ p, Float64.is_probability p = true))
         (prob_matrix [Toy.p_3_4; Toy.p_1_4; Float64.zero; Float64.one;
                       S754_finite false 1 (-1074)]).
Proof.
  assert (Forall (λ p, Float64.is_probability p = true)
                 [Toy.p_3_4; Toy.p_1_4; Float64.zero; Float64.one;
                  S754_finite false 1 (-1074)]) as H
    by (repeat constructor).
  split; [exact H|].
  exact (prob_matrix_entries_are_probabilities _ H).
Defined.

Lemma review_after_inspect_witness :
  ∃ outputs,
    inspect ToyRun.before_inspect
    = Some (ToyRun.before_review, [Print "2 label issues found."],
            Some Step.review) ∧
    review ToyRun.before_review
    = Some (ToyRun.before_review,
            [OutputsToJson outputs "review/pre-annotations.json"],
            Some Step.retrain_retest) ∧
    length outputs = 2.
Proof.
  assert (inspect ToyRun.before_inspect
          = Some (ToyRun.before_review, [Print "2 label issues found."],
                  Some Step.review)) as E by (vm_compute; reflexivity).
  destruct (review_after_inspect (C := Toy.collaborators)
              ToyRun.before_inspect ToyRun.before_review _ _
              (default [] (all_df ToyRun.before_inspect)) Toy.cfg
              E eq_refl eq_refl)
    as (ranked & outputs & Hiss & Hrev & Hlen & _).
  - apply (bool_decide_unpack _). vm_compute. exact I.
  - reflexivity.
  - injection Hiss as <-.
    exists outputs. split; [exact E|]. split; [exact Hrev|exact Hlen].
Defined.



End MoreInstances.
